(** * Screen lock and autosave of the blog editor: a shallow embedding

    The development models the two stateful controllers of the editor,
    [LockController] (js/contents.js) and [PostController]
    (js/controllers/PostController.js), together with the pieces of the
    browser they talk to: the timer table behind [setTimeout] and
    [clearTimeout], the pending promises of the storage backend, the
    [EventBus] and the settings form wired in js/app.js.

    JavaScript runs each handler to completion, so a handler is a function
    from state to state; timers and promise continuations are entries of
    explicit tables, fired by the event loop.

    Beside the controllers stand the pure helpers they and their callers
    rely on: [Utils.getPreview] (js/utils.js), [FiltersManager]
    (js/contents.js), the file names of the local server (server.js) and
    [ThemeManager] (js/theme.js). *)

From Stdlib Require Import ZArith List Bool String Ascii Lia PeanoNat.
Import ListNotations.

Local Open Scope string_scope.
Local Open Scope Z_scope.

(** ** JavaScript values *)

(** A Number that holds an integer, or NaN ([parseInt] returns nothing
    else).  Precision loss of doubles beyond 2^53 is not modelled. *)
Inductive num : Type :=
| Num (z : Z)
| NaN.

(** [a < b] on numbers: false as soon as one side is NaN. *)
Definition num_lt (a b : num) : bool :=
  match a, b with
  | Num x, Num y => x <? y
  | _, _ => false
  end.

(** [a === b] on numbers: NaN differs from everything, itself included. *)
Definition num_eq (a b : num) : bool :=
  match a, b with
  | Num x, Num y => x =? y
  | _, _ => false
  end.

(** [a * k] for an integer constant [k]. *)
Definition num_mul (a : num) (k : Z) : num :=
  match a with
  | Num x => Num (x * k)
  | NaN => NaN
  end.

(** Truthiness of a string: every string but the empty one. *)
Definition truthy (s : string) : bool :=
  match s with
  | EmptyString => false
  | String _ _ => true
  end.

(** [a || b] on strings. *)
Definition str_or (a b : string) : string := if truthy a then a else b.

(** [s.length] as a JavaScript number (code units; the model's strings are
    byte strings, which agree on ASCII text). *)
Definition jslen (s : string) : Z := Z.of_nat (String.length s).

Definition is_digit (c : ascii) : bool :=
  (Ascii.leb "0" c && Ascii.leb c "9")%char.


(** [s.slice(0, -1)]: the string without its last code unit. *)
Definition slice_0_neg1 (s : string) : string :=
  substring 0 (String.length s - 1) s.

Definition is_space (c : ascii) : bool :=
  let n := nat_of_ascii c in
  (Nat.eqb n 32 || (Nat.leb 9 n && Nat.leb n 13))%bool.

Fixpoint trim_start (s : string) : string :=
  match s with
  | EmptyString => EmptyString
  | String c r => if is_space c then trim_start r else s
  end.

(** Drops trailing white space: a suffix made of spaces only vanishes. *)
Fixpoint trim_end (s : string) : string :=
  match s with
  | EmptyString => EmptyString
  | String c r =>
      match trim_end r with
      | EmptyString => if is_space c then EmptyString else String c EmptyString
      | r' => String c r'
      end
  end.

(** [s.trim()], for the ASCII white space characters. *)
Definition trim (s : string) : string := trim_end (trim_start s).

(** *** [parseInt(s)] with no radix

    Leading white space is skipped, a sign is read, a [0x] prefix switches to
    base 16, and the longest run of digits is converted; no digit at all
    gives NaN. *)

Definition digit_val (radix : Z) (c : ascii) : option Z :=
  let n := Z.of_nat (nat_of_ascii c) in
  let v :=
    if (48 <=? n) && (n <=? 57) then Some (n - 48)
    else if (97 <=? n) && (n <=? 122) then Some (n - 87)
    else if (65 <=? n) && (n <=? 90) then Some (n - 55)
    else None in
  match v with
  | Some d => if d <? radix then Some d else None
  | None => None
  end.

Fixpoint parse_digits (radix : Z) (acc : option Z) (s : string) : option Z :=
  match s with
  | EmptyString => acc
  | String c r =>
      match digit_val radix c with
      | Some d =>
          parse_digits radix
            (Some (match acc with Some a => a * radix + d | None => d end)) r
      | None => acc
      end
  end.

Definition strip_hex_prefix (s : string) : option string :=
  match s with
  | String "0" (String "x" r) => Some r
  | String "0" (String "X" r) => Some r
  | _ => None
  end.

Definition parse_unsigned (s : string) : option Z :=
  match strip_hex_prefix s with
  | Some r => parse_digits 16 None r
  | None => parse_digits 10 None s
  end.

Definition parseInt (s : string) : num :=
  let body := trim_start s in
  let signed :=
    match body with
    | String "-" r => (true, r)
    | String "+" r => (false, r)
    | _ => (false, body)
    end in
  match parse_unsigned (snd signed) with
  | Some v => Num (if fst signed then - v else v)
  | None => NaN
  end.

(** ** The timer table of the browser *)

(** The conversion of a number to a signed 32-bit integer
    (two's complement wrap-around). *)
Definition to_int32 (z : Z) : Z := (z + 2 ^ 31) mod 2 ^ 32 - 2 ^ 31.
Arguments to_int32 !z /.

Section Timers.

(** What a timer runs when it fires: the model names each closure handed
    to [setTimeout]. *)
Variable callback : Type.

Record jstimer : Type := mkTimer
  { tid : positive;      (* the id [setTimeout] returned; never zero *)
    due : Z;             (* the time, in ms, at which it fires *)
    tcb : callback }.

Record clock : Type := mkClock
  { now : Z;
    nextId : positive;
    pending : list jstimer }.

(** [setTimeout(cb, delay)]: the browser takes the delay as a signed
    32-bit integer, so the number is reduced modulo 2^32 into the range
    from -2^31 to 2^31 - 1; a delay that is negative then, or NaN, counts
    as zero. *)
Definition delay_ms (d : num) : Z :=
  match d with
  | Num z => Z.max 0 (to_int32 z)
  | NaN => 0
  end.

Definition setTimeout (cb : callback) (delay : num) (k : clock)
  : positive * clock :=
  (nextId k,
   {| now := now k;
      nextId := Pos.succ (nextId k);
      pending := pending k ++
                 [ {| tid := nextId k;
                      due := now k + delay_ms delay;
                      tcb := cb |} ] |}).

Definition keeps (id : option positive) (t : jstimer) : bool :=
  match id with
  | Some i => negb (Pos.eqb (tid t) i)
  | None => true
  end.

(** [clearTimeout(id)]: a null id, or the id of a timer that already
    fired, cancels nothing. *)
Definition clearTimeout (id : option positive) (k : clock) : clock :=
  {| now := now k;
     nextId := nextId k;
     pending := filter (keeps id) (pending k) |}.

(** The timer that fires next: the least due time, the oldest timer among
    equals (the table is in creation order). *)
Fixpoint earliest (l : list jstimer) : option jstimer :=
  match l with
  | [] => None
  | t :: r =>
      match earliest r with
      | Some u => if due u <? due t then Some u else Some t
      | None => Some t
      end
  end.

(** Taking a timer out of the table as it fires; time moves to its due
    time. *)
Definition take (t : jstimer) (k : clock) : clock :=
  {| now := Z.max (now k) (due t);
     nextId := nextId k;
     pending := filter (keeps (Some (tid t))) (pending k) |}.

Definition set_now (T : Z) (k : clock) : clock :=
  {| now := Z.max (now k) T;
     nextId := nextId k;
     pending := pending k |}.

(** A well-formed table: the ids are unique and were all handed out
    already. *)
Definition table_ok (k : clock) : Prop :=
  NoDup (map tid (pending k)) /\
  Forall (fun t => (tid t < nextId k)%positive) (pending k).

End Timers.

Arguments mkTimer {callback}.
Arguments mkClock {callback}.
Arguments tid {callback}.
Arguments due {callback}.
Arguments tcb {callback}.
Arguments now {callback}.
Arguments nextId {callback}.
Arguments pending {callback}.
Arguments delay_ms : clear implicits.
Arguments setTimeout {callback}.
Arguments keeps {callback}.
Arguments clearTimeout {callback}.
Arguments earliest {callback}.
Arguments take {callback}.
Arguments set_now {callback}.
Arguments table_ok {callback}.

(** ** The event loop

    Between two external events the browser fires, one at a time and in
    order, the timers that have become due.  The loop is written once, over
    any controller state that carries a timer table. *)

Section EventLoop.

Variables (callback State : Type).
Variable timers : State -> list (jstimer callback).

(** [fire t s]: the timer [t] leaves the table and its callback runs. *)
Variable fire : jstimer callback -> State -> State.

(** How many firings a pending callback can cause, itself included. *)
Variable weight : callback -> nat.

Definition load (l : list (jstimer callback)) : nat :=
  fold_right (fun t n => (weight (tcb t) + n)%nat) O l.

Fixpoint run_fuel (fuel : nat) (T : Z) (s : State) : State :=
  match fuel with
  | O => s
  | S f =>
      match earliest (timers s) with
      | Some t => if due t <=? T then run_fuel f T (fire t s) else s
      | None => s
      end
  end.

(** Fires every timer due at [T] or before, those created on the way
    included.  The load of the table bounds the number of firings. *)
Definition run_until (T : Z) (s : State) : State :=
  run_fuel (load (timers s)) T s.

End EventLoop.

Arguments load {callback}.
Arguments run_fuel {callback State}.
Arguments run_until {callback State}.

(** ** LockController (js/contents.js) and its wiring (js/app.js) *)

Module Lock.

(** The closures the controller hands to [setTimeout]. *)
Inductive callback : Type :=
| CbCheckPin      (* () => this.checkPin(), 100 ms, handleInput *)
| CbUpdateDots    (* () => this.updateDots(), 500 ms, showError *)
| CbLock          (* () => this.lock(), config.timeout, resetActivityTimer *)
| CbActivity.     (* the 1000 ms throttle of handleActivity *)

Record lockConfig : Type := mkConfig
  { enabled : bool;
    pin : string;
    length : num;
    timeout : num }.

(** The argument of [updateSettings]: the fields the caller supplies. *)
Record settings : Type := mkSettings
  { new_enabled : option bool;
    new_pin : option string;
    new_length : option num;
    new_timeout : option num }.

(** One [.pin-dot] element and its two classes. *)
Record dot : Type := mkDot
  { filled : bool;
    error : bool }.

(** The toasts of the settings dialog. *)
Inductive notice : Type :=
| PinsDoNotMatch             (* 'PIN codes do not match', error *)
| PinWrongLength (n : num)   (* 'PIN must be exactly n digits', error *)
| SettingsSaved              (* 'Settings saved', success *)
| PasscodeRemoved.           (* 'Passcode removed and Screen Lock
                                disabled', success *)

(** What an observer of the lock sees happen; kept as a ghost trace with
    the time of each entry. *)
Inductive obs : Type :=
| Locked            (* lock() went through *)
| Unlocked          (* unlock() ran *)
| PinError          (* showError() ran *)
| ActivityReset.    (* the throttle called resetActivityTimer() *)

Record state : Type := mkState
  { (* the fields of the LockController object *)
    isLocked : bool;
    boundReset : bool;                  (* false: still null *)
    debounceTimer : option positive;
    inputBuffer : string;
    timer : option positive;
    config : lockConfig;
    (* the page *)
    listening : bool;                   (* the four activity listeners *)
    dots : list dot;                    (* querySelectorAll('.pin-dot') *)
    lockScreenActive : bool;
    lockBtnShown : bool;
    settingsOpen : bool;
    toasts : list notice;               (* Toast.show(message, type) *)
    stored : option lockConfig;             (* localStorage slot of the config *)
    (* the browser *)
    clk : clock callback;
    (* ghost *)
    trace : list (Z * obs) }.

Definition set_isLocked (v : bool) (s : state) : state :=
  mkState v (boundReset s) (debounceTimer s) (inputBuffer s) (timer s)
    (config s) (listening s) (dots s) (lockScreenActive s) (lockBtnShown s)
    (settingsOpen s) (toasts s) (stored s) (clk s) (trace s).
Definition set_boundReset (v : bool) (s : state) : state :=
  mkState (isLocked s) v (debounceTimer s) (inputBuffer s) (timer s)
    (config s) (listening s) (dots s) (lockScreenActive s) (lockBtnShown s)
    (settingsOpen s) (toasts s) (stored s) (clk s) (trace s).
Definition set_debounceTimer (v : option positive) (s : state) : state :=
  mkState (isLocked s) (boundReset s) v (inputBuffer s) (timer s)
    (config s) (listening s) (dots s) (lockScreenActive s) (lockBtnShown s)
    (settingsOpen s) (toasts s) (stored s) (clk s) (trace s).
Definition set_inputBuffer (v : string) (s : state) : state :=
  mkState (isLocked s) (boundReset s) (debounceTimer s) v (timer s)
    (config s) (listening s) (dots s) (lockScreenActive s) (lockBtnShown s)
    (settingsOpen s) (toasts s) (stored s) (clk s) (trace s).
Definition set_timer (v : option positive) (s : state) : state :=
  mkState (isLocked s) (boundReset s) (debounceTimer s) (inputBuffer s) v
    (config s) (listening s) (dots s) (lockScreenActive s) (lockBtnShown s)
    (settingsOpen s) (toasts s) (stored s) (clk s) (trace s).
Definition set_config (v : lockConfig) (s : state) : state :=
  mkState (isLocked s) (boundReset s) (debounceTimer s) (inputBuffer s)
    (timer s) v (listening s) (dots s) (lockScreenActive s) (lockBtnShown s)
    (settingsOpen s) (toasts s) (stored s) (clk s) (trace s).
Definition set_listening (v : bool) (s : state) : state :=
  mkState (isLocked s) (boundReset s) (debounceTimer s) (inputBuffer s)
    (timer s) (config s) v (dots s) (lockScreenActive s) (lockBtnShown s)
    (settingsOpen s) (toasts s) (stored s) (clk s) (trace s).
Definition set_dots (v : list dot) (s : state) : state :=
  mkState (isLocked s) (boundReset s) (debounceTimer s) (inputBuffer s)
    (timer s) (config s) (listening s) v (lockScreenActive s)
    (lockBtnShown s) (settingsOpen s) (toasts s) (stored s) (clk s)
    (trace s).
Definition set_lockScreenActive (v : bool) (s : state) : state :=
  mkState (isLocked s) (boundReset s) (debounceTimer s) (inputBuffer s)
    (timer s) (config s) (listening s) (dots s) v (lockBtnShown s)
    (settingsOpen s) (toasts s) (stored s) (clk s) (trace s).
Definition set_lockBtnShown (v : bool) (s : state) : state :=
  mkState (isLocked s) (boundReset s) (debounceTimer s) (inputBuffer s)
    (timer s) (config s) (listening s) (dots s) (lockScreenActive s) v
    (settingsOpen s) (toasts s) (stored s) (clk s) (trace s).
Definition set_settingsOpen (v : bool) (s : state) : state :=
  mkState (isLocked s) (boundReset s) (debounceTimer s) (inputBuffer s)
    (timer s) (config s) (listening s) (dots s) (lockScreenActive s)
    (lockBtnShown s) v (toasts s) (stored s) (clk s) (trace s).
Definition set_toasts (v : list notice) (s : state) : state :=
  mkState (isLocked s) (boundReset s) (debounceTimer s) (inputBuffer s)
    (timer s) (config s) (listening s) (dots s) (lockScreenActive s)
    (lockBtnShown s) (settingsOpen s) v (stored s) (clk s) (trace s).
Definition set_stored (v : option lockConfig) (s : state) : state :=
  mkState (isLocked s) (boundReset s) (debounceTimer s) (inputBuffer s)
    (timer s) (config s) (listening s) (dots s) (lockScreenActive s)
    (lockBtnShown s) (settingsOpen s) (toasts s) v (clk s) (trace s).
Definition set_clk (v : clock callback) (s : state) : state :=
  mkState (isLocked s) (boundReset s) (debounceTimer s) (inputBuffer s)
    (timer s) (config s) (listening s) (dots s) (lockScreenActive s)
    (lockBtnShown s) (settingsOpen s) (toasts s) (stored s) v (trace s).
Definition set_trace (v : list (Z * obs)) (s : state) : state :=
  mkState (isLocked s) (boundReset s) (debounceTimer s) (inputBuffer s)
    (timer s) (config s) (listening s) (dots s) (lockScreenActive s)
    (lockBtnShown s) (settingsOpen s) (toasts s) (stored s) (clk s) v.

Definition timers (s : state) : list (jstimer callback) := pending (clk s).
Definition time (s : state) : Z := now (clk s).

(** Ghost: appends an observation, stamped with the current time. *)
Definition observe (o : obs) (s : state) : state :=
  set_trace (trace s ++ [(time s, o)]) s.

Definition set_timeout (cb : callback) (delay : num) (s : state)
  : positive * state :=
  let r := setTimeout cb delay (clk s) in (fst r, set_clk (snd r) s).

Definition clear_timeout (id : option positive) (s : state) : state :=
  set_clk (clearTimeout id (clk s)) s.

Definition toast (n : notice) (s : state) : state :=
  set_toasts (toasts s ++ [n]) s.

(** *** The controller's methods, in the order of the source *)

(** saveConfig: the slot holds the configuration (its JSON text is not
    modelled). *)
Definition saveConfig (s : state) : state := set_stored (Some (config s)) s.

Definition blank_dot : dot := {| filled := false; error := false |}.

(** generatePinDots: [Array(parseInt(this.config.length))] throws a
    RangeError, here [None], unless the length is an integer between 0 and
    2^32 - 1.  [config.length] is a number already, which [parseInt] gives
    back. *)
Definition generatePinDots (s : state) : option (list dot) :=
  match length (config s) with
  | Num n =>
      if (0 <=? n) && (n <? 4294967296)
      then Some (repeat blank_dot (Z.to_nat n))
      else None
  | NaN => None
  end.

Fixpoint paint (i n : nat) (l : list dot) : list dot :=
  match l with
  | [] => []
  | _ :: r => {| filled := Nat.ltb i n; error := false |} :: paint (S i) n r
  end.

(** updateDots: dot [index] is filled when [index < inputBuffer.length];
    every dot loses its error class. *)
Definition updateDots (s : state) : state :=
  set_dots (paint 0 (String.length (inputBuffer s)) (dots s)) s.

(** stopActivityMonitoring: the two timers are cancelled, the fields that
    hold their ids are left as they are. *)
Definition stopActivityMonitoring (s : state) : state :=
  let s1 := if boundReset s then set_listening false s else s in
  clear_timeout (debounceTimer s1) (clear_timeout (timer s1) s1).

(** resetActivityTimer *)
Definition resetActivityTimer (s : state) : state :=
  if negb (enabled (config s)) || isLocked s then s
  else
    let s1 := clear_timeout (timer s) s in
    let r := set_timeout CbLock (timeout (config s1)) s1 in
    set_timer (Some (fst r)) (snd r).

(** startActivityMonitoring: registering a null listener attaches
    nothing. *)
Definition startActivityMonitoring (s : state) : state :=
  let s1 := stopActivityMonitoring s in
  if negb (enabled (config s1)) then s1
  else
    let s2 := if boundReset s1 then set_listening true s1 else s1 in
    resetActivityTimer s2.

(** handleActivity: a timer id is never zero, so a held id is truthy. *)
Definition handleActivity (s : state) : state :=
  match debounceTimer s with
  | Some _ => s
  | None =>
      let r := set_timeout CbActivity (Num 1000) s in
      set_debounceTimer (Some (fst r)) (snd r)
  end.

(** The closure [handleActivity] schedules. *)
Definition activityCallback (s : state) : state :=
  resetActivityTimer (observe ActivityReset (set_debounceTimer None s)).

(** lock *)
Definition lock (s : state) : state :=
  if isLocked s then s
  else
    let s1 := set_inputBuffer "" (set_isLocked true s) in
    let s2 := updateDots s1 in
    let s3 := set_lockScreenActive true s2 in
    stopActivityMonitoring (observe Locked s3).

(** unlock *)
Definition unlock (s : state) : state :=
  let s1 := set_inputBuffer "" (set_isLocked false s) in
  let s2 := observe Unlocked (set_lockScreenActive false s1) in
  if enabled (config s2) then startActivityMonitoring s2 else s2.

(** showError *)
Definition showError (s : state) : state :=
  let s1 := set_dots
              (map (fun d => {| filled := filled d; error := true |})
                 (dots s)) s in
  let s2 := observe PinError (set_inputBuffer "" s1) in
  snd (set_timeout CbUpdateDots (Num 500) s2).

(** checkPin *)
Definition checkPin (s : state) : state :=
  if (inputBuffer s =? pin (config s))%string then unlock s
  else showError s.

(** handleInput *)
Definition handleInput (key : string) (s : state) : state :=
  if (key =? "backspace")%string then
    updateDots (set_inputBuffer (slice_0_neg1 (inputBuffer s)) s)
  else if (key =? "enter")%string then
    checkPin s
  else if num_lt (Num (jslen (inputBuffer s))) (length (config s)) then
    let s1 := set_inputBuffer (inputBuffer s ++ key) s in
    let s2 :=
      if num_eq (Num (jslen (inputBuffer s1))) (length (config s1))
      then snd (set_timeout CbCheckPin (Num 100) s1)
      else s1 in
    updateDots s2
  else
    updateDots s.

(** toggleLock *)
Definition toggleLock (s : state) : state :=
  if negb (isLocked s) then lock s else s.

Definition merge (c : lockConfig) (n : settings) : lockConfig :=
  {| enabled := match new_enabled n with Some v => v | None => enabled c end;
     pin := match new_pin n with Some v => v | None => pin c end;
     length := match new_length n with Some v => v | None => length c end;
     timeout := match new_timeout n with Some v => v | None => timeout c end
  |}.

(** updateSettings.  The result carries [false] when [generatePinDots]
    threw: the configuration is stored by then, monitoring is not
    restarted, and the caller is unwound too. *)
Definition updateSettings (newConfig : settings) (s : state)
  : state * bool :=
  let s1 := saveConfig (set_config (merge (config s) newConfig) s) in
  match generatePinDots s1 with
  | None => (s1, false)
  | Some ds =>
      let s2 := set_dots ds s1 in
      (if enabled (config s2) then startActivityMonitoring s2
       else stopActivityMonitoring s2, true)
  end.

Definition default_config : lockConfig :=
  {| enabled := false; pin := "0000"; length := Num 4;
     timeout := Num 300000 |}.

(** The state before [init]: the object literal, an empty page, and
    whatever an earlier session left in the localStorage slot. *)
Definition fresh (saved : option lockConfig) (t0 : Z) : state :=
  {| isLocked := false; boundReset := false; debounceTimer := None;
     inputBuffer := ""; timer := None; config := default_config;
     listening := false; dots := []; lockScreenActive := false;
     lockBtnShown := false; settingsOpen := false; toasts := [];
     stored := saved;
     clk := {| now := t0; nextId := 1%positive; pending := [] |};
     trace := [] |}.

(** loadConfig, for a slot written by [saveConfig]. *)
Definition loadConfig (s : state) : state :=
  match stored s with
  | Some c => set_config c s
  | None => s
  end.

(** init, followed by the line of app.js that shows the lock button.
    [None]: rendering the lock screen threw and no listener was
    attached. *)
Definition init (saved : option lockConfig) (t0 : Z) : option state :=
  let s1 := loadConfig (fresh saved t0) in
  match generatePinDots s1 with
  | None => None
  | Some ds =>
      let s2 := set_boundReset true (set_dots ds s1) in
      let s3 := if enabled (config s2) then startActivityMonitoring s2
                else s2 in
      Some (set_lockBtnShown (enabled (config s3)) s3)
  end.

(** *** The settings dialog (js/app.js) *)

(** What the click handler of the save button reads from the page. *)
Record form : Type := mkForm
  { settingLockEnabled : bool;
    settingPin : string;
    settingPinConfirm : string;
    pinLengthChecked : option string;   (* value of the checked radio *)
    settingTimeout : string }.

(** The click handler of [#saveSettings].  With no radio checked the
    handler throws before it changes anything. *)
Definition saveSettingsClick (f : form) (s : state) : state :=
  match pinLengthChecked f with
  | None => s
  | Some radio =>
      let enabled := settingLockEnabled f in
      let pin := settingPin f in
      let confirmPin := settingPinConfirm f in
      let length := parseInt radio in
      let timeout := num_mul (parseInt (settingTimeout f)) 60000 in
      if enabled && negb (pin =? confirmPin)%string then
        toast PinsDoNotMatch s
      else if enabled && negb (num_eq (Num (jslen pin)) length) then
        toast (PinWrongLength length) s
      else
        let r := updateSettings
                   {| new_enabled := Some enabled; new_pin := Some pin;
                      new_length := Some length;
                      new_timeout := Some timeout |} s in
        if snd r then
          toast SettingsSaved
            (set_settingsOpen false (set_lockBtnShown enabled (fst r)))
        else fst r
  end.

(** The click handler of [#resetLockBtn], once the user confirmed. *)
Definition resetLockClick (s : state) : state :=
  let r := updateSettings
             {| new_enabled := Some false; new_pin := Some "0000";
                new_length := Some (Num 4); new_timeout := None |} s in
  if snd r then
    toast PasscodeRemoved
      (set_lockBtnShown false (fst r))
  else fst r.

(** *** Events *)

Inductive event : Type :=
| Click (keypadKey : option string)  (* data-key of the closest keypad
                                        button, if the click hit one *)
| Keydown (key : string)
| Activity                           (* mousemove, mousedown, keypress or
                                        touchmove *)
| LockBtn
| OpenSettings
| CloseSettings
| SaveSettings (f : form)
| ResetLock
| Elapse (dt : Z).                   (* [dt] ms pass with no input *)

(** The two listeners of attachListeners. *)
Definition onClick (keypadKey : option string) (s : state) : state :=
  if negb (isLocked s) then s
  else
    match keypadKey with
    | Some key => handleInput key s
    | None => s
    end.

Definition onKeydown (key : string) (s : state) : state :=
  if negb (isLocked s) then s
  else if ("0" <=? key)%string && (key <=? "9")%string then
    handleInput key s
  else if (key =? "Backspace")%string then handleInput "backspace" s
  else if (key =? "Enter")%string then handleInput "enter" s
  else s.

(** Running the callback of a timer that has come due. *)
Definition run_callback (cb : callback) (s : state) : state :=
  match cb with
  | CbCheckPin => checkPin s
  | CbUpdateDots => updateDots s
  | CbLock => lock s
  | CbActivity => activityCallback s
  end.

Definition fire (t : jstimer callback) (s : state) : state :=
  run_callback (tcb t) (set_clk (take t (clk s)) s).

Definition weight (cb : callback) : nat :=
  match cb with
  | CbCheckPin => 2
  | CbActivity => 2
  | CbLock => 1
  | CbUpdateDots => 1
  end.

(** Time passes up to [T]: due timers fire in order, then the clock reads
    [T]. *)
Definition loop (T : Z) (s : state) : state :=
  run_until timers fire weight T s.

Definition advance (T : Z) (s : state) : state :=
  let s1 := loop T s in
  set_clk (set_now T (clk s1)) s1.

Definition elapse (dt : Z) (s : state) : state :=
  advance (time s + Z.max 0 dt) s.

Definition dispatch (e : event) (s : state) : state :=
  match e with
  | Click k => onClick k s
  | Keydown k => onKeydown k s
  | Activity => if listening s then handleActivity s else s
  | LockBtn => lock s
  | OpenSettings => set_settingsOpen true s
  | CloseSettings => set_settingsOpen false s
  | SaveSettings f => saveSettingsClick f s
  | ResetLock => resetLockClick s
  | Elapse dt => elapse dt s
  end.

Definition run (es : list event) (s : state) : state :=
  fold_left (fun st e => dispatch e st) es s.

(** *** Vocabulary of the properties *)

Inductive digit : Type := D0 | D1 | D2 | D3 | D4 | D5 | D6 | D7 | D8 | D9.

(** The [data-key] of a digit button, which is also the [key] of the
    keyboard event of that digit. *)
Definition digit_key (d : digit) : string :=
  match d with
  | D0 => "0" | D1 => "1" | D2 => "2" | D3 => "3" | D4 => "4"
  | D5 => "5" | D6 => "6" | D7 => "7" | D8 => "8" | D9 => "9"
  end.

(** The inputs of the lock screen. *)
Inductive pin_key : Type :=
| Digit (d : digit)
| Backspace
| Enter.

Definition keypad_key (k : pin_key) : string :=
  match k with
  | Digit d => digit_key d
  | Backspace => "backspace"
  | Enter => "enter"
  end.

Definition keyboard_key (k : pin_key) : string :=
  match k with
  | Digit d => digit_key d
  | Backspace => "Backspace"
  | Enter => "Enter"
  end.

(** A key reaches the controller through the keypad or the keyboard. *)
Definition press (onKeypad : bool) (k : pin_key) : event :=
  if onKeypad then Click (Some (keypad_key k)) else Keydown (keyboard_key k).



(** One digit of a PIN being entered: a pause, then the key. *)
Record stroke : Type := mkStroke
  { pause : Z;
    onKeypad : bool;
    digit_of : digit }.

Definition stroke_events (x : stroke) : list event :=
  [Elapse (pause x); press (onKeypad x) (Digit (digit_of x))].

Definition typing (l : list stroke) : list event :=
  flat_map stroke_events l.

(** The digits a sequence of strokes spells. *)
Fixpoint typed (l : list stroke) : string :=
  match l with
  | [] => ""
  | x :: r => (digit_key (digit_of x) ++ typed r)%string
  end.



Definition is_unlocked (e : Z * obs) : bool :=
  match snd e with Unlocked => true | _ => false end.
Definition is_pin_error (e : Z * obs) : bool :=
  match snd e with PinError => true | _ => false end.
Definition is_reset (e : Z * obs) : bool :=
  match snd e with ActivityReset => true | _ => false end.

(** How often the screen was unlocked, and how often a PIN was refused. *)
Definition unlocks (s : state) : nat :=
  List.length (filter is_unlocked (trace s)).
Definition pin_errors (s : state) : nat :=
  List.length (filter is_pin_error (trace s)).

(** The times at which the throttle reset the inactivity timer. *)
Definition reset_times (s : state) : list Z :=
  map fst (filter is_reset (trace s)).

(** Consecutive times are at least [w] ms apart. *)
Fixpoint spaced (w : Z) (l : list Z) : Prop :=
  match l with
  | [] => True
  | a :: r =>
      match r with
      | [] => True
      | b :: _ => a + w <= b /\ spaced w r
      end
  end.

(** The throttle of handleActivity is sound in [s]: the resets it made
    are at least 1000 ms apart and lie in the past, and a pending throttle
    timer is the one [debounceTimer] holds and is due no sooner than
    1000 ms after any of them. *)
Definition throttled (s : state) : Prop :=
  spaced 1000 (reset_times s) /\
  Forall (fun x => x <= time s) (reset_times s) /\
  (forall t, In t (timers s) -> tcb t = CbActivity ->
     debounceTimer s = Some (tid t) /\
     Forall (fun x => x + 1000 <= due t) (reset_times s)).

(** A step from [s] to [s'] that leaves the throttle alone. *)
Definition benign (s s' : state) : Prop :=
  reset_times s' = reset_times s /\ time s' = time s /\
  debounceTimer s' = debounceTimer s /\
  (forall t, In t (timers s') -> tcb t = CbActivity -> In t (timers s)).

Definition clock_ok (s : state) : Prop := table_ok (clk s).

(** The callbacks that leave a locked screen as it is. *)
Definition quiet (cb : callback) : bool :=
  match cb with
  | CbUpdateDots | CbActivity => true
  | CbCheckPin | CbLock => false
  end.

(** What a timer that is [quiet] leaves alone on a locked screen, the
    buffer apart. *)
Definition screen (s : state)
  : bool * bool * lockConfig * nat * nat * nat :=
  (isLocked s, boundReset s, config s, unlocks s, pin_errors s,
   List.length (dots s)).

(** Only timers whose callback passes [ok] are pending. *)
Definition only (ok : callback -> bool) (s : state) : Prop :=
  forallb (fun t => ok (tcb t)) (timers s) = true.


(** What the event loop keeps, from [s] to [a], while the screen is
    locked and only timers passing [ok] are pending. *)
Definition settled (ok : callback -> bool) (s a : state) : Prop :=
  isLocked a = true /\ screen a = screen s /\
  inputBuffer a = inputBuffer s /\ only ok a /\ clock_ok a /\
  nextId (clk a) = nextId (clk s) /\ time s <= time a /\
  ((forall cb, ok cb = true -> cb = CbActivity) -> dots a = dots s).

(** The inactivity timer is armed: the timer held by [this.timer] is
    pending and will lock the screen at [at_time]. *)
Definition armed (at_time : Z) (s : state) : Prop :=
  exists t, In t (timers s) /\ tcb t = CbLock /\ due t = at_time /\
            timer s = Some (tid t).

(** The same, while the timer [t0] is pending too. *)
Definition waiting (ok : callback -> bool) (t0 : jstimer callback)
    (s a : state) : Prop :=
  isLocked a = true /\ screen a = screen s /\
  inputBuffer a = inputBuffer s /\ clock_ok a /\ In t0 (timers a) /\
  (forall u, In u (timers a) -> u = t0 \/ ok (tcb u) = true) /\
  time s <= time a /\
  ((forall cb, ok cb = true -> cb = CbActivity) -> dots a = dots s).





(** *** Sample states and inputs *)

Definition sample_config : lockConfig :=
  {| enabled := true; pin := "1234"; length := Num 4;
     timeout := Num 300000 |}.

(** The controller initialised at time 0 with [sample_config] stored. *)
Definition sample_start : state :=
  match init (Some sample_config) 0 with
  | Some s => s
  | None => fresh None 0
  end.

Definition sample_form : form :=
  {| settingLockEnabled := true; settingPin := "1234";
     settingPinConfirm := "1234"; pinLengthChecked := Some "4";
     settingTimeout := "5" |}.






(** The sample configuration with a timeout of 35792 minutes, which is
    more than a signed 32-bit integer holds in ms. *)
Definition overflow_config : lockConfig :=
  {| enabled := true; pin := "1234"; length := Num 4;
     timeout := Num 2147520000 |}.

(** The controller initialised at time 0 with [overflow_config] stored. *)
Definition sample_overflow : state :=
  match init (Some overflow_config) 0 with
  | Some s => s
  | None => fresh None 0
  end.

(** The unlocked sample page half a second before the inactivity timer
    is due. *)
Definition sample_late : state := run [Elapse 299500] sample_start.

(** Settings forms that the dialog accepts although the configuration
    they carry is malformed: a timeout of 0 minutes, a negative timeout,
    and a PIN of four letters. *)
Definition zero_timeout_form : form :=
  {| settingLockEnabled := true; settingPin := "1234";
     settingPinConfirm := "1234"; pinLengthChecked := Some "4";
     settingTimeout := "0" |}.

Definition negative_timeout_form : form :=
  {| settingLockEnabled := true; settingPin := "1234";
     settingPinConfirm := "1234"; pinLengthChecked := Some "4";
     settingTimeout := "-5" |}.

Definition letters_form : form :=
  {| settingLockEnabled := true; settingPin := "abcd";
     settingPinConfirm := "abcd"; pinLengthChecked := Some "4";
     settingTimeout := "5" |}.


(** A form the dialog refuses: the PIN is shorter than the chosen
    length. *)
Definition short_pin_form : form :=
  {| settingLockEnabled := true; settingPin := "123";
     settingPinConfirm := "123"; pinLengthChecked := Some "4";
     settingTimeout := "5" |}.

(** *** Vocabulary of the inactivity timer *)

Definition is_lock (cb : callback) : bool :=
  match cb with
  | CbLock => true
  | _ => false
  end.

(** The inactivity timers that are pending. *)
Definition lock_timers (s : state) : list (jstimer callback) :=
  filter (fun t => is_lock (tcb t)) (timers s).

(** A pending inactivity timer is the one [this.timer] holds, and none is
    pending while the screen is locked. *)
Definition lock_tracked (s : state) : Prop :=
  forall t, In t (timers s) -> tcb t = CbLock ->
    timer s = Some (tid t) /\ isLocked s = false.

(** A step from [s] to [s'] that leaves the inactivity timer alone. *)
Definition calm (s s' : state) : Prop :=
  timer s' = timer s /\ isLocked s' = isLocked s /\
  (forall t, In t (timers s') -> tcb t = CbLock -> In t (timers s)).

(** The throttle is stuck: [debounceTimer] holds the id [i] and no
    throttle timer is pending that would clear the field. *)
Definition stuck (i : positive) (s : state) : Prop :=
  debounceTimer s = Some i /\
  forall t, In t (timers s) -> tcb t <> CbActivity.

(** A signal at work on the unlocked screen: its throttle timer [ta], due
    at [T], is pending and the resets made so far are [r]; or it has fired
    and is gone, and its callback has reset the inactivity timer, now due
    at [T + z].  The other timers pending repaint the dots, are PIN checks
    left over from the locked screen that will find a buffer other than
    the PIN, or are the inactivity timer, due after [T]. *)
Definition postponing (c : lockConfig) (T z : Z) (ta : jstimer callback)
    (r : list Z) (a : state) : Prop :=
  isLocked a = false /\ config a = c /\ listening a = true /\
  clock_ok a /\ time a <= T /\
  (forall u, In u (timers a) ->
     u = ta \/ tcb u = CbUpdateDots \/
     (tcb u = CbCheckPin /\ inputBuffer a <> pin c /\ pin c <> "") \/
     (tcb u = CbLock /\ timer a = Some (tid u) /\ T < due u)) /\
  ((In ta (timers a) /\ reset_times a = r) \/
   (~ In ta (timers a) /\ debounceTimer a = None /\ time a = T /\
    armed (T + z) a /\ reset_times a = (r ++ [T])%list)).

(** A signal that comes too late: its throttle timer [ta] was created
    while the inactivity timer [tl] was pending and is due no sooner.
    Either both are still pending on the unlocked screen, [tl] before
    [ta] in the table, or [tl] has locked the screen and lock() has
    cancelled [ta].  [debounceTimer] holds the id of [ta] throughout. *)
Definition overtaken (c : lockConfig) (T : Z) (ta tl : jstimer callback)
    (r : list Z) (a : state) : Prop :=
  config a = c /\ clock_ok a /\ time a <= T /\ reset_times a = r /\
  debounceTimer a = Some (tid ta) /\
  ((isLocked a = false /\ timer a = Some (tid tl) /\
    exists l, timers a = (l ++ [ta])%list /\ In tl l /\
              forall u, In u l -> u = tl \/ tcb u = CbUpdateDots) \/
   (isLocked a = true /\
    forall u, In u (timers a) -> tcb u = CbUpdateDots)).

(** What the page does, one thing at a time: it handles an event, it
    fires a timer, or its clock moves on. *)
Inductive action : Type :=
| Handle (e : event)
| Fire (t : jstimer callback)
| Tick (T : Z).

(** The passing of time is no action of its own: it is made of firings
    and of the clock moving on. *)
Definition act (x : action) (s : state) : state :=
  match x with
  | Handle (Elapse _) => s
  | Handle e => dispatch e s
  | Fire t => fire t s
  | Tick T => set_clk (set_now T (clk s)) s
  end.

Definition perform (xs : list action) (s : state) : state :=
  fold_left (fun st x => act x st) xs s.

(** The actions that can reach checkPin: the enter key, on the keypad or
    on the keyboard, and the timer that handleInput sets on a full
    buffer. *)
Definition is_check (x : action) : bool :=
  match x with
  | Handle (Click (Some key)) => (key =? "enter")%string
  | Handle (Keydown key) => (key =? "Enter")%string
  | Fire t => match tcb t with CbCheckPin => true | _ => false end
  | _ => false
  end.

(** From [s] to [s'] unlock() was not called, and a locked screen stayed
    locked. *)
Definition shut (s s' : state) : Prop :=
  unlocks s' = unlocks s /\ (isLocked s = true -> isLocked s' = true).

(** From [s] to [s'] the screen was opened by unlock() or not at all:
    the count of unlocks did not fall, and a screen that is open now was
    open before or was unlocked on the way. *)
Definition guarded (s s' : state) : Prop :=
  (unlocks s <= unlocks s')%nat /\
  (isLocked s' = false ->
   isLocked s = false \/ (unlocks s < unlocks s')%nat).

(** How many dots of the lock screen are filled. *)
Definition filled_count (s : state) : nat :=
  List.length (filter filled (dots s)).

(** The pointer moved on the unlocked sample page: a throttle timer is
    pending. *)
Definition sample_moved : state := run [Activity] sample_start.

End Lock.

(** ** PostController (js/controllers/PostController.js), the debounce of
    js/utils.js and the listeners of UIController that feed it *)

Module Post.

(** [Utils.debounce] hands one closure to [setTimeout]: [later]. *)
Inductive callback : Type :=
| CbLater.

(** A post object, as sent to and returned by the storage backend.
    Times are in ms; an absent field is [None]. *)
Record post : Type := mkPost
  { id : option string;
    filename : option string;
    title : string;
    content : string;
    plainText : string;
    createdAt : option Z;
    oldFilename : option string;
    isFavorite : bool }.

Inductive bus_event : Type :=
| PostDirty (dirty : bool)                       (* 'post:dirty' *)
| PostCreated (created : option Z) (silent : bool)  (* 'post:created' *)
| PostLoaded (p : post)                          (* 'post:loaded' *)
| PostSaving                                     (* 'post:saving' *)
| PostSaved (p : post) (isAutoSave : bool)       (* 'post:saved' *)
| PostSaveError (error : string).                (* 'post:saveError' *)

(** What [saveCurrentPost] resolves to. *)
Inductive result : Type :=
| Failure (error : string)     (* { success: false, error } *)
| Success (p : post).          (* { success: true, post } *)

(** Where a call of [saveCurrentPost] is suspended. *)
Inductive continuation : Type :=
| AwaitSavePost (isAutoSave : bool)
    (* at [await StorageManager.savePost(...)] *)
| AwaitLoadPosts (isAutoSave : bool) (p : post).
    (* at [await this.loadPosts()], holding the saved post *)

(** The log of what leaves the controller, each entry with its time. *)
Inductive obs : Type :=
| Emit (e : bus_event)                  (* EventBus.emit *)
| CallSavePost (k : nat) (req : post)   (* StorageManager.savePost(req) *)
| CallGetAllPosts (k : nat)             (* StorageManager.getAllPosts() *)
| Returned (r : result).                (* a saveCurrentPost promise settles *)

(** The Quill editor: [root.innerHTML] and [getText()]. *)
Record editor : Type := mkEditor
  { html : string;
    text : string }.

Record state : Type := mkState
  { (* the fields of the PostController object *)
    currentPostId : option string;
    currentFilename : option string;
    currentPostCreatedAt : option Z;
    currentIsFavorite : bool;
    isDirty : bool;
    posts : list post;
    (* the variable [timeout] captured by debouncedSave *)
    timeout : option positive;
    (* the page *)
    postTitle : option string;     (* value of #postTitle; None: no such
                                      element *)
    quill : option editor;         (* EditorManager.quill *)
    saveStatus : string;           (* text of #saveStatus *)
    (* the browser *)
    clk : clock callback;
    awaiting : list (nat * continuation);   (* unsettled backend calls *)
    nextCall : nat;
    (* ghost *)
    log : list (Z * obs) }.

Definition set_currentPostId (v : option string) (s : state) : state :=
  mkState v (currentFilename s) (currentPostCreatedAt s)
    (currentIsFavorite s) (isDirty s) (posts s) (timeout s) (postTitle s)
    (quill s) (saveStatus s) (clk s) (awaiting s) (nextCall s) (log s).
Definition set_currentFilename (v : option string) (s : state) : state :=
  mkState (currentPostId s) v (currentPostCreatedAt s)
    (currentIsFavorite s) (isDirty s) (posts s) (timeout s) (postTitle s)
    (quill s) (saveStatus s) (clk s) (awaiting s) (nextCall s) (log s).
Definition set_currentPostCreatedAt (v : option Z) (s : state) : state :=
  mkState (currentPostId s) (currentFilename s) v
    (currentIsFavorite s) (isDirty s) (posts s) (timeout s) (postTitle s)
    (quill s) (saveStatus s) (clk s) (awaiting s) (nextCall s) (log s).
Definition set_currentIsFavorite (v : bool) (s : state) : state :=
  mkState (currentPostId s) (currentFilename s) (currentPostCreatedAt s)
    v (isDirty s) (posts s) (timeout s) (postTitle s)
    (quill s) (saveStatus s) (clk s) (awaiting s) (nextCall s) (log s).
Definition set_isDirty (v : bool) (s : state) : state :=
  mkState (currentPostId s) (currentFilename s) (currentPostCreatedAt s)
    (currentIsFavorite s) v (posts s) (timeout s) (postTitle s)
    (quill s) (saveStatus s) (clk s) (awaiting s) (nextCall s) (log s).
Definition set_posts (v : list post) (s : state) : state :=
  mkState (currentPostId s) (currentFilename s) (currentPostCreatedAt s)
    (currentIsFavorite s) (isDirty s) v (timeout s) (postTitle s)
    (quill s) (saveStatus s) (clk s) (awaiting s) (nextCall s) (log s).
Definition set_timeout_var (v : option positive) (s : state) : state :=
  mkState (currentPostId s) (currentFilename s) (currentPostCreatedAt s)
    (currentIsFavorite s) (isDirty s) (posts s) v (postTitle s)
    (quill s) (saveStatus s) (clk s) (awaiting s) (nextCall s) (log s).
Definition set_postTitle (v : option string) (s : state) : state :=
  mkState (currentPostId s) (currentFilename s) (currentPostCreatedAt s)
    (currentIsFavorite s) (isDirty s) (posts s) (timeout s) v
    (quill s) (saveStatus s) (clk s) (awaiting s) (nextCall s) (log s).
Definition set_quill (v : option editor) (s : state) : state :=
  mkState (currentPostId s) (currentFilename s) (currentPostCreatedAt s)
    (currentIsFavorite s) (isDirty s) (posts s) (timeout s) (postTitle s)
    v (saveStatus s) (clk s) (awaiting s) (nextCall s) (log s).
Definition set_saveStatus (v : string) (s : state) : state :=
  mkState (currentPostId s) (currentFilename s) (currentPostCreatedAt s)
    (currentIsFavorite s) (isDirty s) (posts s) (timeout s) (postTitle s)
    (quill s) v (clk s) (awaiting s) (nextCall s) (log s).
Definition set_clk (v : clock callback) (s : state) : state :=
  mkState (currentPostId s) (currentFilename s) (currentPostCreatedAt s)
    (currentIsFavorite s) (isDirty s) (posts s) (timeout s) (postTitle s)
    (quill s) (saveStatus s) v (awaiting s) (nextCall s) (log s).
Definition set_awaiting (v : list (nat * continuation)) (s : state)
  : state :=
  mkState (currentPostId s) (currentFilename s) (currentPostCreatedAt s)
    (currentIsFavorite s) (isDirty s) (posts s) (timeout s) (postTitle s)
    (quill s) (saveStatus s) (clk s) v (nextCall s) (log s).
Definition set_nextCall (v : nat) (s : state) : state :=
  mkState (currentPostId s) (currentFilename s) (currentPostCreatedAt s)
    (currentIsFavorite s) (isDirty s) (posts s) (timeout s) (postTitle s)
    (quill s) (saveStatus s) (clk s) (awaiting s) v (log s).
Definition set_log (v : list (Z * obs)) (s : state) : state :=
  mkState (currentPostId s) (currentFilename s) (currentPostCreatedAt s)
    (currentIsFavorite s) (isDirty s) (posts s) (timeout s) (postTitle s)
    (quill s) (saveStatus s) (clk s) (awaiting s) (nextCall s) v.

Definition timers (s : state) : list (jstimer callback) := pending (clk s).
Definition time (s : state) : Z := now (clk s).

Definition record (o : obs) (s : state) : state :=
  set_log (log s ++ [(time s, o)]) s.

(** Starting a backend call: it is logged and its promise is awaited with
    the continuation [c]. *)
Definition call_backend (mk : nat -> obs) (c : continuation) (s : state)
  : state :=
  let k := nextCall s in
  set_nextCall (S k) (set_awaiting (awaiting s ++ [(k, c)]) (record (mk k) s)).

(** *** EditorManager *)

Definition getContent (s : state) : string :=
  match quill s with
  | Some e => html e
  | None => ""
  end.

Definition getPlainText (s : state) : string :=
  match quill s with
  | Some e => trim (text e)
  | None => ""
  end.

(** Quill's empty document: one blank line. *)
Definition empty_editor : editor :=
  {| html := "<p><br></p>"; text := String "010"%char EmptyString |}.

(** clear: [quill.setContents([])]. *)
Definition clear (s : state) : state :=
  match quill s with
  | Some _ => set_quill (Some empty_editor) s
  | None => s
  end.

(** setContent: [quill.root.innerHTML = html || ''].  [shown] is the text
    Quill reports for that markup. *)
Definition setContent (markup shown : string) (s : state) : state :=
  match quill s with
  | Some _ => set_quill (Some {| html := markup; text := shown |}) s
  | None => s
  end.

(** *** EventBus *)

(** The listeners UIController registers, as far as they touch the title
    input and the status line. *)
Definition listeners (e : bus_event) (s : state) : state :=
  match e with
  | PostCreated _ _ =>
      match postTitle s with
      | Some _ => set_saveStatus "" (set_postTitle (Some "") s)
      | None => s
      end
  | PostLoaded p =>
      match postTitle s with
      | Some _ => set_saveStatus "" (set_postTitle (Some (title p)) s)
      | None => s
      end
  | PostDirty d => if d then set_saveStatus "Unsaved changes..." s else s
  | PostSaving => set_saveStatus "Saving..." s
  | PostSaved _ auto =>
      set_saveStatus (if auto then "All changes saved" else "") s
  | PostSaveError _ => s
  end.

Definition emit (e : bus_event) (s : state) : state :=
  listeners e (record (Emit e) s).

(** *** The controller's methods, in the order of the source *)

(** init: the creation time is taken; the debounced closure starts with
    no timer. *)
Definition init (title : option string) (ed : option editor) (t0 : Z)
  : state :=
  {| currentPostId := None; currentFilename := None;
     currentPostCreatedAt := Some t0; currentIsFavorite := false;
     isDirty := false; posts := []; timeout := None;
     postTitle := title; quill := ed; saveStatus := "";
     clk := {| now := t0; nextId := 1%positive; pending := [] |};
     awaiting := []; nextCall := O; log := [] |}.

(** setDirty *)
Definition setDirty (dirty : bool) (s : state) : state :=
  emit (PostDirty dirty) (set_isDirty dirty s).

(** createNewPost *)
Definition createNewPost (silent : bool) (s : state) : state :=
  let s1 := set_currentPostId None s in
  let s2 := set_currentFilename None s1 in
  let s3 := set_currentIsFavorite false s2 in
  let s4 := set_currentPostCreatedAt (Some (time s3)) s3 in
  let s5 := setDirty false (clear s4) in
  emit (PostCreated (currentPostCreatedAt s5) silent) s5.

(** loadPost, for a post that is not null. *)
Definition loadPost (p : post) (shown : string) (s : state) : state :=
  let s1 := set_currentPostId (id p) s in
  let s2 := set_currentFilename (filename p) s1 in
  let s3 := set_currentPostCreatedAt (createdAt p) s2 in
  let s4 := set_currentIsFavorite (isFavorite p) s3 in
  let s5 := setContent (content p) shown s4 in
  emit (PostLoaded p) (setDirty false s5).

(** The title [saveCurrentPost] computes:
    [titleOverride || (titleInput ? titleInput.value.trim() : '') ||
     'Untitled Post']. *)
Definition save_title (titleOverride : option string) (s : state)
  : string :=
  str_or
    (str_or (match titleOverride with Some t => t | None => "" end)
            (match postTitle s with Some v => trim v | None => "" end))
    "Untitled Post".

(** saveCurrentPost, up to its first [await].  [Some r]: the promise is
    settled with [r] at once; [None]: the call is suspended on the
    backend. *)
Definition saveCurrentPost (isAutoSave : bool)
    (titleOverride : option string) (s : state) : state * option result :=
  let title := save_title titleOverride s in
  let content := getContent s in
  let plainText := getPlainText s in
  if negb (truthy plainText) && negb (truthy title) && negb isAutoSave then
    (record (Returned (Failure "Empty post")) s,
     Some (Failure "Empty post"))
  else
    let s1 := if isAutoSave then emit PostSaving s else s in
    let req := {| id := currentPostId s1;
                  filename := None;
                  title := title;
                  content := content;
                  plainText := plainText;
                  createdAt := currentPostCreatedAt s1;
                  oldFilename := currentFilename s1;
                  isFavorite := currentIsFavorite s1 |} in
    (call_backend (fun k => CallSavePost k req) (AwaitSavePost isAutoSave)
       s1,
     None).

(** loadPosts, after [getAllPosts] answered. *)
Definition keep_named (p : post) : bool :=
  match filename p with
  | Some f => truthy f
  | None => false
  end.

(** saveCurrentPost resumed with the saved post: the identity of the
    current post is taken from it and the list is reloaded. *)
Definition savePost_resolved (isAutoSave : bool) (p : post) (s : state)
  : state :=
  let s1 := set_currentPostId (id p) s in
  let s2 := set_currentFilename (filename p) s1 in
  let s3 := set_currentIsFavorite (isFavorite p) s2 in
  let s4 := set_currentPostCreatedAt (createdAt p) s3 in
  call_backend CallGetAllPosts (AwaitLoadPosts isAutoSave p) s4.

(** saveCurrentPost resumed after loadPosts. *)
Definition loadPosts_resolved (isAutoSave : bool) (p : post)
    (all : list post) (s : state) : state :=
  let s1 := set_posts (filter keep_named all) s in
  let s2 := setDirty false s1 in
  record (Returned (Success p)) (emit (PostSaved p isAutoSave) s2).

(** The catch branch of saveCurrentPost. *)
Definition savePost_rejected (error : string) (s : state) : state :=
  record (Returned (Failure error)) (emit (PostSaveError error) s).

(** *** Utils.debounce, instantiated by init with a wait of 2000 ms *)

Definition set_timeout (cb : callback) (delay : num) (s : state)
  : positive * state :=
  let r := setTimeout cb delay (clk s) in (fst r, set_clk (snd r) s).

Definition clear_timeout (i : option positive) (s : state) : state :=
  set_clk (clearTimeout i (clk s)) s.

(** The debounced function of init: save if still dirty. *)
Definition func (s : state) : state :=
  if isDirty s then fst (saveCurrentPost true None s) else s.

Definition later (s : state) : state :=
  func (clear_timeout (timeout s) s).

Definition debouncedSave (s : state) : state :=
  let s1 := clear_timeout (timeout s) s in
  let r := set_timeout CbLater (Num 2000) s1 in
  set_timeout_var (Some (fst r)) (snd r).

(** *** UIController *)

(** handleSave: with no title input the handler throws at once. *)
Definition handleSave (s : state) : state :=
  match postTitle s with
  | None => s
  | Some v =>
      fst (saveCurrentPost false (Some (str_or (trim v) "Untitled Post")) s)
  end.

(** The edit notification shared by the text-change listener of init and
    the input listener of the title. *)
Definition notifyEdited (s : state) : state :=
  debouncedSave (setDirty true s).

(** *** Events *)

Inductive event : Type :=
| TextChange (user : bool) (markup shown : string)
    (* Quill's text-change, with its source and the new content *)
| TitleInput (value : string)
| SaveBtn                            (* the save button, or Ctrl+S *)
| NewPostBtn
| OpenPost (p : post) (shown : string)
| SavePostResolved (k : nat) (p : post)
| SavePostRejected (k : nat) (error : string)
| GetAllPostsResolved (k : nat) (all : list post)
| Elapse (dt : Z).

Fixpoint lookup_call (k : nat) (l : list (nat * continuation))
  : option continuation :=
  match l with
  | [] => None
  | (j, c) :: r => if Nat.eqb j k then Some c else lookup_call k r
  end.

Definition settle (k : nat) (s : state) : state :=
  set_awaiting (filter (fun e => negb (Nat.eqb (fst e) k)) (awaiting s)) s.

Definition run_callback (cb : callback) (s : state) : state :=
  match cb with
  | CbLater => later s
  end.

Definition fire (t : jstimer callback) (s : state) : state :=
  run_callback (tcb t) (set_clk (take t (clk s)) s).

Definition weight (cb : callback) : nat := 1.

Definition loop (T : Z) (s : state) : state :=
  run_until timers fire weight T s.

Definition advance (T : Z) (s : state) : state :=
  let s1 := loop T s in
  set_clk (set_now T (clk s1)) s1.

Definition elapse (dt : Z) (s : state) : state :=
  advance (time s + Z.max 0 dt) s.

Definition dispatch (e : event) (s : state) : state :=
  match e with
  | TextChange user markup shown =>
      match quill s with
      | Some _ =>
          let s1 := set_quill (Some {| html := markup; text := shown |}) s in
          if user then notifyEdited s1 else s1
      | None => s
      end
  | TitleInput v =>
      match postTitle s with
      | Some _ => notifyEdited (set_postTitle (Some v) s)
      | None => s
      end
  | SaveBtn => handleSave s
  | NewPostBtn => createNewPost false s
  | OpenPost p shown => loadPost p shown s
  | SavePostResolved k p =>
      match lookup_call k (awaiting s) with
      | Some (AwaitSavePost auto) => savePost_resolved auto p (settle k s)
      | _ => s
      end
  | SavePostRejected k error =>
      match lookup_call k (awaiting s) with
      | Some (AwaitSavePost _) => savePost_rejected error (settle k s)
      | _ => s
      end
  | GetAllPostsResolved k all =>
      match lookup_call k (awaiting s) with
      | Some (AwaitLoadPosts auto p) =>
          loadPosts_resolved auto p all (settle k s)
      | _ => s
      end
  | Elapse dt => elapse dt s
  end.

Definition run (es : list event) (s : state) : state :=
  fold_left (fun st e => dispatch e st) es s.

(** The save calls in flight: the backend calls of [savePost] that have
    not settled. *)
Definition is_save (e : nat * continuation) : bool :=
  match snd e with
  | AwaitSavePost _ => true
  | AwaitLoadPosts _ _ => false
  end.

Definition in_flight (s : state) : nat :=
  List.length (filter is_save (awaiting s)).

(** *** Vocabulary of the properties *)

(** An edit notification: the user changed the text or the title. *)
Inductive edit : Type :=
| EditText (markup shown : string)
| EditTitle (value : string).

Definition edit_event (e : edit) : event :=
  match e with
  | EditText markup shown => TextChange true markup shown
  | EditTitle value => TitleInput value
  end.

(** A burst of edits: the first one, then each further one after a
    pause. *)
Definition burst (first : edit) (rest : list (Z * edit)) : list event :=
  edit_event first ::
  flat_map (fun ge => [Elapse (fst ge); edit_event (snd ge)]) rest.



(** Events that take no time and are no edit notification. *)
Definition instant (e : event) : bool :=
  match e with
  | TextChange user _ _ => negb user
  | TitleInput _ => false
  | Elapse _ => false
  | _ => true
  end.

(** The editor and the title input are on the page. *)
Definition page_ready (s : state) : Prop :=
  quill s <> None /\ postTitle s <> None.

(** Every pending timer is the one the debounced closure holds. *)
Definition debounce_ok (s : state) : Prop :=
  forall t, In t (timers s) -> timeout s = Some (tid t).

(** The debounced save is scheduled: one timer is pending, due at
    [at_time], and the closure holds its id. *)
Definition scheduled (at_time : Z) (s : state) : Prop :=
  exists i,
    timers s = [ {| tid := i; due := at_time; tcb := CbLater |} ] /\
    timeout s = Some i.

Definition is_saving (e : Z * obs) : bool :=
  match snd e with
  | Emit PostSaving => true
  | _ => false
  end.

(** The times at which an autosave was started: [saveCurrentPost(true)]
    emits 'post:saving' as it begins, a manual save never does. *)
Definition autosaves (s : state) : list Z :=
  map fst (filter is_saving (log s)).

(** A step from [s] to [s'] that leaves the clock and the debounce alone
    and starts no autosave. *)
Definition untimed (s s' : state) : Prop :=
  clk s' = clk s /\ timeout s' = timeout s /\ autosaves s' = autosaves s.

(** The request [saveCurrentPost] sends to the backend. *)
Definition save_request (titleOverride : option string) (s : state)
  : post :=
  {| id := currentPostId s;
     filename := None;
     title := save_title titleOverride s;
     content := getContent s;
     plainText := getPlainText s;
     createdAt := currentPostCreatedAt s;
     oldFilename := currentFilename s;
     isFavorite := currentIsFavorite s |}.

(** *** Sample states *)

(** A fresh page at time 0: empty title, empty editor. *)
Definition sample_page : state := init (Some "") (Some empty_editor) 0.

(** A save is in flight on the sample page. *)
Definition sample_saving : state :=
  run [TitleInput "Notes"; SaveBtn] sample_page.

Definition sample_post : post :=
  {| id := Some "post_1"; filename := Some "post_1"; title := "Notes";
     content := "<p>hello</p>"; plainText := "hello";
     createdAt := Some 0; oldFilename := None; isFavorite := false |}.

(** The ids of the unsettled calls were all handed out already. *)
Definition calls_ok (s : state) : Prop :=
  Forall (fun e => (fst e < nextCall s)%nat) (awaiting s).

End Post.

(** ** Utils.getPreview (js/utils.js) *)

Module Utils.

(** getPreview(text, length), for an integer [length];
    [substring(0, length)] takes a negative length for zero. *)
Definition getPreview (text : string) (length : Z) : string :=
  if negb (truthy text) then "No content"
  else
    (substring 0 (Z.to_nat length) text ++
     (if (length <? jslen text)%Z then "..." else ""))%string.

(** The call without a length. *)
Definition getPreview_default (text : string) : string :=
  getPreview text 80.

End Utils.

(** ** FiltersManager (js/contents.js) *)

Module FiltersManager.

(** [toLowerCase] on one code unit: the letters A to Z; other code units
    are left as they are. *)
Definition lower (c : ascii) : ascii :=
  let n := nat_of_ascii c in
  if (Nat.leb 65 n && Nat.leb n 90)%bool then ascii_of_nat (n + 32) else c.

Fixpoint toLowerCase (s : string) : string :=
  match s with
  | EmptyString => EmptyString
  | String c r => String (lower c) (toLowerCase r)
  end.

(** [s.includes(q)] *)
Fixpoint includes (s q : string) : bool :=
  prefix q s ||
  match s with
  | EmptyString => false
  | String _ r => includes r q
  end.

(** [!query || !query.trim()] *)
Definition blank (query : string) : bool :=
  negb (truthy query) || negb (truthy (trim query)).

(** filterByName *)
Definition filterByName (posts : list Post.post) (query : string)
  : list Post.post :=
  if blank query then posts
  else
    let lowerQuery := trim (toLowerCase query) in
    filter (fun post => includes (toLowerCase (Post.title post)) lowerQuery)
      posts.

(** filterByContent *)
Definition filterByContent (posts : list Post.post) (query : string)
  : list Post.post :=
  if blank query then posts
  else
    let lowerQuery := trim (toLowerCase query) in
    filter (fun post =>
              truthy (Post.plainText post) &&
              includes (toLowerCase (Post.plainText post)) lowerQuery)
      posts.

(** No white space in front. *)
Definition headed (s : string) : bool :=
  match s with
  | EmptyString => true
  | String c _ => negb (is_space c)
  end.

End FiltersManager.

(** ** The file names of the server (server.js) *)

Module Server.

Definition is_alnum (c : ascii) : bool :=
  let n := nat_of_ascii c in
  (Nat.leb 48 n && Nat.leb n 57) || (Nat.leb 65 n && Nat.leb n 90) ||
  (Nat.leb 97 n && Nat.leb n 122).

(** [.replace(/[^a-zA-Z0-9]+/g, '-')]: every maximal run of other
    characters becomes one dash.  [inside] tells that the character before
    belonged to such a run. *)
Fixpoint dashes (inside : bool) (s : string) : string :=
  match s with
  | EmptyString => EmptyString
  | String c r =>
      if is_alnum c then String c (dashes false r)
      else if inside then dashes true r
      else String "-" (dashes true r)
  end.

(** [.replace(/^-|-$/g, '')]: a dash at the start goes, and so does a dash
    at the end of what is left. *)
Definition strip_first (s : string) : string :=
  match s with
  | String "-" r => r
  | _ => s
  end.

Fixpoint strip_last (s : string) : string :=
  match s with
  | EmptyString => EmptyString
  | String c r =>
      match r with
      | EmptyString => if (c =? "-")%char then EmptyString else s
      | _ => String c (strip_last r)
      end
  end.

Definition sanitize (title : string) : string :=
  substring 0 50 (strip_last (strip_first (dashes false title))).

(** generateFilename(title, timestamp).  [stamp_now] is the text the
    function builds from the clock when it is given no timestamp. *)
Definition generateFilename (stamp_now title : string)
    (timestamp : option string) : string :=
  let stamp :=
    match timestamp with
    | Some t => if truthy t then t else stamp_now
    | None => stamp_now
    end in
  (stamp ++ "_" ++ str_or (sanitize title) "untitled" ++ ".json")%string.

(** A string against a shape: [None] stands for a digit, [Some c] for the
    character [c]. *)
Fixpoint matches (shape : list (option ascii)) (s : string) : bool :=
  match shape, s with
  | [], EmptyString => true
  | None :: p, String c r => is_digit c && matches p r
  | Some x :: p, String c r => (c =? x)%char && matches p r
  | _, _ => false
  end.

(** [\d{4}-\d{2}-\d{2}_\d{4}] *)
Definition stamp_shape : list (option ascii) :=
  [None; None; None; None; Some "-"%char; None; None; Some "-"%char;
   None; None; Some "_"%char; None; None; None; None].

Definition is_stamp (s : string) : bool := matches stamp_shape s.

(** [oldFilename.match(/^(\d{4}-\d{2}-\d{2}_\d{4})_/)], the group. *)
Definition stamp_of (oldFilename : string) : option string :=
  if matches (stamp_shape ++ [Some "_"%char]) (substring 0 16 oldFilename)
  then Some (substring 0 15 oldFilename)
  else None.

(** api.savePost: the name of the file it writes. *)
Definition savePost_filename (stamp_now : string) (p : Post.post)
  : string :=
  let fileTimestamp :=
    match Post.oldFilename p with
    | Some old => if truthy old then stamp_of old else None
    | None => None
    end in
  generateFilename stamp_now (str_or (Post.title p) "untitled")
    fileTimestamp.

(** api.savePost: the old file it removes, if there is one on disk. *)
Definition savePost_removes (stamp_now : string) (p : Post.post)
  : option string :=
  match Post.oldFilename p with
  | Some old =>
      if truthy old && negb (old =? savePost_filename stamp_now p)%string
      then Some old
      else None
  | None => None
  end.

(** The post a client sends when it saves again what the server
    answered: the file name comes back as [oldFilename]. *)
Definition resend (file : string) (p : Post.post) : Post.post :=
  {| Post.id := Post.id p; Post.filename := Post.filename p;
     Post.title := Post.title p; Post.content := Post.content p;
     Post.plainText := Post.plainText p; Post.createdAt := Post.createdAt p;
     Post.oldFilename := Some file; Post.isFavorite := Post.isFavorite p |}.

(** The characters a sanitized title is made of. *)
Definition name_char (c : ascii) : bool := is_alnum c || (c =? "-")%char.

(** The string starts with a dash. *)
Definition starts_dash (s : string) : bool :=
  match s with
  | EmptyString => false
  | String c _ => (c =? "-")%char
  end.

(** The string is made of such characters only. *)
Definition clean (s : string) : bool :=
  forallb name_char (list_ascii_of_string s).

End Server.

(** ** ThemeManager (js/theme.js) *)

Module ThemeManager.

Record page : Type := mkPage
  { data_theme : option string;     (* attribute of the root element *)
    saved_theme : option string }.  (* the localStorage slot *)

(** setTheme *)
Definition setTheme (theme : string) (s : page) : page :=
  {| data_theme := Some theme; saved_theme := Some theme |}.

(** getTheme *)
Definition getTheme (s : page) : string :=
  str_or (match data_theme s with Some t => t | None => "" end) "light".

(** toggle *)
Definition toggle (s : page) : page :=
  setTheme (if (getTheme s =? "light")%string then "dark" else "light") s.

Definition system_theme (prefersDark : bool) : string :=
  if prefersDark then "dark" else "light".

(** A slot that [getItem] reads as a truthy string. *)
Definition has_saved (s : page) : bool :=
  match saved_theme s with
  | Some t => truthy t
  | None => false
  end.

(** init, up to the registration of the listener. *)
Definition init (prefersDark : bool) (s : page) : page :=
  if has_saved s
  then setTheme (match saved_theme s with Some t => t | None => "" end) s
  else setTheme (system_theme prefersDark) s.

(** The listener init registers for changes of the system preference. *)
Definition onSystemChange (isDark : bool) (s : page) : page :=
  if has_saved s then s else setTheme (system_theme isDark) s.

Inductive event : Type :=
| Toggle
| SystemChange (isDark : bool).

Definition dispatch (e : event) (s : page) : page :=
  match e with
  | Toggle => toggle s
  | SystemChange isDark => onSystemChange isDark s
  end.

Definition run (es : list event) (s : page) : page :=
  fold_left (fun st e => dispatch e st) es s.

Definition is_toggle (e : event) : bool :=
  match e with
  | Toggle => true
  | SystemChange _ => false
  end.

End ThemeManager.

(** * Facts *)

(** ** Strings *)

Lemma length_append (a b : string) :
  String.length (a ++ b) = (String.length a + String.length b)%nat.
Proof. induction a as [|c a IH]; simpl; [reflexivity | now rewrite IH]. Qed.


Lemma substring_0_length (n : nat) (s : string) :
  String.length (substring 0 n s) = Nat.min n (String.length s).
Proof.
  revert n; induction s as [|c s IH]; intros [|n]; simpl; try reflexivity.
  now rewrite IH.
Qed.


Lemma slice_0_neg1_length (s : string) :
  String.length (slice_0_neg1 s) = (String.length s - 1)%nat.
Proof. unfold slice_0_neg1; rewrite substring_0_length; lia. Qed.


Lemma truthy_str_or (a b : string) :
  truthy b = true -> truthy (str_or a b) = true.
Proof. unfold str_or; destruct (truthy a) eqn:E; auto. Qed.

(** ** Timer tables *)

Section TimerFacts.

Context {callback : Type}.
Implicit Types (l : list (jstimer callback)) (t u : jstimer callback).

Lemma earliest_In l t : earliest l = Some t -> In t l.
Proof.
  revert t; induction l as [|a l IH]; simpl; intros t H; [discriminate|].
  destruct (earliest l) as [u|].
  - destruct (due u <? due a); inversion H; subst; auto.
  - inversion H; auto.
Qed.

Lemma earliest_None l : earliest l = None -> l = [].
Proof.
  destruct l as [|a l]; simpl; [reflexivity|].
  destruct (earliest l) as [u|]; [destruct (due u <? due a)|]; discriminate.
Qed.

Lemma earliest_least l t u : earliest l = Some t -> In u l -> due t <= due u.
Proof.
  revert t u; induction l as [|a l IH]; simpl; intros t u H Hu; [easy|].
  destruct (earliest l) as [v|] eqn:E.
  - destruct (due v <? due a) eqn:C; inversion H; subst; clear H.
    + apply Z.ltb_lt in C. destruct Hu as [<-|Hu]; [lia | now apply IH].
    + apply Z.ltb_ge in C. destruct Hu as [<-|Hu]; [lia|].
      specialize (IH v u eq_refl Hu); lia.
  - inversion H; subst. apply earliest_None in E; subst.
    destruct Hu as [<-|[]]; lia.
Qed.

Lemma earliest_single t : earliest [t] = Some t.
Proof. reflexivity. Qed.

Lemma In_take t u (k : clock callback) :
  In u (pending (take t k)) <-> In u (pending k) /\ tid u <> tid t.
Proof.
  unfold take; simpl; rewrite filter_In; unfold keeps.
  rewrite negb_true_iff, Pos.eqb_neq; tauto.
Qed.

Lemma In_clearTimeout i u (k : clock callback) :
  In u (pending (clearTimeout i k)) ->  In u (pending k).
Proof. unfold clearTimeout; simpl; rewrite filter_In; tauto. Qed.

Lemma In_clearTimeout_id i u (k : clock callback) :
  In u (pending (clearTimeout (Some i) k)) -> tid u <> i.
Proof.
  unfold clearTimeout; simpl; rewrite filter_In; unfold keeps.
  rewrite negb_true_iff, Pos.eqb_neq; tauto.
Qed.

Lemma NoDup_tid_filter (f : jstimer callback -> bool) l :
  NoDup (map tid l) -> NoDup (map tid (filter f l)).
Proof.
  induction l as [|a l IH]; simpl; intros H; [constructor|].
  inversion H as [|x xs Hnot Hnd]; subst.
  destruct (f a); simpl; auto.
  constructor; auto.
  intros Hin. apply Hnot. apply in_map_iff in Hin as (u & Hu & Hin).
  apply filter_In in Hin as [Hin _]. apply in_map_iff. eauto.
Qed.

Lemma Forall_filter_keep (P : jstimer callback -> Prop)
    (f : jstimer callback -> bool) l :
  Forall P l -> Forall P (filter f l).
Proof.
  rewrite !Forall_forall. intros H u Hu.
  apply filter_In in Hu as [Hu _]. auto.
Qed.

Lemma table_ok_clearTimeout i (k : clock callback) :
  table_ok k -> table_ok (clearTimeout i k).
Proof.
  intros [Hn Hf]. split; simpl.
  - now apply NoDup_tid_filter.
  - now apply Forall_filter_keep.
Qed.

Lemma table_ok_take t (k : clock callback) :
  table_ok k -> table_ok (take t k).
Proof.
  intros [Hn Hf]. split; simpl.
  - now apply NoDup_tid_filter.
  - now apply Forall_filter_keep.
Qed.

Lemma table_ok_set_now T (k : clock callback) :
  table_ok k -> table_ok (set_now T k).
Proof. intros H; exact H. Qed.

Lemma table_ok_setTimeout cb d (k : clock callback) :
  table_ok k -> table_ok (snd (setTimeout cb d k)).
Proof.
  intros [Hn Hf]. split; simpl.
  - rewrite map_app; simpl.
    apply NoDup_app; [assumption | repeat constructor; intros [] |].
    intros x Hx [<-|[]].
    apply in_map_iff in Hx as (u & Hu & Hin).
    rewrite Forall_forall in Hf. specialize (Hf u Hin). lia.
  - apply Forall_app; split.
    + eapply Forall_impl; [|exact Hf]. simpl; intros; lia.
    + repeat constructor; simpl; lia.
Qed.

(** In a well-formed table the id names the timer. *)
Lemma tid_inj l t u :
  NoDup (map tid l) -> In t l -> In u l -> tid t = tid u -> t = u.
Proof.
  induction l as [|a l IH]; simpl; intros H Ht Hu E; [easy|].
  inversion H as [|x xs Hnot Hnd]; subst.
  destruct Ht as [->|Ht], Hu as [->|Hu]; auto.
  - exfalso; apply Hnot. rewrite E. now apply in_map.
  - exfalso; apply Hnot. rewrite <- E. now apply in_map.
Qed.

Variable weight : callback -> nat.

Lemma load_app l1 l2 :
  load weight (l1 ++ l2) = (load weight l1 + load weight l2)%nat.
Proof. induction l1 as [|a l1 IH]; simpl; [reflexivity | rewrite IH; lia]. Qed.

Lemma load_filter (f : jstimer callback -> bool) l :
  (load weight (filter f l) <= load weight l)%nat.
Proof.
  induction l as [|a l IH]; simpl; [lia|].
  destruct (f a); simpl; lia.
Qed.

Lemma keeps_self t : keeps (Some (tid t)) t = false.
Proof. unfold keeps. now rewrite Pos.eqb_refl. Qed.

Lemma load_take t (k : clock callback) :
  In t (pending k) ->
  (load weight (pending (take t k)) + weight (tcb t)
   <= load weight (pending k))%nat.
Proof.
  unfold take; cbn [pending].
  induction (pending k) as [|a l IH]; cbn [filter In]; [easy|].
  intros [->|Hin].
  - rewrite keeps_self. cbn [load fold_right].
    pose proof (load_filter (keeps (Some (tid t))) l).
    unfold load in *. lia.
  - specialize (IH Hin).
    destruct (keeps (Some (tid t)) a); unfold load in *; simpl in *; lia.
Qed.

Lemma load_clearTimeout i (k : clock callback) :
  (load weight (pending (clearTimeout i k)) <= load weight (pending k))%nat.
Proof. apply load_filter. Qed.

End TimerFacts.

(** ** The event loop *)

Section EventLoopFacts.

Variables (callback State : Type).
Variable timers : State -> list (jstimer callback).
Variable fire : jstimer callback -> State -> State.
Variable weight : callback -> nat.

(** Firing a pending timer lowers the load of the table: a callback
    schedules less than it weighs. *)
Hypothesis fire_load : forall t s,
  In t (timers s) ->
  (load weight (timers (fire t s)) < load weight (timers s))%nat.

Lemma run_fuel_enough (T : Z) (f1 f2 : nat) (s : State) :
  (load weight (timers s) <= f1)%nat ->
  (load weight (timers s) <= f2)%nat ->
  run_fuel timers fire f1 T s = run_fuel timers fire f2 T s.
Proof.
  revert f2 s; induction f1 as [|f1 IH]; intros [|f2] s H1 H2; simpl;
    try reflexivity.
  - destruct (earliest (timers s)) as [t|] eqn:E; [|reflexivity].
    apply earliest_In, fire_load in E. lia.
  - destruct (earliest (timers s)) as [t|] eqn:E; [|reflexivity].
    apply earliest_In, fire_load in E. lia.
  - destruct (earliest (timers s)) as [t|] eqn:E; [|reflexivity].
    destruct (due t <=? T); [|reflexivity].
    apply earliest_In, fire_load in E. apply IH; lia.
Qed.

(** The loop, unfolded once. *)
Lemma run_until_eq (T : Z) (s : State) :
  run_until timers fire weight T s =
  match earliest (timers s) with
  | Some t =>
      if due t <=? T then run_until timers fire weight T (fire t s) else s
  | None => s
  end.
Proof.
  unfold run_until.
  destruct (earliest (timers s)) as [t|] eqn:E.
  - pose proof (fire_load _ _ (earliest_In _ _ E)) as L.
    destruct (load weight (timers s)) as [|n] eqn:Ln; [lia|].
    simpl. rewrite E. destruct (due t <=? T); [|reflexivity].
    apply run_fuel_enough; lia.
  - destruct (load weight (timers s)); simpl; now rewrite ?E.
Qed.

(** Induction along the firings of one run of the loop. *)
Lemma run_until_rel (T : Z) (R : State -> State -> Prop) :
  (forall s, earliest (timers s) = None -> R s s) ->
  (forall s t, earliest (timers s) = Some t -> T < due t -> R s s) ->
  (forall s t, earliest (timers s) = Some t -> due t <= T ->
               R (fire t s) (run_until timers fire weight T (fire t s)) ->
               R s (run_until timers fire weight T (fire t s))) ->
  forall s, R s (run_until timers fire weight T s).
Proof.
  intros Hnone Hlate Hstep s.
  remember (load weight (timers s)) as n eqn:Hn.
  revert s Hn; induction n as [n IH] using lt_wf_ind; intros s Hn.
  rewrite run_until_eq.
  destruct (earliest (timers s)) as [t|] eqn:E; [|now apply Hnone].
  destruct (due t <=? T) eqn:C.
  - apply Z.leb_le in C. apply (Hstep s t); auto.
    apply (IH (load weight (timers (fire t s)))); auto.
    subst n. apply fire_load, earliest_In, E.
  - apply Z.leb_gt in C. now apply (Hlate s t).
Qed.

(** An invariant of the firings is an invariant of the loop. *)
Lemma run_until_inv (T : Z) (P : State -> Prop) :
  (forall s t, P s -> earliest (timers s) = Some t -> due t <= T ->
               P (fire t s)) ->
  forall s, P s -> P (run_until timers fire weight T s).
Proof.
  intros Hstep s.
  apply (run_until_rel T (fun a b => P a -> P b)); eauto.
Qed.

(** When the loop stops, nothing due is left in the table. *)
Lemma run_until_done (T : Z) (s : State) (u : jstimer callback) :
  In u (timers (run_until timers fire weight T s)) -> T < due u.
Proof.
  revert u.
  apply (run_until_rel T (fun _ b => forall u, In u (timers b) -> T < due u)).
  - intros a E u Hu. apply earliest_None in E. rewrite E in Hu. easy.
  - intros a t E C u Hu. pose proof (earliest_least _ _ _ E Hu). lia.
  - auto.
Qed.

(** With nothing due, the loop does nothing. *)
Lemma run_until_idle (T : Z) (s : State) :
  (forall u, In u (timers s) -> T < due u) ->
  run_until timers fire weight T s = s.
Proof.
  intros H. rewrite run_until_eq.
  destruct (earliest (timers s)) as [t|] eqn:E; [|reflexivity].
  specialize (H t (earliest_In _ _ E)).
  destruct (due t <=? T) eqn:C; [apply Z.leb_le in C; lia | reflexivity].
Qed.


End EventLoopFacts.

(** ** LockController *)

Module LockFacts.
Import Lock.

Local Abbreviation load := (load weight).

(** *** How each method changes the timer table *)

Lemma timers_updateDots s : timers (updateDots s) = timers s.
Proof. reflexivity. Qed.

Lemma load_clear i s : (load (timers (clear_timeout i s)) <= load (timers s))%nat.
Proof. apply load_clearTimeout. Qed.

Lemma load_set cb d s :
  load (timers (snd (set_timeout cb d s))) = (load (timers s) + weight cb)%nat.
Proof. unfold timers; simpl. rewrite load_app. simpl. lia. Qed.

Lemma load_stop s :
  (load (timers (stopActivityMonitoring s)) <= load (timers s))%nat.
Proof.
  unfold stopActivityMonitoring.
  etransitivity; [apply load_clear|].
  etransitivity; [apply load_clear|].
  destruct (boundReset s); apply Nat.le_refl.
Qed.

Lemma load_reset s :
  (load (timers (resetActivityTimer s)) <= load (timers s) + 1)%nat.
Proof.
  unfold resetActivityTimer.
  destruct (negb (enabled (config s)) || isLocked s); [lia|].
  change (timers (set_timer ?i ?x)) with (timers x).
  rewrite load_set. pose proof (load_clear (timer s) s). simpl. lia.
Qed.

Lemma load_start s :
  (load (timers (startActivityMonitoring s)) <= load (timers s) + 1)%nat.
Proof.
  unfold startActivityMonitoring.
  pose proof (load_stop s) as Hs.
  destruct (negb (enabled (config (stopActivityMonitoring s)))); [lia|].
  etransitivity; [apply load_reset|].
  destruct (boundReset (stopActivityMonitoring s));
    unfold timers in *; simpl in *; lia.
Qed.

Lemma load_lock s : (load (timers (lock s)) <= load (timers s))%nat.
Proof.
  unfold lock. destruct (isLocked s); [lia|].
  etransitivity; [apply load_stop|]. apply Nat.le_refl.
Qed.

Lemma load_unlock s : (load (timers (unlock s)) <= load (timers s) + 1)%nat.
Proof.
  unfold unlock.
  match goal with |- context [if ?c then _ else _] => destruct c end.
  - etransitivity; [apply load_start|]. apply Nat.le_refl.
  - unfold timers in *; simpl in *; lia.
Qed.

Lemma load_showError s :
  load (timers (showError s)) = (load (timers s) + 1)%nat.
Proof. unfold showError. now rewrite load_set. Qed.

Lemma load_checkPin s :
  (load (timers (checkPin s)) <= load (timers s) + 1)%nat.
Proof.
  unfold checkPin. destruct (inputBuffer s =? pin (config s))%string.
  - apply load_unlock.
  - rewrite load_showError. lia.
Qed.

Lemma load_activityCallback s :
  (load (timers (activityCallback s)) <= load (timers s) + 1)%nat.
Proof.
  unfold activityCallback. etransitivity; [apply load_reset|].
  apply Nat.le_refl.
Qed.

Lemma fire_load t s :
  In t (timers s) -> (load (timers (fire t s)) < load (timers s))%nat.
Proof.
  intros Hin. unfold fire.
  pose proof (load_take weight t (clk s) Hin) as Ht.
  set (s1 := set_clk (take t (clk s)) s).
  change (pending (take t (clk s))) with (timers s1) in Ht.
  change (pending (clk s)) with (timers s) in Ht.
  destruct (tcb t); simpl in *.
  - pose proof (load_checkPin s1). lia.
  - rewrite timers_updateDots. lia.
  - pose proof (load_lock s1). lia.
  - pose proof (load_activityCallback s1). lia.
Qed.

(** The loop of the lock, unfolded once, and its induction principles. *)
Lemma loop_eq T s :
  loop T s =
  match earliest (timers s) with
  | Some t => if due t <=? T then loop T (fire t s) else s
  | None => s
  end.
Proof. apply run_until_eq, fire_load. Qed.

Lemma loop_inv T (P : state -> Prop) :
  (forall s t, P s -> earliest (timers s) = Some t -> due t <= T ->
               P (fire t s)) ->
  forall s, P s -> P (loop T s).
Proof. apply run_until_inv, fire_load. Qed.

Lemma loop_done T s u : In u (timers (loop T s)) -> T < due u.
Proof. apply run_until_done, fire_load. Qed.

Lemma loop_idle T s :
  (forall u, In u (timers s) -> T < due u) -> loop T s = s.
Proof. apply run_until_idle, fire_load. Qed.

(** *** The timer table stays well formed *)

Ltac split_ifs :=
  repeat match goal with
         | |- context [if ?c then _ else _] => destruct c
         end.

Ltac proj :=
  cbn [isLocked boundReset debounceTimer inputBuffer timer config
       listening dots lockScreenActive lockBtnShown settingsOpen toasts
       stored clk trace
       set_isLocked set_boundReset set_debounceTimer set_inputBuffer
       set_timer set_config set_listening set_dots set_lockScreenActive
       set_lockBtnShown set_settingsOpen set_toasts set_stored set_clk
       set_trace set_timeout clear_timeout observe toast saveConfig
       fst snd] in *.

Ltac clocks :=
  cbn [setTimeout clearTimeout take set_now pending now nextId tid due tcb
       fst snd] in *.

Ltac table :=
  repeat first
    [ assumption
    | apply table_ok_clearTimeout
    | apply table_ok_take
    | apply (table_ok_setTimeout _ _ _) ].

Lemma clock_ok_stop s : clock_ok s -> clock_ok (stopActivityMonitoring s).
Proof.
  unfold clock_ok, stopActivityMonitoring; intros H.
  destruct (boundReset s); proj; table.
Qed.

Lemma clock_ok_reset s : clock_ok s -> clock_ok (resetActivityTimer s).
Proof.
  unfold clock_ok, resetActivityTimer; intros H.
  split_ifs; proj; table.
Qed.

Lemma clock_ok_start s : clock_ok s -> clock_ok (startActivityMonitoring s).
Proof.
  intros H. unfold startActivityMonitoring.
  pose proof (clock_ok_stop s H).
  split_ifs; auto; apply clock_ok_reset; assumption.
Qed.

Lemma clock_ok_lock s : clock_ok s -> clock_ok (lock s).
Proof.
  intros H. unfold lock. split_ifs; auto. now apply clock_ok_stop.
Qed.

Lemma clock_ok_unlock s : clock_ok s -> clock_ok (unlock s).
Proof.
  intros H. unfold unlock. split_ifs; auto. now apply clock_ok_start.
Qed.

Lemma clock_ok_showError s : clock_ok s -> clock_ok (showError s).
Proof.
  unfold clock_ok, showError; intros H; proj; table.
Qed.

Lemma clock_ok_checkPin s : clock_ok s -> clock_ok (checkPin s).
Proof.
  intros H. unfold checkPin.
  split_ifs; [now apply clock_ok_unlock | now apply clock_ok_showError].
Qed.

Lemma clock_ok_activityCallback s :
  clock_ok s -> clock_ok (activityCallback s).
Proof. intros H. unfold activityCallback. now apply clock_ok_reset. Qed.

Lemma clock_ok_handleActivity s : clock_ok s -> clock_ok (handleActivity s).
Proof.
  unfold clock_ok, handleActivity; intros H.
  destruct (debounceTimer s); proj; table.
Qed.

Lemma clock_ok_handleInput key s : clock_ok s -> clock_ok (handleInput key s).
Proof.
  intros H. unfold handleInput.
  split_ifs; auto using clock_ok_checkPin.
  all: unfold clock_ok, updateDots in *; proj; table.
Qed.

Lemma clock_ok_fire t s : clock_ok s -> clock_ok (fire t s).
Proof.
  intros H. unfold fire.
  assert (H1 : clock_ok (set_clk (take t (clk s)) s))
    by (unfold clock_ok in *; proj; table).
  destruct (tcb t); simpl;
    auto using clock_ok_checkPin, clock_ok_lock, clock_ok_activityCallback.
Qed.

Lemma clock_ok_loop T s : clock_ok s -> clock_ok (loop T s).
Proof. apply loop_inv. intros a t Ha _ _. now apply clock_ok_fire. Qed.

Lemma clock_ok_advance T s : clock_ok s -> clock_ok (advance T s).
Proof. intros H. apply (clock_ok_loop T) in H. exact H. Qed.

(** *** The buffer invariant *)


















Lemma digit_key_length d : String.length (digit_key d) = 1%nat.
Proof. destruct d; reflexivity. Qed.

Lemma digit_key_not_named d :
  (digit_key d =? "backspace")%string = false /\
  (digit_key d =? "enter")%string = false.
Proof. destruct d; split; reflexivity. Qed.

(** A digit key, as handleInput treats it. *)
Lemma handleInput_digit d s :
  handleInput (digit_key d) s =
  if num_lt (Num (jslen (inputBuffer s))) (length (config s)) then
    let s1 := set_inputBuffer (inputBuffer s ++ digit_key d) s in
    updateDots
      (if num_eq (Num (jslen (inputBuffer s1))) (length (config s1))
       then snd (set_timeout CbCheckPin (Num 100) s1) else s1)
  else updateDots s.
Proof.
  unfold handleInput. destruct (digit_key_not_named d) as [-> ->].
  reflexivity.
Qed.


Lemma onKeydown_key k s :
  onKeydown (keyboard_key k) s = onClick (Some (keypad_key k)) s.
Proof.
  unfold onKeydown, onClick. destruct (negb (isLocked s)); [reflexivity|].
  destruct k as [d| |]; [destruct d|..]; reflexivity.
Qed.

Lemma dispatch_press b k s :
  dispatch (press b k) s =
  if isLocked s then handleInput (keypad_key k) s else s.
Proof.
  unfold press. destruct b; simpl dispatch; rewrite ?onKeydown_key;
    unfold onClick; destruct (isLocked s); reflexivity.
Qed.



(** *** Quiet timers on a locked screen *)

Lemma paint_length i n l : List.length (paint i n l) = List.length l.
Proof.
  revert i; induction l as [|a l IH]; intros i; simpl; [reflexivity|].
  now rewrite IH.
Qed.

Lemma paint_no_error i n l : forallb error (paint i n l) = match l with [] => true | _ => false end.
Proof. destruct l; reflexivity. Qed.

Lemma unlocks_observe o s :
  unlocks (observe o s) =
  (unlocks s + match o with Unlocked => 1 | _ => 0 end)%nat.
Proof.
  unfold unlocks, observe; proj. rewrite filter_app, length_app.
  destruct o; reflexivity.
Qed.

Lemma pin_errors_observe o s :
  pin_errors (observe o s) =
  (pin_errors s + match o with PinError => 1 | _ => 0 end)%nat.
Proof.
  unfold pin_errors, observe; proj. rewrite filter_app, length_app.
  destruct o; reflexivity.
Qed.

Lemma fire_quiet t s :
  isLocked s = true -> quiet (tcb t) = true ->
  screen (fire t s) = screen s /\
  inputBuffer (fire t s) = inputBuffer s /\
  clk (fire t s) = take t (clk s) /\
  (tcb t = CbActivity -> dots (fire t s) = dots s).
Proof.
  intros L Q. unfold fire, screen.
  destruct (tcb t); try discriminate; simpl run_callback.
  - unfold updateDots; proj. rewrite paint_length.
    repeat split. discriminate.
  - unfold activityCallback, resetActivityTimer; proj. rewrite L, orb_true_r.
    rewrite unlocks_observe, pin_errors_observe, !Nat.add_0_r.
    unfold unlocks, pin_errors; proj. rewrite ?L. repeat split; auto.
Qed.

Lemma only_In ok s t : only ok s -> In t (timers s) -> ok (tcb t) = true.
Proof. unfold only. rewrite forallb_forall. auto. Qed.

Lemma only_filter ok (f : jstimer callback -> bool) (l : list (jstimer callback)) :
  forallb (fun t => ok (tcb t)) l = true ->
  forallb (fun t => ok (tcb t)) (filter f l) = true.
Proof.
  rewrite !forallb_forall. intros H u Hu.
  apply filter_In in Hu as [Hu _]. auto.
Qed.

Lemma settled_refl ok s :
  isLocked s = true -> only ok s -> clock_ok s -> settled ok s s.
Proof. intros L O K. unfold settled. intuition lia. Qed.

Lemma settled_fire ok s a t :
  (forall cb, ok cb = true -> quiet cb = true) ->
  settled ok s a -> In t (timers a) -> settled ok s (fire t a).
Proof.
  intros Hq (L & Sc & B & O & K & N & Tm & D) Hin.
  pose proof (only_In _ _ _ O Hin) as Hok.
  destruct (fire_quiet t a L (Hq _ Hok)) as (Sc' & B' & K' & D').
  assert (L' : isLocked (fire t a) = true).
  { unfold screen in Sc'. inversion Sc'. congruence. }
  unfold settled, clock_ok, only, timers, time in *. rewrite K'.
  split; [exact L'|]. split; [congruence|]. split; [congruence|].
  split; [simpl; now apply only_filter|].
  split; [now apply table_ok_take|].
  split; [exact N|]. split; [simpl; lia|].
  intros A. rewrite D' by (apply A, Hok). auto.
Qed.

Lemma loop_quiet ok T s :
  (forall cb, ok cb = true -> quiet cb = true) ->
  isLocked s = true -> only ok s -> clock_ok s ->
  settled ok s (loop T s) /\ (time s <= T -> time (loop T s) <= T).
Proof.
  intros Hq L O K.
  apply (loop_inv T (fun a => settled ok s a /\ (time s <= T -> time a <= T))).
  - intros a t [Ha Hb] E C. split.
    + apply settled_fire; auto. now apply earliest_In.
    + intros H. specialize (Hb H).
      destruct Ha as (La & _ & _ & Oa & _).
      pose proof (only_In _ _ _ Oa (earliest_In _ _ E)) as Hok.
      destruct (fire_quiet t a La (Hq _ Hok)) as (_ & _ & K' & _).
      unfold time in *. rewrite K'. simpl. lia.
  - split; [now apply settled_refl | auto].
Qed.

Lemma time_elapse dt s : time (elapse dt s) = Z.max (time (loop (time s + Z.max 0 dt) s)) (time s + Z.max 0 dt).
Proof. reflexivity. Qed.

Lemma elapse_quiet ok dt s :
  (forall cb, ok cb = true -> quiet cb = true) ->
  isLocked s = true -> only ok s -> clock_ok s ->
  settled ok s (elapse dt s) /\ time (elapse dt s) = time s + Z.max 0 dt.
Proof.
  intros Hq L O K.
  destruct (loop_quiet ok (time s + Z.max 0 dt) s Hq L O K)
    as [(La & Sc & B & Oa & Ka & N & Tm & D) Hle].
  split.
  - unfold elapse, advance, settled.
    split; [exact La|]. split; [exact Sc|]. split; [exact B|].
    split; [exact Oa|]. split; [exact Ka|]. split; [exact N|].
    split; [|exact D]. unfold time in *; simpl; lia.
  - rewrite time_elapse. lia.
Qed.

(** *** Entering a PIN *)

Lemma run_app l1 l2 s : run (l1 ++ l2)%list s = run l2 (run l1 s).
Proof. apply fold_left_app. Qed.

Lemma append_assoc (a b c : string) : ((a ++ b) ++ c = a ++ (b ++ c))%string.
Proof. induction a as [|x a IH]; simpl; [reflexivity | now rewrite IH]. Qed.

Lemma append_empty_r (a : string) : (a ++ "")%string = a.
Proof. induction a as [|x a IH]; simpl; [reflexivity | now rewrite IH]. Qed.

Lemma typed_length l : String.length (typed l) = List.length l.
Proof.
  induction l as [|x l IH]; simpl; [reflexivity|].
  now rewrite length_append, digit_key_length, IH.
Qed.

(** One more digit on a locked screen whose buffer is not full. *)
Lemma handleInput_digit_room d s n :
  length (config s) = Num n -> jslen (inputBuffer s) < n ->
  let s' := handleInput (digit_key d) s in
  screen s' = screen s /\
  inputBuffer s' = (inputBuffer s ++ digit_key d)%string /\
  clk s' = if jslen (inputBuffer s) + 1 =? n
           then snd (setTimeout CbCheckPin (Num 100) (clk s))
           else clk s.
Proof.
  intros Ln Lt. rewrite handleInput_digit, Ln.
  unfold num_lt. apply Z.ltb_lt in Lt as Lt'. rewrite Lt'.
  cbv zeta. proj. rewrite Ln. unfold num_eq.
  assert (E : jslen (inputBuffer s ++ digit_key d) = jslen (inputBuffer s) + 1).
  { unfold jslen. rewrite length_append, digit_key_length. lia. }
  rewrite E.
  destruct (jslen (inputBuffer s) + 1 =? n);
    unfold screen, unlocks, pin_errors, updateDots; proj;
    rewrite paint_length; auto.
Qed.

Lemma stroke_spec ok x s n :
  (forall cb, ok cb = true -> quiet cb = true) ->
  isLocked s = true -> only ok s -> clock_ok s ->
  length (config s) = Num n -> jslen (inputBuffer s) < n ->
  let s' := run (stroke_events x) s in
  isLocked s' = true /\ screen s' = screen s /\ clock_ok s' /\
  inputBuffer s' = (inputBuffer s ++ digit_key (digit_of x))%string /\
  (jslen (inputBuffer s) + 1 < n -> only ok s') /\
  (jslen (inputBuffer s) + 1 = n ->
   exists t0, tcb t0 = CbCheckPin /\ due t0 = time s' + 100 /\
              In t0 (timers s') /\
              forall u, In u (timers s') -> u = t0 \/ ok (tcb u) = true).
Proof.
  intros Hq L O K Ln Lt s'.
  destruct (elapse_quiet ok (pause x) s Hq L O K)
    as [(L1 & Sc1 & B1 & O1 & K1 & N1 & _ & _) _].
  set (s1 := elapse (pause x) s) in *.
  assert (Ln1 : length (config s1) = Num n).
  { unfold screen in Sc1. inversion Sc1. congruence. }
  assert (Es' : s' = handleInput (digit_key (digit_of x)) s1).
  { subst s'. unfold stroke_events, run. simpl fold_left.
    fold s1. rewrite dispatch_press, L1. reflexivity. }
  rewrite <- B1 in *.
  destruct (handleInput_digit_room (digit_of x) s1 n Ln1 Lt)
    as (Sc & B & C).
  rewrite <- Es' in Sc, B, C.
  assert (L' : isLocked s' = true).
  { unfold screen in Sc. inversion Sc. congruence. }
  split; [exact L'|]. split; [congruence|].
  split.
  { unfold clock_ok in *. rewrite C.
    destruct (_ =? n); [apply (table_ok_setTimeout _ _ _)|]; exact K1. }
  split; [exact B|]. split.
  - intros H.
    assert (H' : (jslen (inputBuffer s1) + 1 =? n) = false)
      by (apply Z.eqb_neq; lia).
    rewrite H' in C. unfold only, timers in *. now rewrite C.
  - intros H. apply Z.eqb_eq in H as H'. rewrite H' in C.
    exists {| tid := nextId (clk s1); due := now (clk s1) + 100;
              tcb := CbCheckPin |}.
    unfold timers, time. rewrite C. simpl.
    split; [reflexivity|]. split; [reflexivity|].
    split; [apply in_or_app; right; left; reflexivity|].
    intros u Hu. apply in_app_or in Hu as [Hu|[<-|[]]]; [|now left].
    right. now apply (only_In ok s1).
Qed.

Lemma typing_spec ok l : forall s n,
  (forall cb, ok cb = true -> quiet cb = true) ->
  isLocked s = true -> only ok s -> clock_ok s ->
  length (config s) = Num n ->
  jslen (inputBuffer s) + Z.of_nat (List.length l) = n -> l <> [] ->
  let s' := run (typing l) s in
  screen s' = screen s /\
  inputBuffer s' = (inputBuffer s ++ typed l)%string /\
  exists t0, tcb t0 = CbCheckPin /\ due t0 = time s' + 100 /\
             waiting ok t0 s' s'.
Proof.
  induction l as [|x r IH]; intros s n Hq L O K Ln Hlen Hne; [easy|].
  cbv zeta. change (typing (x :: r)) with (stroke_events x ++ typing r)%list.
  rewrite run_app.
  assert (Lt : jslen (inputBuffer s) < n) by (simpl List.length in Hlen; lia).
  destruct (stroke_spec ok x s n Hq L O K Ln Lt)
    as (L1 & Sc1 & K1 & B1 & Hshort & Hfull).
  set (s1 := run (stroke_events x) s) in *.
  assert (J1 : jslen (inputBuffer s1) = jslen (inputBuffer s) + 1).
  { rewrite B1. unfold jslen. rewrite length_append, digit_key_length. lia. }
  destruct r as [|y r'].
  - simpl typing. simpl run. simpl typed. rewrite append_empty_r.
    split; [exact Sc1|]. split; [exact B1|].
    destruct Hfull as (t0 & C0 & D0 & I0 & A0);
      [simpl List.length in Hlen; lia|].
    exists t0. split; [exact C0|]. split; [exact D0|].
    unfold waiting. intuition lia.
  - assert (Ln1 : length (config s1) = Num n).
    { unfold screen in Sc1. inversion Sc1. congruence. }
    destruct (IH s1 n Hq L1) as (Sc & B & t0 & C0 & D0 & W); auto.
    + apply Hshort. simpl List.length in Hlen. lia.
    + simpl List.length in *. lia.
    + discriminate.
    + split; [congruence|]. split; [|eauto].
      rewrite B, B1, append_assoc. reflexivity.
Qed.

(** *** A special timer among quiet ones *)



Lemma waiting_trans ok t0 s1 s2 s3 :
  waiting ok t0 s1 s2 -> waiting ok t0 s2 s3 -> waiting ok t0 s1 s3.
Proof.
  intros (L & Sc & B & K & I0 & A & Tm & D)
         (L' & Sc' & B' & K' & I0' & A' & Tm' & D').
  unfold waiting. split; [exact L'|]. split; [congruence|].
  split; [congruence|]. split; [exact K'|]. split; [exact I0'|].
  split; [exact A'|]. split; [lia|].
  intros Act. rewrite D', D; auto.
Qed.




(** *** Unlocking *)



Lemma reset_enabled s :
  enabled (config s) = true -> isLocked s = false ->
  resetActivityTimer s =
  let r := set_timeout CbLock (timeout (config s))
             (clear_timeout (timer s) s) in
  set_timer (Some (fst r)) (snd r).
Proof.
  intros En L. unfold resetActivityTimer. rewrite En, L. reflexivity.
Qed.




(** *** With an empty buffer no timer unlocks the screen *)

Lemma trace_stop s : trace (stopActivityMonitoring s) = trace s.
Proof. unfold stopActivityMonitoring. destruct (boundReset s); reflexivity. Qed.

Lemma trace_reset s : trace (resetActivityTimer s) = trace s.
Proof. unfold resetActivityTimer. split_ifs; reflexivity. Qed.

Lemma unlocks_lock s : unlocks (lock s) = unlocks s.
Proof.
  unfold lock. destruct (isLocked s); [reflexivity|].
  unfold unlocks. rewrite trace_stop.
  change (unlocks (observe Locked s) = unlocks s).
  rewrite unlocks_observe. lia.
Qed.

Lemma unlocks_showError s : unlocks (showError s) = unlocks s.
Proof.
  unfold showError. unfold unlocks at 1. proj. unfold unlocks.
  rewrite filter_app, length_app. simpl. lia.
Qed.

Lemma unlocks_activityCallback s : unlocks (activityCallback s) = unlocks s.
Proof.
  unfold activityCallback, unlocks. rewrite trace_reset.
  change (unlocks (observe ActivityReset s) = unlocks s).
  rewrite unlocks_observe. lia.
Qed.




(** *** From the last digit to the check *)


Lemma entered ok s l n :
  (forall cb, ok cb = true -> quiet cb = true) ->
  isLocked s = true -> inputBuffer s = "" -> only ok s -> clock_ok s ->
  length (config s) = Num n -> jslen (typed l) = n -> 0 < n ->
  let s1 := run (typing l) s in
  screen s1 = screen s /\ inputBuffer s1 = typed l /\
  exists t0, tcb t0 = CbCheckPin /\ due t0 = time s1 + 100 /\
             waiting ok t0 s1 s1.
Proof.
  intros Hq L B O K Ln Hl Hn.
  assert (Hlen : Z.of_nat (List.length l) = n).
  { rewrite <- Hl. unfold jslen. now rewrite typed_length. }
  destruct (typing_spec ok l s n Hq L O K Ln) as (Sc & B1 & W).
  - rewrite B. unfold jslen. simpl. lia.
  - intros ->. simpl in Hlen. lia.
  - rewrite B in B1. simpl in B1. auto.
Qed.


(** *** The right PIN *)




(** *** A wrong PIN *)









(** *** The buffer *)


(** *** The throttle of the activity handler *)

Lemma benign_refl s : benign s s.
Proof. unfold benign; auto. Qed.

Lemma benign_trans s1 s2 s3 : benign s1 s2 -> benign s2 s3 -> benign s1 s3.
Proof.
  intros (R1 & T1 & D1 & A1) (R2 & T2 & D2 & A2).
  unfold benign. repeat split; try congruence. auto.
Qed.

Lemma reset_times_observe o s :
  reset_times (observe o s) =
  (reset_times s ++
   match o with ActivityReset => [time s] | _ => [] end)%list.
Proof.
  unfold reset_times, observe; proj. rewrite filter_app, map_app.
  destruct o; simpl; rewrite ?app_nil_r; reflexivity.
Qed.

Ltac benign_tac :=
  unfold benign, reset_times, timers, time; proj; clocks;
  repeat split; auto;
  try (let t := fresh "t" in let H := fresh "H" in let C := fresh "C" in
       intros t H C;
       repeat (apply filter_In in H as [H _]); auto).

Lemma benign_clear i s : benign s (clear_timeout i s).
Proof. benign_tac. Qed.

Lemma benign_set cb d s :
  cb <> CbActivity -> benign s (snd (set_timeout cb d s)).
Proof.
  intros Hne. benign_tac.
  apply in_app_or in H as [H|[<-|[]]]; [exact H|]. simpl in C. congruence.
Qed.

Lemma benign_observe o s : o <> ActivityReset -> benign s (observe o s).
Proof.
  intros Hne. unfold benign. rewrite reset_times_observe.
  destruct o; try congruence; rewrite app_nil_r; repeat split; auto.
Qed.

Lemma benign_updateDots s : benign s (updateDots s).
Proof. unfold updateDots. benign_tac. Qed.

Lemma benign_stop s : benign s (stopActivityMonitoring s).
Proof.
  unfold stopActivityMonitoring.
  eapply benign_trans; [|apply benign_clear].
  eapply benign_trans; [|apply benign_clear].
  destruct (boundReset s); benign_tac.
Qed.

Lemma benign_reset s : benign s (resetActivityTimer s).
Proof.
  unfold resetActivityTimer. split_ifs; [apply benign_refl|].
  eapply benign_trans; [apply (benign_clear (timer s))|].
  eapply benign_trans;
    [apply (benign_set CbLock
              (timeout (config (clear_timeout (timer s) s))));
     discriminate|].
  benign_tac.
Qed.

Lemma benign_start s : benign s (startActivityMonitoring s).
Proof.
  unfold startActivityMonitoring.
  eapply benign_trans; [apply benign_stop|].
  split_ifs; try apply benign_refl;
    (eapply benign_trans; [|apply benign_reset]); benign_tac.
Qed.

Lemma benign_lock s : benign s (lock s).
Proof.
  unfold lock. destruct (isLocked s); [apply benign_refl|].
  eapply benign_trans; [|apply benign_stop].
  eapply benign_trans; [|apply benign_observe; discriminate].
  unfold updateDots. benign_tac.
Qed.

Lemma benign_unlock s : benign s (unlock s).
Proof.
  unfold unlock.
  assert (H : benign s (observe Unlocked
                          (set_lockScreenActive false
                             (set_inputBuffer "" (set_isLocked false s))))).
  { eapply benign_trans; [|apply benign_observe; discriminate]. benign_tac. }
  split_ifs; [|exact H].
  eapply benign_trans; [exact H | apply benign_start].
Qed.

Lemma benign_showError s : benign s (showError s).
Proof.
  unfold showError.
  eapply benign_trans; [|apply (benign_set CbUpdateDots); discriminate].
  eapply benign_trans; [|apply benign_observe; discriminate].
  benign_tac.
Qed.

Lemma benign_checkPin s : benign s (checkPin s).
Proof.
  unfold checkPin. split_ifs; [apply benign_unlock | apply benign_showError].
Qed.

Lemma benign_handleInput key s : benign s (handleInput key s).
Proof.
  unfold handleInput. split_ifs.
  - eapply benign_trans; [|apply benign_updateDots]. benign_tac.
  - apply benign_checkPin.
  - eapply benign_trans; [|apply benign_updateDots].
    eapply benign_trans; [|apply (benign_set CbCheckPin); discriminate].
    benign_tac.
  - eapply benign_trans; [|apply benign_updateDots]. benign_tac.
  - apply benign_updateDots.
Qed.

Lemma benign_updateSettings nc s : benign s (fst (updateSettings nc s)).
Proof.
  unfold updateSettings.
  destruct (generatePinDots _); simpl fst; [|benign_tac].
  split_ifs.
  - eapply benign_trans; [|apply benign_start]. benign_tac.
  - eapply benign_trans; [|apply benign_stop]. benign_tac.
Qed.

Lemma benign_saveSettingsClick f s : benign s (saveSettingsClick f s).
Proof.
  unfold saveSettingsClick.
  destruct (pinLengthChecked f); [|apply benign_refl].
  split_ifs; try (benign_tac; fail).
  - eapply benign_trans; [apply benign_updateSettings|]. benign_tac.
  - apply benign_updateSettings.
Qed.

Lemma benign_resetLockClick s : benign s (resetLockClick s).
Proof.
  unfold resetLockClick. split_ifs.
  - eapply benign_trans; [apply benign_updateSettings|]. benign_tac.
  - apply benign_updateSettings.
Qed.

Lemma throttled_benign s s' : benign s s' -> throttled s -> throttled s'.
Proof.
  intros (R & T & D & A) (Sp & Past & Tr).
  unfold throttled. rewrite R, T, D.
  split; [exact Sp|]. split; [exact Past|].
  intros t Ht Ct. exact (Tr t (A t Ht Ct) Ct).
Qed.

Lemma spaced_snoc w l x :
  spaced w l -> Forall (fun y => y + w <= x) l -> spaced w (l ++ [x]).
Proof.
  induction l as [|a r IH]; intros Sp F; [exact I|].
  inversion F as [|? ? Ha Hr]; subst.
  destruct r as [|b r'].
  - simpl. split; [lia | exact I].
  - destruct Sp as [Hab Sp]. split; [exact Hab|]. apply IH; auto.
Qed.

Lemma throttled_handleActivity s : throttled s -> throttled (handleActivity s).
Proof.
  intros H. unfold handleActivity.
  destruct (debounceTimer s) as [i|] eqn:D; [exact H|].
  destruct H as (Sp & Past & Tr).
  unfold throttled, reset_times, timers, time in *. proj. clocks.
  split; [exact Sp|]. split; [exact Past|].
  intros t Ht Ct. apply in_app_or in Ht as [Ht|[<-|[]]].
  - destruct (Tr t Ht Ct) as [E _]. rewrite D in E. discriminate.
  - split; [reflexivity|]. simpl.
    eapply Forall_impl; [|exact Past]. simpl. intros; lia.
Qed.

Lemma throttled_take t s :
  throttled s -> throttled (set_clk (take t (clk s)) s).
Proof.
  intros (Sp & Past & Tr).
  unfold throttled, reset_times, timers, time in *. proj. clocks.
  split; [exact Sp|]. split.
  - eapply Forall_impl; [|exact Past]. simpl. intros; lia.
  - intros u Hu Cu. apply filter_In in Hu as [Hu _]. auto.
Qed.

Lemma throttled_set_now T s :
  throttled s -> throttled (set_clk (set_now T (clk s)) s).
Proof.
  intros (Sp & Past & Tr).
  unfold throttled, reset_times, timers, time in *. proj. clocks.
  split; [exact Sp|]. split; [|exact Tr].
  eapply Forall_impl; [|exact Past]. simpl. intros; lia.
Qed.

Lemma throttled_fire t s :
  throttled s -> In t (timers s) -> throttled (fire t s).
Proof.
  intros H Hin. unfold fire.
  pose proof (throttled_take t s H) as H1.
  set (s1 := set_clk (take t (clk s)) s) in *.
  destruct (tcb t) eqn:Ct; simpl run_callback.
  - eapply throttled_benign; [apply benign_checkPin | exact H1].
  - eapply throttled_benign; [apply benign_updateDots | exact H1].
  - eapply throttled_benign; [apply benign_lock | exact H1].
  - unfold activityCallback.
    eapply throttled_benign; [apply benign_reset|].
    destruct H as (Sp & Past & Tr).
    destruct (Tr t Hin Ct) as [D F].
    unfold throttled. rewrite reset_times_observe.
    change (reset_times (set_debounceTimer None s1)) with (reset_times s).
    change (time (set_debounceTimer None s1)) with (Z.max (time s) (due t)).
    change (time (observe ActivityReset (set_debounceTimer None s1)))
      with (Z.max (time s) (due t)).
    split.
    { apply spaced_snoc; [exact Sp|].
      eapply Forall_impl; [|exact F]. simpl. intros; lia. }
    split.
    { apply Forall_app. split.
      - eapply Forall_impl; [|exact Past]. simpl. intros; lia.
      - repeat constructor. lia. }
    intros u Hu Cu. exfalso.
    change (In u (pending (take t (clk s)))) in Hu.
    apply In_take in Hu as [Hu Hne].
    destruct (Tr u Hu Cu) as [Du _]. congruence.
Qed.

Lemma throttled_loop T s : throttled s -> throttled (loop T s).
Proof.
  apply loop_inv. intros a t Ha E _.
  apply throttled_fire; [exact Ha | now apply earliest_In].
Qed.

Lemma throttled_dispatch e s : throttled s -> throttled (dispatch e s).
Proof.
  intros H. destruct e; simpl dispatch.
  - unfold onClick. destruct (negb (isLocked s)); [exact H|].
    destruct keypadKey; [|exact H].
    eapply throttled_benign; [apply benign_handleInput | exact H].
  - unfold onKeydown. split_ifs; auto;
      (eapply throttled_benign; [apply benign_handleInput | exact H]).
  - destruct (listening s); [now apply throttled_handleActivity | exact H].
  - eapply throttled_benign; [apply benign_lock | exact H].
  - eapply throttled_benign; [|exact H]. benign_tac.
  - eapply throttled_benign; [|exact H]. benign_tac.
  - eapply throttled_benign; [apply benign_saveSettingsClick | exact H].
  - eapply throttled_benign; [apply benign_resetLockClick | exact H].
  - unfold elapse, advance. apply throttled_set_now, throttled_loop, H.
Qed.

Lemma throttled_run es s : throttled s -> throttled (run es s).
Proof.
  revert s; induction es as [|e es IH]; intros s H; [exact H|].
  simpl. apply IH, throttled_dispatch, H.
Qed.

(** The controller starts with a sound throttle. *)
Lemma throttled_init saved t0 s : init saved t0 = Some s -> throttled s.
Proof.
  unfold init. destruct (generatePinDots _) as [ds|]; [|discriminate].
  intros E. inversion E; subst; clear E.
  assert (H0 : throttled (loadConfig (fresh saved t0))).
  { unfold loadConfig. simpl stored.
    destruct saved; unfold throttled, reset_times, timers; proj; simpl;
      (split; [exact I|]); (split; [constructor|]); contradiction. }
  set (s2 := set_boundReset true (set_dots ds (loadConfig (fresh saved t0)))).
  assert (H2 : throttled s2).
  { eapply throttled_benign; [|exact H0]. benign_tac. }
  eapply throttled_benign with
    (s := if enabled (config s2) then startActivityMonitoring s2 else s2).
  { benign_tac. }
  destruct (enabled (config s2)); [|exact H2].
  eapply throttled_benign; [apply benign_start | exact H2].
Qed.

(** C2, as the code has it.  The resets that the throttle of
    handleActivity performs are at least 1000 ms apart, whatever events
    arrive.  A signal never resets the inactivity timer at once: when the
    listeners are attached and [debounceTimer] holds no id, it schedules the
    reset 1000 ms later; otherwise it is dropped.  The reset happens when
    that timer fires. *)
Theorem activity_throttle
    (s : state) (es : list event) (i : positive) (at_time : Z) :
  throttled s ->
  spaced 1000 (reset_times (run es s)) /\
  reset_times (dispatch Activity s) = reset_times s /\
  timer (dispatch Activity s) = timer s /\
  timers (dispatch Activity s) =
    (if listening s && match debounceTimer s with None => true | _ => false end
     then (timers s ++ [ {| tid := nextId (clk s); due := time s + 1000;
                            tcb := CbActivity |} ])%list
     else timers s) /\
  reset_times (fire {| tid := i; due := at_time; tcb := CbActivity |} s) =
    (reset_times s ++ [Z.max (time s) at_time])%list.
Proof.
  intros H. split; [apply (throttled_run es s H)|].
  assert (A : reset_times (dispatch Activity s) = reset_times s /\
              timer (dispatch Activity s) = timer s /\
              timers (dispatch Activity s) =
              if listening s &&
                 match debounceTimer s with None => true | _ => false end
              then (timers s ++ [ {| tid := nextId (clk s);
                                     due := time s + 1000;
                                     tcb := CbActivity |} ])%list
              else timers s).
  { simpl dispatch. unfold handleActivity.
    destruct (listening s), (debounceTimer s); simpl; auto. }
  destruct A as (A1 & A2 & A3).
  split; [exact A1|]. split; [exact A2|]. split; [exact A3|].
  unfold fire. simpl run_callback. unfold activityCallback.
  destruct (benign_reset
              (observe ActivityReset
                 (set_debounceTimer None
                    (set_clk (take {| tid := i; due := at_time;
                                      tcb := CbActivity |} (clk s)) s))))
    as (R & _).
  rewrite R, reset_times_observe. reflexivity.
Qed.


(** *** What the monitoring methods leave alone *)

Lemma filled_paint i n l :
  List.length (filter filled (paint i n l)) = Nat.min (n - i) (List.length l).
Proof.
  revert i; induction l as [|a l IH]; intros i; simpl; [lia|].
  destruct (Nat.ltb_spec i n); simpl; rewrite IH; lia.
Qed.

Lemma error_paint i n l : existsb error (paint i n l) = false.
Proof.
  revert i; induction l as [|a l IH]; intros i; simpl; [reflexivity|].
  apply IH.
Qed.

Lemma stop_fields s :
  let s' := stopActivityMonitoring s in
  isLocked s' = isLocked s /\ inputBuffer s' = inputBuffer s /\
  config s' = config s /\ stored s' = stored s /\ dots s' = dots s /\
  lockScreenActive s' = lockScreenActive s /\ trace s' = trace s /\
  toasts s' = toasts s /\ boundReset s' = boundReset s /\
  lockBtnShown s' = lockBtnShown s /\ settingsOpen s' = settingsOpen s /\
  time s' = time s /\
  listening s' = (if boundReset s then false else listening s).
Proof.
  unfold stopActivityMonitoring. cbv zeta.
  destruct (boundReset s) eqn:B; unfold time; proj; clocks;
    repeat split; auto.
Qed.

Lemma reset_fields s :
  let s' := resetActivityTimer s in
  isLocked s' = isLocked s /\ inputBuffer s' = inputBuffer s /\
  config s' = config s /\ stored s' = stored s /\ dots s' = dots s /\
  lockScreenActive s' = lockScreenActive s /\ trace s' = trace s /\
  toasts s' = toasts s /\ boundReset s' = boundReset s /\
  lockBtnShown s' = lockBtnShown s /\ settingsOpen s' = settingsOpen s /\
  time s' = time s /\ listening s' = listening s.
Proof.
  unfold resetActivityTimer. cbv zeta.
  destruct (negb (enabled (config s)) || isLocked s); unfold time; proj;
    clocks; repeat split.
Qed.

Lemma start_fields s :
  let s' := startActivityMonitoring s in
  isLocked s' = isLocked s /\ inputBuffer s' = inputBuffer s /\
  config s' = config s /\ stored s' = stored s /\ dots s' = dots s /\
  lockScreenActive s' = lockScreenActive s /\ trace s' = trace s /\
  toasts s' = toasts s /\ boundReset s' = boundReset s /\
  lockBtnShown s' = lockBtnShown s /\ settingsOpen s' = settingsOpen s /\
  time s' = time s.
Proof.
  cbv zeta. unfold startActivityMonitoring.
  destruct (stop_fields s)
    as (A1 & A2 & A3 & A4 & A5 & A6 & A7 & A8 & A9 & A10 & A11 & A12 & _).
  set (s1 := stopActivityMonitoring s) in *.
  destruct (negb (enabled (config s1))); [repeat split; assumption|].
  destruct (reset_fields (if boundReset s1 then set_listening true s1 else s1))
    as (B1 & B2 & B3 & B4 & B5 & B6 & B7 & B8 & B9 & B10 & B11 & B12 & _).
  rewrite B1, B2, B3, B4, B5, B6, B7, B8, B9, B10, B11, B12.
  destruct (boundReset s1) eqn:B; unfold time in *; proj; repeat split;
    congruence.
Qed.

Lemma lock_locked s : isLocked s = true -> lock s = s.
Proof. intros H. unfold lock. now rewrite H. Qed.

Lemma isLocked_lock s : isLocked (lock s) = true.
Proof.
  unfold lock. destruct (isLocked s) eqn:L; [exact L|].
  destruct (stop_fields
              (observe Locked
                 (set_lockScreenActive true
                    (updateDots (set_inputBuffer "" (set_isLocked true s))))))
    as (A & _).
  exact A.
Qed.


(** *** An activity signal on the unlocked screen *)

Lemma taken_fields t a (Ta : Z) :
  time a <= Ta -> due t <= Ta ->
  let a1 := set_clk (take t (clk a)) a in
  isLocked a1 = isLocked a /\ config a1 = config a /\
  listening a1 = listening a /\ timer a1 = timer a /\
  debounceTimer a1 = debounceTimer a /\
  reset_times a1 = reset_times a /\ time a1 <= Ta /\
  (time a = Ta -> time a1 = Ta) /\ (due t = Ta -> time a1 = Ta) /\
  (forall w, In w (timers a1) <-> In w (timers a) /\ tid w <> tid t).
Proof.
  intros H1 H2 a1. subst a1.
  unfold time, timers, reset_times in *. proj. clocks.
  do 9 (split; [reflexivity || lia|]).
  intros w. rewrite filter_In. unfold keeps.
  rewrite negb_true_iff, Pos.eqb_neq. tauto.
Qed.

Lemma other_tid a t u :
  clock_ok a -> In t (timers a) -> In u (timers a) -> tcb t <> tcb u ->
  tid u <> tid t.
Proof.
  intros K Ht Hu Hc E. apply Hc.
  assert (u = t); [|now subst].
  apply (tid_inj (timers a)); auto. apply K.
Qed.

(** Each firing before [T] keeps the signal at work. *)
Lemma postponing_fire c T z ta r a t :
  0 < z -> enabled c = true -> delay_ms (timeout c) = z ->
  tcb ta = CbActivity -> due ta = T ->
  postponing c T z ta r a ->
  earliest (timers a) = Some t -> due t <= T ->
  postponing c T z ta r (fire t a).
Proof.
  intros Hz En Dz Ca Da (L & C & Li & K & Tm & A & Ph) E Hdue.
  pose proof (earliest_In _ _ E) as Hin.
  assert (Kf : clock_ok (fire t a)) by now apply clock_ok_fire.
  revert Kf. unfold fire.
  destruct (taken_fields t a T Tm Hdue)
    as (L1 & C1 & Li1 & Ti1 & D1 & R1 & Tm1 & Tk1 & Tk2 & In1).
  set (a1 := set_clk (take t (clk a)) a) in *.
  assert (B1 : inputBuffer a1 = inputBuffer a) by reflexivity.
  destruct (A t Hin) as [Et | [Cu | [(Cc & Nb & Np) | (_ & _ & Dl)]]];
    [| | |lia].
  - (* the throttle timer of the signal *)
    subst t. rewrite Ca. simpl run_callback. intros Kf.
    destruct Ph as [[_ Rr] | [Out _]]; [|contradiction].
    unfold activityCallback in *.
    set (a2 := observe ActivityReset (set_debounceTimer None a1)) in *.
    assert (F2 : isLocked a2 = false /\ config a2 = c /\
                 listening a2 = true /\ timer a2 = timer a /\
                 debounceTimer a2 = None /\ time a2 = T /\
                 timers a2 = timers a1 /\
                 reset_times a2 = (r ++ [T])%list).
    { subst a2. rewrite reset_times_observe.
      change (reset_times (set_debounceTimer None a1))
        with (reset_times a1).
      change (time (set_debounceTimer None a1)) with (time a1).
      rewrite R1, Rr, (Tk2 Da).
      pose proof (Tk2 Da) as Tk.
      unfold observe, time, timers in *. proj.
      repeat split; congruence. }
    destruct F2 as (L2 & C2 & Li2 & Ti2 & D2 & Tm2 & T2 & R2).
    rewrite reset_enabled in * by congruence.
    cbv zeta in *.
    set (new := {| tid := nextId (clk a2); due := T + z; tcb := CbLock |}).
    set (s3 := set_timer _ _) in *.
    assert (F3 : isLocked s3 = false /\ config s3 = c /\
                 listening s3 = true /\ debounceTimer s3 = None /\
                 time s3 = T /\ reset_times s3 = (r ++ [T])%list /\
                 timer s3 = Some (tid new) /\
                 timers s3 =
                   (filter (keeps (timer a)) (timers a1) ++ [new])%list).
    { subst s3 new. unfold time, timers, reset_times in *. proj. clocks.
      rewrite C2, Dz, Tm2, Ti2, T2.
      repeat split; assumption. }
    destruct F3 as (L3 & C3 & Li3 & D3 & Tm3 & R3 & Ti3 & T3).
    assert (B3 : inputBuffer s3 = inputBuffer a) by reflexivity.
    unfold postponing.
    split; [exact L3|]. split; [exact C3|]. split; [exact Li3|].
    split; [exact Kf|]. split; [lia|].
    assert (Old : forall u, In u (filter (keeps (timer a)) (timers a1)) ->
                    tcb u = CbUpdateDots \/
                    (tcb u = CbCheckPin /\ inputBuffer a <> pin c /\
                     pin c <> "")).
    { intros u Hu. apply filter_In in Hu as [Hu Ku].
      apply In1 in Hu as [Hu Nu].
      destruct (A u Hu) as [-> | [Cu | [Cu | (_ & Eu & _)]]];
        [congruence | now left | now right |].
      rewrite Eu in Ku. simpl in Ku. rewrite Pos.eqb_refl in Ku.
      discriminate. }
    split.
    { intros u Hu. rewrite T3 in Hu. rewrite B3.
      apply in_app_or in Hu as [Hu|[<-|[]]].
      - right. destruct (Old u Hu) as [Cu|Cu]; [now left | right; now left].
      - right. right. right. split; [reflexivity|].
        split; [exact Ti3 | simpl; lia]. }
    right.
    split.
    { intros Hu. rewrite T3 in Hu.
      apply in_app_or in Hu as [Hu|[Hu|[]]].
      - destruct (Old ta Hu) as [Cu|(Cu & _)]; congruence.
      - rewrite <- Hu in Ca. discriminate. }
    split; [exact D3|]. split; [exact Tm3|]. split; [|exact R3].
    exists new. split; [rewrite T3; apply in_or_app; right; now left|].
    split; [reflexivity|]. split; [reflexivity | exact Ti3].
  - (* a repaint of the dots *)
    rewrite Cu. simpl run_callback. intros Kf.
    assert (Ne : t <> ta) by (intros ->; congruence).
    unfold postponing, updateDots, armed, time, timers, reset_times in *.
    proj.
    split; [congruence|]. split; [congruence|]. split; [congruence|].
    split; [exact Kf|]. split; [exact Tm1|].
    split.
    { intros u Hu. apply In1 in Hu as [Hu _].
      rewrite Ti1, B1. now apply A. }
    destruct Ph as [[Ita Rr] | (Out & Dn & Tn & (tl & Il & Cl & Dl & El) & Rr)].
    + left. split; [|congruence].
      apply In1. split; [exact Ita|].
      apply (other_tid a); auto. congruence.
    + right.
      split; [intros Hu; apply In1 in Hu as [Hu _]; contradiction|].
      split; [congruence|]. split; [now apply Tk1|].
      split; [|congruence].
      exists tl. split.
      { apply In1. split; [exact Il|].
        apply (other_tid a); auto. congruence. }
      repeat split; congruence.
  - (* a PIN check left over from the locked screen: it is refused *)
    rewrite Cc. simpl run_callback. intros Kf.
    assert (Ec : checkPin a1 = showError a1).
    { unfold checkPin. rewrite B1, C1, C.
      destruct (String.eqb_spec (inputBuffer a) (pin c)); congruence. }
    rewrite Ec in *.
    set (upd := {| tid := nextId (clk a1); due := time a1 + 500;
                   tcb := CbUpdateDots |}).
    assert (Fe : isLocked (showError a1) = isLocked a /\
                 config (showError a1) = config a /\
                 listening (showError a1) = listening a /\
                 timer (showError a1) = timer a /\
                 debounceTimer (showError a1) = debounceTimer a /\
                 inputBuffer (showError a1) = "" /\
                 time (showError a1) = time a1 /\
                 reset_times (showError a1) = reset_times a /\
                 timers (showError a1) = (timers a1 ++ [upd])%list).
    { rewrite <- L1, <- C1, <- Li1, <- Ti1, <- D1, <- R1.
      unfold showError. cbv zeta.
      set (e1 := set_inputBuffer "" _).
      assert (Re : reset_times (observe PinError e1) = reset_times a1).
      { rewrite reset_times_observe, app_nil_r. reflexivity. }
      subst upd. unfold time, timers in *. proj. clocks.
      repeat split; try reflexivity. exact Re. }
    destruct Fe as (Le & Ce & Lie & Tie & De & Be & Tme & Re & Te).
    unfold postponing.
    split; [congruence|]. split; [congruence|]. split; [congruence|].
    split; [exact Kf|]. split; [rewrite Tme; exact Tm1|].
    split.
    { intros u Hu. rewrite Te in Hu. rewrite Be, Tie.
      apply in_app_or in Hu as [Hu|[<-|[]]]; [|right; now left].
      apply In1 in Hu as [Hu _].
      destruct (A u Hu) as [Eu | [Cu | [(Cu & _ & _) | Cu]]];
        [now left | right; now left | | right; right; now right].
      right. right. left. split; [exact Cu|]. split; [|exact Np].
      intros E0. apply Np. now rewrite <- E0. }
    assert (Keep : forall u, In u (timers a) -> tcb u <> CbCheckPin ->
                     In u (timers (showError a1))).
    { intros u Hu Cu. rewrite Te. apply in_or_app. left.
      apply In1. split; [exact Hu|].
      apply (other_tid a); auto. congruence. }
    destruct Ph as [[Ita Rr] | (Out & Dn & Tn & (tl & Il & Cl & Dl & El) & Rr)].
    + left. split; [|congruence]. apply Keep; [exact Ita | congruence].
    + right.
      split.
      { intros Hu. rewrite Te in Hu.
        apply in_app_or in Hu as [Hu|[Hu|[]]].
        - apply In1 in Hu as [Hu _]. contradiction.
        - rewrite <- Hu in Ca. discriminate. }
      split; [congruence|]. split; [rewrite Tme; now apply Tk1|].
      split; [|congruence].
      exists tl. split; [apply Keep; [exact Il | congruence]|].
      repeat split; congruence.
Qed.

(** On the unlocked screen, with the throttle idle and nothing but
    repaints due within the next second, a signal resets the inactivity
    timer 1000 ms later. *)
Lemma signal_resets s z :
  isLocked s = false -> enabled (config s) = true ->
  delay_ms (timeout (config s)) = z -> 0 < z ->
  listening s = true -> debounceTimer s = None -> clock_ok s ->
  (forall u, In u (timers s) ->
     tcb u = CbUpdateDots \/
     (tcb u = CbCheckPin /\ inputBuffer s <> pin (config s) /\
      pin (config s) <> "") \/
     (tcb u = CbLock /\ timer s = Some (tid u) /\ time s + 1000 < due u)) ->
  let s' := run [Activity; Elapse 1000] s in
  isLocked s' = false /\ config s' = config s /\ listening s' = true /\
  clock_ok s' /\ time s' = time s + 1000 /\ debounceTimer s' = None /\
  armed (time s + 1000 + z) s' /\
  reset_times s' = (reset_times s ++ [time s + 1000])%list /\
  (forall u, In u (timers s') ->
     tcb u = CbUpdateDots \/ tcb u = CbCheckPin \/
     (tcb u = CbLock /\ timer s' = Some (tid u) /\
      due u = time s + 1000 + z)).
Proof.
  intros L En Dz Hz Li D K A s'. subst s'.
  unfold run. simpl fold_left. rewrite Li.
  unfold handleActivity. rewrite D.
  set (ta := {| tid := nextId (clk s); due := time s + 1000;
                tcb := CbActivity |}).
  set (a0 := set_debounceTimer _ _).
  assert (K0 : clock_ok a0).
  { pose proof (clock_ok_handleActivity s K) as H.
    unfold handleActivity in H. rewrite D in H. exact H. }
  assert (F0 : isLocked a0 = false /\ config a0 = config s /\
               listening a0 = true /\ time a0 = time s /\
               timer a0 = timer s /\ reset_times a0 = reset_times s /\
               timers a0 = (timers s ++ [ta])%list).
  { subst a0 ta. unfold time, timers, reset_times. proj. clocks.
    repeat split; assumption. }
  destruct F0 as (L0 & C0 & Li0 & Tm0 & Ti0 & R0 & T0).
  assert (B0 : inputBuffer a0 = inputBuffer s) by reflexivity.
  assert (P0 : postponing (config s) (time s + 1000) z ta
                 (reset_times s) a0).
  { unfold postponing.
    split; [exact L0|]. split; [exact C0|]. split; [exact Li0|].
    split; [exact K0|]. split; [lia|].
    split.
    - intros u Hu. rewrite T0 in Hu.
      apply in_app_or in Hu as [Hu|[<-|[]]]; [|now left].
      right. rewrite Ti0, B0. exact (A u Hu).
    - left. split; [|exact R0].
      rewrite T0. apply in_or_app. right. now left. }
  unfold elapse, advance. rewrite Tm0.
  replace (Z.max 0 1000) with 1000 by lia.
  pose proof (loop_done (time s + 1000) a0) as Done.
  assert (P1 : postponing (config s) (time s + 1000) z ta
                 (reset_times s) (loop (time s + 1000) a0)).
  { apply loop_inv; [|exact P0].
    intros a t Pa E Hdue.
    apply (postponing_fire (config s) (time s + 1000) z ta); auto. }
  set (b := loop (time s + 1000) a0) in *.
  destruct P1 as (L1 & C1 & Li1 & K1 & Tm1 & A1 & Ph).
  destruct Ph as [[Ita _] | (Out & Dn & Tn & Arm & Rr)].
  { specialize (Done ta Ita). simpl in Done. lia. }
  assert (Kb : clock_ok (set_clk (set_now (time s + 1000) (clk b)) b)).
  { unfold clock_ok in *. proj. now apply table_ok_set_now. }
  revert Kb.
  unfold armed, time, timers, reset_times, clock_ok in *. proj. clocks.
  intros Kb.
  split; [exact L1|]. split; [exact C1|]. split; [exact Li1|].
  split; [exact Kb|]. split; [lia|]. split; [exact Dn|].
  split; [exact Arm|]. split; [exact Rr|].
  intros u Hu. destruct (A1 u Hu) as [-> | [Cu | [(Cu & _) | (Cl & El & _)]]];
    [contradiction | now left | right; now left | right; right].
  destruct Arm as (tl & Il & _ & Dl & Etl).
  split; [exact Cl|]. split; [exact El|].
  assert (u = tl); [|now subst].
  apply (tid_inj (pending (clk b))); auto; [apply K1 | congruence].
Qed.

(** *** A signal that the inactivity timer overtakes *)

Lemma stop_timers s :
  let s' := stopActivityMonitoring s in
  timers s' =
    filter (keeps (debounceTimer s)) (filter (keeps (timer s)) (timers s)) /\
  debounceTimer s' = debounceTimer s /\ timer s' = timer s.
Proof.
  unfold stopActivityMonitoring. cbv zeta.
  destruct (boundReset s); unfold timers; proj; clocks; repeat split.
Qed.

(** Of two timers due at the same time the older one goes first: the
    newest timer of the table is not the next to fire while an older one
    is due as soon. *)
Lemma earliest_snoc_old (l : list (jstimer callback)) a t u :
  earliest (l ++ [a]) = Some t -> In u l -> due u <= due a -> In t l.
Proof.
  revert t. induction l as [|x r IH]; intros t E Hu Hd; [destruct Hu|].
  simpl in E.
  destruct (earliest (r ++ [a])) as [v|] eqn:Ev.
  - destruct (due v <? due x) eqn:C; inversion E; subst; clear E;
      [|now left].
    apply Z.ltb_lt in C. right.
    destruct Hu as [->|Hu]; [|exact (IH t eq_refl Hu Hd)].
    apply earliest_In in Ev.
    apply in_app_or in Ev as [Ev|[<-|[]]]; [exact Ev | lia].
  - inversion E; subst. now left.
Qed.

Lemma overtaken_fire c T ta tl r a t :
  tcb ta = CbActivity -> tcb tl = CbLock -> due tl <= due ta ->
  due ta = T ->
  overtaken c T ta tl r a ->
  earliest (timers a) = Some t -> due t <= T ->
  overtaken c T ta tl r (fire t a).
Proof.
  intros Ca Cl Dl Da (C & K & Tm & R & D & Ph) E Hdue.
  pose proof (earliest_In _ _ E) as Hin.
  assert (Kf : clock_ok (fire t a)) by now apply clock_ok_fire.
  revert Kf. unfold fire.
  destruct (taken_fields t a T Tm Hdue)
    as (L1 & C1 & Li1 & Ti1 & D1 & R1 & Tm1 & Tk1 & Tk2 & In1).
  set (a1 := set_clk (take t (clk a)) a) in *.
  destruct Ph as [(L & Ti & l & Tl & Il & Al) | (L & Al)].
  - (* both timers are pending *)
    assert (Hl : In t l).
    { rewrite Tl in E. exact (earliest_snoc_old l ta t tl E Il Dl). }
    assert (Ita : In ta (timers a))
      by (rewrite Tl; apply in_or_app; right; now left).
    assert (Itl : In tl (timers a))
      by (rewrite Tl; apply in_or_app; now left).
    assert (Nta : tid ta <> tid t).
    { apply (other_tid a); auto.
      destruct (Al t Hl) as [->|Cu]; congruence. }
    assert (T1 : timers a1 =
                 (filter (keeps (Some (tid t))) l ++ [ta])%list).
    { subst a1. unfold timers in *. proj. clocks.
      rewrite Tl, filter_app. f_equal.
      simpl. apply Pos.eqb_neq in Nta. now rewrite Nta. }
    destruct (Al t Hl) as [Et|Cu].
    + (* the inactivity timer fires and locks the screen *)
      subst t. rewrite Cl. simpl run_callback. intros Kf.
      unfold lock in *. rewrite L1, L in *. cbv zeta in *.
      set (x := observe Locked _) in *.
      assert (Fx : isLocked x = true /\ config x = config a /\
                   debounceTimer x = debounceTimer a /\
                   timer x = timer a /\ timers x = timers a1 /\
                   time x = time a1 /\ reset_times x = reset_times a).
      { subst x. rewrite reset_times_observe, app_nil_r.
        change (reset_times
                  (set_lockScreenActive true
                     (updateDots
                        (set_inputBuffer "" (set_isLocked true a1)))))
          with (reset_times a1).
        unfold observe, updateDots, timers, time in *. proj.
        repeat split; congruence. }
      destruct Fx as (Lx & Cx & Dx & Tix & Tx & Tmx & Rx).
      destruct (stop_fields x)
        as (S1 & _ & S3 & _ & _ & _ & S7 & _ & _ & _ & _ & S12 & _).
      destruct (stop_timers x) as (St & Sd & _).
      unfold overtaken.
      split; [congruence|]. split; [exact Kf|].
      split; [rewrite S12, Tmx; exact Tm1|].
      split.
      { unfold reset_times in *. rewrite S7. congruence. }
      split; [congruence|].
      right. split; [congruence|].
      intros u Hu. rewrite St, Dx, Tix, D, Ti, Tx, T1 in Hu.
      apply filter_In in Hu as [Hu Ka]. apply filter_In in Hu as [Hu Kl].
      apply in_app_or in Hu as [Hu|[<-|[]]].
      * apply filter_In in Hu as [Hu _].
        destruct (Al u Hu) as [->|Cu]; [|exact Cu].
        simpl in Kl. rewrite Pos.eqb_refl in Kl. discriminate.
      * simpl in Ka. rewrite Pos.eqb_refl in Ka. discriminate.
    + (* a repaint of the dots *)
      rewrite Cu. simpl run_callback. intros Kf.
      assert (Ntl : tid tl <> tid t)
        by (apply (other_tid a); auto; congruence).
      unfold overtaken.
      change (config (updateDots a1)) with (config a1).
      change (time (updateDots a1)) with (time a1).
      change (reset_times (updateDots a1)) with (reset_times a1).
      change (debounceTimer (updateDots a1)) with (debounceTimer a1).
      change (isLocked (updateDots a1)) with (isLocked a1).
      change (timer (updateDots a1)) with (timer a1).
      change (timers (updateDots a1)) with (timers a1).
      split; [congruence|]. split; [exact Kf|]. split; [exact Tm1|].
      split; [congruence|]. split; [congruence|].
      left. split; [congruence|]. split; [congruence|].
      exists (filter (keeps (Some (tid t))) l). split; [exact T1|].
      split.
      * apply filter_In. split; [exact Il|].
        unfold keeps. now apply negb_true_iff, Pos.eqb_neq.
      * intros u Hu. apply filter_In in Hu as [Hu _]. now apply Al.
  - (* the screen is locked already *)
    rewrite (Al t Hin). simpl run_callback. intros Kf.
    unfold overtaken.
    change (config (updateDots a1)) with (config a1).
    change (time (updateDots a1)) with (time a1).
    change (reset_times (updateDots a1)) with (reset_times a1).
    change (debounceTimer (updateDots a1)) with (debounceTimer a1).
    change (isLocked (updateDots a1)) with (isLocked a1).
    change (timers (updateDots a1)) with (timers a1).
    split; [congruence|]. split; [exact Kf|]. split; [exact Tm1|].
    split; [congruence|]. split; [congruence|].
    right. split; [congruence|].
    intros u Hu. apply In1 in Hu as [Hu _]. now apply Al.
Qed.

(** A signal less than 1000 ms before the inactivity timer is due does
    not postpone the lock: the timer fires first, and lock() cancels the
    throttle timer of the signal. *)
Lemma signal_too_late s tl :
  isLocked s = false -> listening s = true -> debounceTimer s = None ->
  clock_ok s ->
  In tl (timers s) -> tcb tl = CbLock -> timer s = Some (tid tl) ->
  due tl <= time s + 1000 ->
  (forall u, In u (timers s) -> u = tl \/ tcb u = CbUpdateDots) ->
  let s' := run [Activity; Elapse 1000] s in
  isLocked s' = true /\ config s' = config s /\
  reset_times s' = reset_times s /\
  debounceTimer s' = Some (nextId (clk s)) /\
  time s' = time s + 1000 /\
  (forall u, In u (timers s') -> tcb u = CbUpdateDots).
Proof.
  intros L Li D K Il Cl Ti Dl A s'. subst s'.
  unfold run. simpl fold_left. rewrite Li.
  unfold handleActivity. rewrite D.
  set (ta := {| tid := nextId (clk s); due := time s + 1000;
                tcb := CbActivity |}).
  set (a0 := set_debounceTimer _ _).
  assert (K0 : clock_ok a0).
  { pose proof (clock_ok_handleActivity s K) as H.
    unfold handleActivity in H. rewrite D in H. exact H. }
  assert (F0 : isLocked a0 = false /\ config a0 = config s /\
               time a0 = time s /\ timer a0 = timer s /\
               reset_times a0 = reset_times s /\
               debounceTimer a0 = Some (tid ta) /\
               timers a0 = (timers s ++ [ta])%list).
  { subst a0 ta. unfold time, timers, reset_times. proj. clocks.
    repeat split; assumption. }
  destruct F0 as (L0 & C0 & Tm0 & Ti0 & R0 & D0 & T0).
  assert (P0 : overtaken (config s) (time s + 1000) ta tl
                 (reset_times s) a0).
  { unfold overtaken.
    split; [exact C0|]. split; [exact K0|]. split; [lia|].
    split; [exact R0|]. split; [exact D0|].
    left. split; [exact L0|]. split; [congruence|].
    exists (timers s). split; [exact T0|]. split; [exact Il | exact A]. }
  unfold elapse, advance. rewrite Tm0.
  replace (Z.max 0 1000) with 1000 by lia.
  pose proof (loop_done (time s + 1000) a0) as Done.
  assert (P1 : overtaken (config s) (time s + 1000) ta tl
                 (reset_times s) (loop (time s + 1000) a0)).
  { apply loop_inv; [|exact P0].
    intros a t Pa E Hdue.
    apply (overtaken_fire (config s) (time s + 1000) ta tl); auto. }
  set (b := loop (time s + 1000) a0) in *.
  destruct P1 as (C1 & K1 & Tm1 & R1 & D1 & Ph).
  destruct Ph as [(_ & _ & l & Tl & Itl & _) | (L1 & A1)].
  { assert (Hb : In tl (timers b))
      by (rewrite Tl; apply in_or_app; now left).
    specialize (Done tl Hb). lia. }
  unfold time, timers, reset_times in *. proj. clocks.
  split; [exact L1|]. split; [exact C1|]. split; [exact R1|].
  split; [exact D1|]. split; [lia | exact A1].
Qed.

(** *** The right PIN on a screen that waits for one *)


(** *** The timer table is well formed in every reachable state *)

Lemma clock_ok_updateSettings nc s :
  clock_ok s -> clock_ok (fst (updateSettings nc s)).
Proof.
  intros K. unfold updateSettings.
  destruct (generatePinDots _); simpl fst; [|exact K].
  split_ifs; [apply clock_ok_start | apply clock_ok_stop]; exact K.
Qed.

Lemma clock_ok_dispatch e s : clock_ok s -> clock_ok (dispatch e s).
Proof.
  intros K. destruct e; simpl dispatch.
  - unfold onClick. destruct (negb (isLocked s)); [exact K|].
    destruct keypadKey; [now apply clock_ok_handleInput | exact K].
  - unfold onKeydown. split_ifs; auto using clock_ok_handleInput.
  - destruct (listening s); [now apply clock_ok_handleActivity | exact K].
  - now apply clock_ok_lock.
  - exact K.
  - exact K.
  - unfold saveSettingsClick. destruct (pinLengthChecked f); [|exact K].
    split_ifs; try exact K; apply (clock_ok_updateSettings _ s K).
  - unfold resetLockClick. split_ifs; apply (clock_ok_updateSettings _ s K).
  - now apply clock_ok_advance.
Qed.

Lemma clock_ok_run es s : clock_ok s -> clock_ok (run es s).
Proof.
  revert s; induction es as [|e es IH]; intros s K; [exact K|].
  simpl. apply IH, clock_ok_dispatch, K.
Qed.

Lemma clock_ok_init saved t0 s : init saved t0 = Some s -> clock_ok s.
Proof.
  unfold init. destruct (generatePinDots _) as [ds|]; [|discriminate].
  intros E. inversion E; subst; clear E.
  set (s2 := set_boundReset true (set_dots ds (loadConfig (fresh saved t0)))).
  assert (K2 : clock_ok s2).
  { unfold clock_ok, s2, loadConfig. simpl stored.
    destruct saved; split; simpl; constructor. }
  change (clock_ok (if enabled (config s2)
                    then startActivityMonitoring s2 else s2)).
  destruct (enabled (config s2)); [now apply clock_ok_start | exact K2].
Qed.

(** *** The settings dialog *)

(** C4, as the code has it.  With the lock enabled, a form whose PIN
    differs from its confirmation, or whose PIN has not the chosen length,
    is refused with an error toast before anything is stored: the
    configuration, the localStorage slot, the timers and the dialog stay as
    they were. *)
Theorem settings_rejected (f : form) (s : state) (radio : string) :
  settingLockEnabled f = true -> pinLengthChecked f = Some radio ->
  settingPin f <> settingPinConfirm f \/
  num_eq (Num (jslen (settingPin f))) (parseInt radio) = false ->
  let s' := saveSettingsClick f s in
  s' = toast (if (settingPin f =? settingPinConfirm f)%string
              then PinWrongLength (parseInt radio) else PinsDoNotMatch) s /\
  config s' = config s /\ stored s' = stored s /\ timers s' = timers s /\
  timer s' = timer s /\ isLocked s' = isLocked s /\
  settingsOpen s' = settingsOpen s.
Proof.
  intros En Hr Bad s'.
  assert (E : s' = toast (if (settingPin f =? settingPinConfirm f)%string
                          then PinWrongLength (parseInt radio)
                          else PinsDoNotMatch) s).
  { subst s'. unfold saveSettingsClick. rewrite Hr. cbv zeta.
    rewrite En. simpl andb.
    destruct (String.eqb_spec (settingPin f) (settingPinConfirm f)) as [Eq|Ne];
      simpl negb; cbv iota; [|reflexivity].
    destruct Bad as [Bad|Bad]; [contradiction|].
    unfold num_eq in Bad. rewrite Bad. reflexivity. }
  rewrite E. repeat split.
Qed.

Lemma settings_rejected_witness :
  settingLockEnabled short_pin_form = true /\
  pinLengthChecked short_pin_form = Some "4" /\
  stored (saveSettingsClick short_pin_form sample_start)
  = stored sample_start.
Proof.
  split; [reflexivity|]. split; [reflexivity|].
  apply (settings_rejected short_pin_form sample_start "4");
    [reflexivity | reflexivity | right; reflexivity].
Defined.

(** C4 fails as stated: a timeout of zero or below, and a PIN that is not
    numeric, pass the dialog.  The configuration is stored and becomes the
    active one; with a timeout of 0 the inactivity timer is armed with no
    delay and locks the screen at once. *)
Lemma malformed_settings_accepted :
  (let s' := saveSettingsClick zero_timeout_form sample_start in
   stored s' = Some {| enabled := true; pin := "1234"; length := Num 4;
                       timeout := Num 0 |} /\
   config s' = {| enabled := true; pin := "1234"; length := Num 4;
                  timeout := Num 0 |} /\
   timers s' = [ {| tid := 2%positive; due := 0; tcb := CbLock |} ] /\
   timer s' = Some 2%positive /\
   isLocked (elapse 0 s') = true) /\
  (let s' := saveSettingsClick negative_timeout_form sample_start in
   stored s' = Some {| enabled := true; pin := "1234"; length := Num 4;
                       timeout := Num (-300000) |} /\
   timers s' = [ {| tid := 2%positive; due := 0; tcb := CbLock |} ]) /\
  (let s' := saveSettingsClick letters_form sample_start in
   stored s' = Some {| enabled := true; pin := "abcd"; length := Num 4;
                       timeout := Num 300000 |} /\
   config s' = {| enabled := true; pin := "abcd"; length := Num 4;
                  timeout := Num 300000 |}).
Proof. vm_compute. repeat split. Qed.

(** *** Witnesses and counterexamples on the sample states *)


Lemma sample_start_throttled : throttled sample_start.
Proof. apply (throttled_init (Some sample_config) 0). reflexivity. Qed.








Lemma activity_throttle_witness :
  spaced 1000
    (reset_times
       (run [Activity; Elapse 400; Activity; Elapse 700; Activity;
             Elapse 1000; Activity; Activity; Elapse 5000]
          sample_start)).
Proof.
  exact (proj1 (activity_throttle sample_start
                  [Activity; Elapse 400; Activity; Elapse 700; Activity;
                   Elapse 1000; Activity; Activity; Elapse 5000]
                  1%positive 0 sample_start_throttled)).
Defined.

(** C2 fails as stated: the first signal, with no throttle timer pending,
    does not reset the inactivity timer at once.  Five seconds after the
    start the timer is due at 300000 ms; a signal leaves it there and only
    schedules the throttle timer; the reset comes 1000 ms later, when the
    inactivity timer moves to 306000 ms. *)
Lemma first_signal_resets_late :
  let s := run [Elapse 5000] sample_start in
  listening s = true /\ debounceTimer s = None /\
  timers s = [ {| tid := 1%positive; due := 300000; tcb := CbLock |} ] /\
  reset_times (dispatch Activity s) = [] /\
  timers (dispatch Activity s) =
    [ {| tid := 1%positive; due := 300000; tcb := CbLock |};
      {| tid := 2%positive; due := 6000; tcb := CbActivity |} ] /\
  reset_times (run [Activity; Elapse 999] s) = [] /\
  reset_times (run [Activity; Elapse 1000] s) = [6000] /\
  timers (run [Activity; Elapse 1000] s) =
    [ {| tid := 3%positive; due := 306000; tcb := CbLock |} ].
Proof. vm_compute. repeat split. Qed.


(** *** Locking by hand *)

(** X1.  lock() is idempotent, and the lock button never unlocks: on a
    locked screen lock(), toggleLock() and the button change nothing.  From
    an unlocked screen lock() empties the buffer, shows the lock screen with
    no dot filled and records one lock. *)
Theorem lock_idempotent (s : state) :
  lock (lock s) = lock s /\ toggleLock (lock s) = lock s /\
  dispatch LockBtn (lock s) = lock s /\ toggleLock s = lock s /\
  isLocked (lock s) = true /\
  (if isLocked s then lock s = s
   else inputBuffer (lock s) = "" /\ lockScreenActive (lock s) = true /\
        filled_count (lock s) = 0%nat /\
        trace (lock s) = (trace s ++ [(time s, Locked)])%list).
Proof.
  pose proof (isLocked_lock s) as L.
  split; [now apply lock_locked|].
  split; [unfold toggleLock; now rewrite L|].
  split; [now apply lock_locked|].
  split.
  { unfold toggleLock. destruct (isLocked s) eqn:E; [|reflexivity].
    symmetry. now apply lock_locked. }
  split; [exact L|].
  destruct (isLocked s) eqn:E; [now apply lock_locked|].
  unfold lock. rewrite E.
  destruct (stop_fields
              (observe Locked
                 (set_lockScreenActive true
                    (updateDots (set_inputBuffer "" (set_isLocked true s))))))
    as (_ & A2 & _ & _ & A5 & A6 & A7 & _).
  unfold filled_count. rewrite A2, A5, A6, A7.
  split; [reflexivity|]. split; [reflexivity|]. split; [|reflexivity].
  unfold updateDots. proj. now rewrite filled_paint.
Qed.

(** *** The inactivity timer is the only one of its kind *)

Lemma calm_refl s : calm s s.
Proof. unfold calm; auto. Qed.

Lemma calm_trans s1 s2 s3 : calm s1 s2 -> calm s2 s3 -> calm s1 s3.
Proof.
  intros (T1 & L1 & A1) (T2 & L2 & A2).
  unfold calm. repeat split; try congruence. auto.
Qed.

Ltac calm_tac :=
  unfold calm, timers; proj; clocks;
  repeat split; auto;
  try (let t := fresh "t" in let H := fresh "H" in let C := fresh "C" in
       intros t H C;
       repeat (apply filter_In in H as [H _]); auto).

Lemma calm_set cb d s : cb <> CbLock -> calm s (snd (set_timeout cb d s)).
Proof.
  intros Hne. calm_tac.
  apply in_app_or in H as [H|[<-|[]]]; [exact H|]. simpl in C. congruence.
Qed.

Lemma calm_updateDots s : calm s (updateDots s).
Proof. unfold updateDots. calm_tac. Qed.

Lemma calm_showError s : calm s (showError s).
Proof.
  unfold showError.
  eapply calm_trans; [|apply (calm_set CbUpdateDots); discriminate].
  calm_tac.
Qed.

Lemma calm_handleActivity s : calm s (handleActivity s).
Proof.
  unfold handleActivity. destruct (debounceTimer s); [apply calm_refl|].
  eapply calm_trans; [apply (calm_set CbActivity (Num 1000)); discriminate|].
  calm_tac.
Qed.

Lemma calm_take t s : calm s (set_clk (take t (clk s)) s).
Proof. calm_tac. Qed.

Lemma tracked_calm s s' : calm s s' -> lock_tracked s -> lock_tracked s'.
Proof.
  intros (T & L & A) H t Ht Ct. rewrite T, L. apply H; auto.
Qed.

Lemma stop_no_lock s :
  (forall t, In t (timers s) -> tcb t = CbLock -> timer s = Some (tid t)) ->
  forall t, In t (timers (stopActivityMonitoring s)) -> tcb t <> CbLock.
Proof.
  intros A t Ht Ct. unfold stopActivityMonitoring in Ht.
  assert (H : In t (filter (keeps (timer s)) (pending (clk s)))).
  { destruct (boundReset s); unfold timers in Ht; proj; clocks;
      apply filter_In in Ht as [Ht _]; exact Ht. }
  apply filter_In in H as [H K].
  rewrite (A t H Ct), keeps_self in K. discriminate.
Qed.

Lemma tracked_no_lock s :
  (forall t, In t (timers s) -> tcb t <> CbLock) -> lock_tracked s.
Proof. intros N t Ht Ct. destruct (N t Ht Ct). Qed.

Lemma tracked_stop s : lock_tracked s -> lock_tracked (stopActivityMonitoring s).
Proof.
  intros H. apply tracked_no_lock, stop_no_lock.
  intros t Ht Ct. apply (H t Ht Ct).
Qed.

Lemma tracked_reset s : lock_tracked s -> lock_tracked (resetActivityTimer s).
Proof.
  intros H. unfold resetActivityTimer.
  destruct (negb (enabled (config s)) || isLocked s) eqn:G; [exact H|].
  apply orb_false_elim in G as [_ L].
  intros t Ht Ct. unfold timers in *. proj. clocks.
  apply in_app_or in Ht as [Ht|[<-|[]]].
  - apply filter_In in Ht as [Ht K]. destruct (H t Ht Ct) as [E _].
    rewrite E, keeps_self in K. discriminate.
  - simpl. auto.
Qed.

Lemma tracked_start s :
  (forall t, In t (timers s) -> tcb t = CbLock -> timer s = Some (tid t)) ->
  lock_tracked (startActivityMonitoring s).
Proof.
  intros A. unfold startActivityMonitoring.
  pose proof (stop_no_lock s A) as N.
  set (s1 := stopActivityMonitoring s) in *.
  destruct (negb (enabled (config s1))); [now apply tracked_no_lock|].
  apply tracked_reset, tracked_no_lock.
  destruct (boundReset s1); exact N.
Qed.

Lemma tracked_lock s : lock_tracked s -> lock_tracked (lock s).
Proof.
  intros H. unfold lock. destruct (isLocked s); [exact H|].
  apply tracked_no_lock, stop_no_lock.
  intros t Ht Ct. exact (proj1 (H t Ht Ct)).
Qed.

Lemma tracked_unlock s : lock_tracked s -> lock_tracked (unlock s).
Proof.
  intros H. unfold unlock. cbv zeta.
  set (s2 := observe Unlocked
               (set_lockScreenActive false
                  (set_inputBuffer "" (set_isLocked false s)))).
  assert (A : forall t, In t (timers s2) -> tcb t = CbLock ->
                        timer s2 = Some (tid t))
    by (intros t Ht Ct; exact (proj1 (H t Ht Ct))).
  destruct (enabled (config s2)); [now apply tracked_start|].
  intros t Ht Ct. split; [exact (A t Ht Ct) | reflexivity].
Qed.

Lemma tracked_checkPin s : lock_tracked s -> lock_tracked (checkPin s).
Proof.
  intros H. unfold checkPin.
  destruct (inputBuffer s =? pin (config s))%string.
  - now apply tracked_unlock.
  - eapply tracked_calm; [apply calm_showError | exact H].
Qed.

Lemma calm_typed key s :
  calm s (updateDots
            (let s1 := set_inputBuffer (inputBuffer s ++ key) s in
             if num_eq (Num (jslen (inputBuffer s1))) (length (config s1))
             then snd (set_timeout CbCheckPin (Num 100) s1) else s1)).
Proof.
  cbv zeta. eapply calm_trans; [|apply calm_updateDots].
  destruct (num_eq _ _).
  - eapply calm_trans; [|apply (calm_set CbCheckPin); discriminate].
    calm_tac.
  - calm_tac.
Qed.

Lemma tracked_handleInput key s :
  lock_tracked s -> lock_tracked (handleInput key s).
Proof.
  intros H. unfold handleInput.
  destruct (key =? "backspace")%string.
  { eapply tracked_calm; [|exact H].
    eapply calm_trans; [|apply calm_updateDots]. calm_tac. }
  destruct (key =? "enter")%string; [now apply tracked_checkPin|].
  destruct (num_lt _ _).
  - eapply tracked_calm; [apply calm_typed | exact H].
  - eapply tracked_calm; [apply calm_updateDots | exact H].
Qed.

Lemma tracked_activityCallback s :
  lock_tracked s -> lock_tracked (activityCallback s).
Proof.
  intros H. unfold activityCallback. apply tracked_reset.
  eapply tracked_calm; [|exact H]. calm_tac.
Qed.

Lemma tracked_fire t s : lock_tracked s -> lock_tracked (fire t s).
Proof.
  intros H. unfold fire.
  pose proof (tracked_calm _ _ (calm_take t s) H) as H1.
  destruct (tcb t); simpl run_callback.
  - now apply tracked_checkPin.
  - eapply tracked_calm; [apply calm_updateDots | exact H1].
  - now apply tracked_lock.
  - now apply tracked_activityCallback.
Qed.

Lemma tracked_loop T s : lock_tracked s -> lock_tracked (loop T s).
Proof. apply loop_inv. intros a t Ha _ _. now apply tracked_fire. Qed.

Lemma tracked_updateSettings nc s :
  lock_tracked s -> lock_tracked (fst (updateSettings nc s)).
Proof.
  intros H. unfold updateSettings.
  set (s1 := saveConfig (set_config (merge (config s) nc) s)).
  assert (H1 : lock_tracked s1) by exact H.
  destruct (generatePinDots s1) as [ds|]; cbn [fst]; [|exact H1].
  destruct (enabled (config (set_dots ds s1))).
  - apply tracked_start. intros t Ht Ct. exact (proj1 (H t Ht Ct)).
  - apply tracked_no_lock, stop_no_lock.
    intros t Ht Ct. exact (proj1 (H t Ht Ct)).
Qed.

Lemma tracked_dispatch e s : lock_tracked s -> lock_tracked (dispatch e s).
Proof.
  intros H. destruct e; simpl dispatch.
  - unfold onClick. destruct (negb (isLocked s)); [exact H|].
    destruct keypadKey; [now apply tracked_handleInput | exact H].
  - unfold onKeydown. split_ifs; auto using tracked_handleInput.
  - destruct (listening s); [|exact H].
    eapply tracked_calm; [apply calm_handleActivity | exact H].
  - now apply tracked_lock.
  - exact H.
  - exact H.
  - unfold saveSettingsClick. destruct (pinLengthChecked f); [|exact H].
    split_ifs; try exact H; apply (tracked_updateSettings _ s H).
  - unfold resetLockClick. split_ifs; apply (tracked_updateSettings _ s H).
  - unfold elapse, advance.
    apply (tracked_loop (time s + Z.max 0 dt)) in H. exact H.
Qed.

Lemma tracked_run es s : lock_tracked s -> lock_tracked (run es s).
Proof.
  revert s; induction es as [|e es IH]; intros s H; [exact H|].
  simpl. apply IH, tracked_dispatch, H.
Qed.

Lemma tracked_init saved t0 s : init saved t0 = Some s -> lock_tracked s.
Proof.
  unfold init. destruct (generatePinDots _) as [ds|]; [|discriminate].
  intros E. inversion E; subst; clear E.
  set (s2 := set_boundReset true (set_dots ds (loadConfig (fresh saved t0)))).
  assert (N : forall t, In t (timers s2) -> tcb t <> CbLock).
  { unfold s2, loadConfig. simpl stored. destruct saved; intros t []. }
  change (lock_tracked (if enabled (config s2)
                        then startActivityMonitoring s2 else s2)).
  destruct (enabled (config s2)); [|now apply tracked_no_lock].
  apply tracked_start. intros t Ht Ct. destruct (N t Ht Ct).
Qed.

Lemma is_lock_true cb : is_lock cb = true -> cb = CbLock.
Proof. destruct cb; simpl; auto; discriminate. Qed.

Lemma one_tracked (i : positive) (l : list (jstimer callback)) :
  NoDup (map tid l) ->
  (forall t, In t l -> tcb t = CbLock -> tid t = i) ->
  (List.length (filter (fun t => is_lock (tcb t)) l) <= 1)%nat.
Proof.
  induction l as [|a l IH]; intros Nd H; simpl; [lia|].
  inversion Nd as [|x xs Hnot Hnd]; subst.
  destruct (is_lock (tcb a)) eqn:La;
    [|apply IH; [assumption | intros t Ht; apply H; now right]].
  apply is_lock_true in La.
  assert (E : filter (fun t => is_lock (tcb t)) l = []).
  { destruct (filter (fun t => is_lock (tcb t)) l) as [|u r] eqn:F;
      [reflexivity|]. exfalso.
    assert (Hu : In u (filter (fun t => is_lock (tcb t)) l))
      by (rewrite F; now left).
    apply filter_In in Hu as [Hu Lu]. apply is_lock_true in Lu.
    apply Hnot.
    rewrite (H a (or_introl eq_refl) La), <- (H u (or_intror Hu) Lu).
    now apply in_map. }
  rewrite E. simpl. lia.
Qed.

(** X2.  However the controller is driven after init, at most one
    inactivity timer is pending; it is the one whose id [this.timer] holds,
    and none is pending while the screen is locked. *)
Theorem one_inactivity_timer
    (saved : option lockConfig) (t0 : Z) (s0 : state) (es : list event) :
  init saved t0 = Some s0 ->
  let s := run es s0 in
  (List.length (lock_timers s) <= 1)%nat /\
  (forall t, In t (lock_timers s) -> timer s = Some (tid t)) /\
  (isLocked s = true -> lock_timers s = []).
Proof.
  intros E s.
  assert (H : lock_tracked s) by (apply tracked_run, (tracked_init _ _ _ E)).
  assert (K : clock_ok s) by (apply clock_ok_run, (clock_ok_init _ _ _ E)).
  assert (A : forall t, In t (lock_timers s) ->
                        timer s = Some (tid t) /\ isLocked s = false).
  { intros t Ht. apply filter_In in Ht as [Ht Lt].
    apply is_lock_true in Lt. now apply H. }
  split; [|split].
  - destruct (timer s) as [i|] eqn:Ti.
    + apply (one_tracked i); [apply K|].
      intros t Ht Ct. destruct (H t Ht Ct) as [Et _]. congruence.
    + apply (one_tracked 1%positive); [apply K|].
      intros t Ht Ct. destruct (H t Ht Ct) as [Et _]. congruence.
  - intros t Ht. apply (A t Ht).
  - intros L. destruct (lock_timers s) as [|u r]; [reflexivity|].
    destruct (A u (or_introl eq_refl)) as [_ L']. congruence.
Qed.

Lemma one_inactivity_timer_witness :
  (List.length
     (lock_timers
        (run [Activity; Elapse 1000; Activity; LockBtn] sample_start))
   <= 1)%nat.
Proof.
  exact (proj1 (one_inactivity_timer (Some sample_config) 0 sample_start
                  [Activity; Elapse 1000; Activity; LockBtn] eq_refl)).
Defined.

(** *** A throttle that never fires again *)

Lemma stuck_benign i s s' :
  benign s s' -> stuck i s ->
  stuck i s' /\ reset_times s' = reset_times s.
Proof.
  intros (R & _ & D & A) [E N]. split; [|exact R].
  split; [congruence|]. intros t Ht Ct. exact (N t (A t Ht Ct) Ct).
Qed.

Lemma stuck_fire i t s :
  stuck i s -> In t (timers s) ->
  stuck i (fire t s) /\ reset_times (fire t s) = reset_times s.
Proof.
  intros [E N] Hin. unfold fire.
  set (s1 := set_clk (take t (clk s)) s).
  assert (S1 : stuck i s1).
  { split; [exact E|]. intros u Hu. apply In_take in Hu as [Hu _]. auto. }
  change (reset_times s) with (reset_times s1).
  pose proof (N t Hin) as Ct.
  destruct (tcb t); simpl run_callback.
  - apply stuck_benign; [apply benign_checkPin | exact S1].
  - apply stuck_benign; [apply benign_updateDots | exact S1].
  - apply stuck_benign; [apply benign_lock | exact S1].
  - congruence.
Qed.

Lemma stuck_loop i T s :
  stuck i s ->
  stuck i (loop T s) /\ reset_times (loop T s) = reset_times s.
Proof.
  intros H.
  apply (loop_inv T (fun a => stuck i a /\ reset_times a = reset_times s));
    [|auto].
  intros a t [Sa Ra] E _.
  destruct (stuck_fire i t a Sa (earliest_In _ _ E)) as [S' R'].
  split; [exact S' | congruence].
Qed.

Lemma stuck_dispatch i e s :
  stuck i s ->
  stuck i (dispatch e s) /\ reset_times (dispatch e s) = reset_times s.
Proof.
  intros H. destruct e; simpl dispatch.
  - unfold onClick. destruct (negb (isLocked s)); [auto|].
    destruct keypadKey; [|auto].
    apply stuck_benign; [apply benign_handleInput | exact H].
  - unfold onKeydown. split_ifs; auto;
      (apply stuck_benign; [apply benign_handleInput | exact H]).
  - destruct (listening s); [|auto].
    unfold handleActivity. destruct H as [E N]. rewrite E. split; [split|]; auto.
  - apply stuck_benign; [apply benign_lock | exact H].
  - apply stuck_benign; [|exact H]. benign_tac.
  - apply stuck_benign; [|exact H]. benign_tac.
  - apply stuck_benign; [apply benign_saveSettingsClick | exact H].
  - apply stuck_benign; [apply benign_resetLockClick | exact H].
  - unfold elapse, advance.
    destruct (stuck_loop i (time s + Z.max 0 dt) s H) as [[E N] R].
    split; [split|]; auto.
Qed.

Lemma stuck_run i es : forall s,
  stuck i s -> stuck i (run es s) /\ reset_times (run es s) = reset_times s.
Proof.
  induction es as [|e es IH]; intros s H; [auto|].
  simpl. destruct (stuck_dispatch i e s H) as [H1 R1].
  destruct (IH _ H1) as [H2 R2]. split; [exact H2 | congruence].
Qed.

Lemma stuck_stop i s :
  throttled s -> debounceTimer s = Some i ->
  stuck i (stopActivityMonitoring s).
Proof.
  intros (_ & _ & Tr) E. split.
  - unfold stopActivityMonitoring. destruct (boundReset s); exact E.
  - intros t Ht Ct.
    assert (H : In t (filter (keeps (debounceTimer s))
                        (filter (keeps (timer s)) (pending (clk s))))).
    { unfold stopActivityMonitoring in Ht.
      destruct (boundReset s); exact Ht. }
    apply filter_In in H as [H K]. apply filter_In in H as [H _].
    destruct (Tr t H Ct) as [D _]. rewrite D, keeps_self in K.
    discriminate.
Qed.

(** X3.  stopActivityMonitoring cancels the throttle timer but leaves
    its id in [debounceTimer].  When the screen is locked while a throttle
    timer is pending, the field keeps that id for good: whatever happens
    afterwards, unlocking included, handleActivity drops every signal, no
    throttle timer is ever pending and the throttle never resets the
    inactivity timer again. *)
Theorem throttle_stuck_after_lock (s : state) (i : positive)
    (es : list event) :
  throttled s -> isLocked s = false -> debounceTimer s = Some i ->
  let s' := run es (lock s) in
  debounceTimer s' = Some i /\ reset_times s' = reset_times s /\
  (forall t, In t (timers s') -> tcb t <> CbActivity) /\
  handleActivity s' = s'.
Proof.
  intros Th L D s'.
  assert (S0 : stuck i (lock s)).
  { unfold lock. rewrite L.
    apply stuck_stop; [|exact D].
    eapply throttled_benign; [|exact Th].
    eapply benign_trans; [|apply benign_observe; discriminate].
    unfold updateDots. benign_tac. }
  destruct (stuck_run i es (lock s) S0) as [[E N] R].
  fold s' in E, N, R.
  destruct (benign_lock s) as (R0 & _).
  split; [exact E|]. split; [congruence|]. split; [exact N|].
  unfold handleActivity. now rewrite E.
Qed.

Lemma sample_moved_throttled : throttled sample_moved.
Proof. apply throttled_run, sample_start_throttled. Qed.

Lemma throttle_stuck_after_lock_witness :
  let s' := run [Click (Some "1"); Click (Some "2"); Click (Some "3");
                 Click (Some "4"); Elapse 100; Activity; Elapse 5000;
                 Activity]
              (lock sample_moved) in
  isLocked s' = false /\ listening s' = true /\
  debounceTimer s' = Some 2%positive /\ reset_times s' = [].
Proof.
  cbv zeta. split; [vm_compute; reflexivity|].
  split; [vm_compute; reflexivity|].
  destruct (throttle_stuck_after_lock sample_moved 2%positive
              [Click (Some "1"); Click (Some "2"); Click (Some "3");
               Click (Some "4"); Elapse 100; Activity; Elapse 5000;
               Activity]
              sample_moved_throttled eq_refl eq_refl) as (E & R & _).
  split; [exact E | exact R].
Defined.

(** *** init, and the lock after a time of inactivity *)

(** The controller after init, with the lock enabled. *)
Lemma init_enabled c t0 s :
  init (Some c) t0 = Some s -> enabled c = true ->
  exists ds,
    s = {| isLocked := false; boundReset := true; debounceTimer := None;
           inputBuffer := ""; timer := Some 1%positive; config := c;
           listening := true; dots := ds; lockScreenActive := false;
           lockBtnShown := true; settingsOpen := false; toasts := [];
           stored := Some c;
           clk := {| now := t0; nextId := 2%positive;
                     pending := [ {| tid := 1%positive;
                                     due := t0 + delay_ms (timeout c);
                                     tcb := CbLock |} ] |};
           trace := [] |}.
Proof.
  unfold init. destruct (generatePinDots _) as [ds|]; [|discriminate].
  intros E En. inversion E; subst; clear E. exists ds.
  unfold loadConfig. simpl stored. cbv iota.
  unfold startActivityMonitoring, stopActivityMonitoring, resetActivityTimer.
  simpl. rewrite En. simpl. rewrite En. reflexivity.
Qed.

(** X4.  With the lock enabled and no input at all, the screen locks
    itself one timeout after init, not before, and only once; the timer
    table is empty then and the activity listeners are detached.  The
    timeout is the delay [setTimeout] reads from [config.timeout]: the
    number taken as a signed 32-bit integer, and zero when that is
    negative or the number is NaN.  A timeout of 35792 minutes, which is
    2147520000 ms, locks the screen at once. *)
Theorem inactivity_locks (c : lockConfig) (t0 d : Z) (s : state) :
  init (Some c) t0 = Some s -> enabled c = true -> 0 <= d ->
  let w := delay_ms (timeout c) in
  let s' := elapse d s in
  isLocked s' = (w <=? d) /\
  trace s' = (if w <=? d then [(t0 + w, Locked)] else []) /\
  time s' = t0 + d /\
  (if w <=? d then timers s' = [] /\ listening s' = false
   else armed (t0 + w) s' /\ listening s' = true).
Proof.
  intros E En Hd w s'.
  destruct (init_enabled c t0 s E En) as (ds & Es).
  assert (Hw : 0 <= w) by (subst w; destruct (timeout c); simpl; lia).
  assert (Tm : time s = t0) by (rewrite Es; reflexivity).
  subst s'. unfold elapse, advance. rewrite Tm.
  replace (Z.max 0 d) with d by lia.
  rewrite loop_eq, Es. simpl timers. simpl earliest. cbn [due]. fold w.
  replace (t0 + w <=? t0 + d) with (w <=? d)
    by (destruct (Z.leb_spec w d), (Z.leb_spec (t0 + w) (t0 + d)); lia).
  destruct (Z.leb_spec w d) as [Le|Gt].
  - rewrite loop_idle.
    + unfold fire, lock, stopActivityMonitoring, time, timers. simpl.
      unfold time. simpl.
      replace (Z.max (Z.max t0 (t0 + w)) (t0 + d)) with (t0 + d) by lia.
      replace (Z.max t0 (t0 + w)) with (t0 + w) by lia.
      repeat split.
    + unfold fire, lock, stopActivityMonitoring, timers. simpl.
      intros u [].
  - unfold time, timers, armed. simpl.
    replace (Z.max t0 (t0 + d)) with (t0 + d) by lia.
    split; [reflexivity|]. split; [reflexivity|]. split; [reflexivity|].
    split; [|reflexivity].
    eexists. split; [left; reflexivity|]. simpl. auto.
Qed.

Lemma inactivity_locks_witness :
  isLocked (elapse 299999 sample_start) = false /\
  isLocked (elapse 300000 sample_start) = true /\
  isLocked (elapse 0 sample_overflow) = true.
Proof.
  split; [|split].
  - exact (proj1 (inactivity_locks sample_config 0 299999 sample_start
                    eq_refl eq_refl ltac:(lia))).
  - exact (proj1 (inactivity_locks sample_config 0 300000 sample_start
                    eq_refl eq_refl ltac:(lia))).
  - exact (proj1 (inactivity_locks overflow_config 0 0 sample_overflow
                    eq_refl eq_refl ltac:(lia))).
Defined.

(** *** What updateSettings leaves alone *)

Lemma updateSettings_frame (nc : settings) (s : state) :
  let s' := fst (updateSettings nc s) in
  isLocked s' = isLocked s /\ lockScreenActive s' = lockScreenActive s /\
  inputBuffer s' = inputBuffer s /\ trace s' = trace s /\
  config s' = merge (config s) nc /\
  stored s' = Some (merge (config s) nc).
Proof.
  cbv zeta. unfold updateSettings.
  set (s1 := saveConfig (set_config (merge (config s) nc) s)).
  destruct (generatePinDots s1) as [ds|]; cbn [fst];
    [|repeat split].
  destruct (enabled (config (set_dots ds s1))).
  - destruct (start_fields (set_dots ds s1))
      as (A1 & A2 & A3 & A4 & _ & A6 & A7 & _).
    rewrite A1, A2, A3, A4, A6, A7. repeat split.
  - destruct (stop_fields (set_dots ds s1))
      as (A1 & A2 & A3 & A4 & _ & A6 & A7 & _).
    rewrite A1, A2, A3, A4, A6, A7. repeat split.
Qed.

(** X5.  updateSettings neither locks nor unlocks: the lock state, the
    lock screen, the buffer and the trace are as before, also when the lock
    is switched off while the screen is locked.  The merged configuration
    is in force and in localStorage before the dots are rendered, so it
    stays there when rendering throws; the timers are left as they were
    then, monitoring being neither stopped nor restarted. *)
Theorem settings_keep_lock_state (nc : settings) (s : state) :
  let s' := fst (updateSettings nc s) in
  isLocked s' = isLocked s /\ lockScreenActive s' = lockScreenActive s /\
  inputBuffer s' = inputBuffer s /\ trace s' = trace s /\
  boundReset s' = boundReset s /\ time s' = time s /\
  config s' = merge (config s) nc /\
  stored s' = Some (merge (config s) nc) /\
  (if snd (updateSettings nc s) then True else timers s' = timers s).
Proof.
  cbv zeta. unfold updateSettings.
  set (s1 := saveConfig (set_config (merge (config s) nc) s)).
  destruct (generatePinDots s1) as [ds|]; cbn [fst snd];
    [|repeat split].
  destruct (enabled (config (set_dots ds s1))).
  - destruct (start_fields (set_dots ds s1))
      as (A1 & A2 & A3 & A4 & _ & A6 & A7 & _ & A9 & _ & _ & A12).
    rewrite A1, A2, A3, A4, A6, A7, A9, A12. repeat split.
  - destruct (stop_fields (set_dots ds s1))
      as (A1 & A2 & A3 & A4 & _ & A6 & A7 & _ & A9 & _ & _ & A12 & _).
    rewrite A1, A2, A3, A4, A6, A7, A9, A12. repeat split.
Qed.

Lemma updateSettings_dots nc s ds :
  generatePinDots (saveConfig (set_config (merge (config s) nc) s)) = Some ds ->
  snd (updateSettings nc s) = true /\ dots (fst (updateSettings nc s)) = ds /\
  toasts (fst (updateSettings nc s)) = toasts s /\
  lockBtnShown (fst (updateSettings nc s)) = lockBtnShown s /\
  settingsOpen (fst (updateSettings nc s)) = settingsOpen s.
Proof.
  intros G. unfold updateSettings. rewrite G.
  set (s1 := saveConfig (set_config (merge (config s) nc) s)).
  split; [reflexivity|]. cbn [fst].
  destruct (enabled (config (set_dots ds s1))).
  - destruct (start_fields (set_dots ds s1))
      as (_ & _ & _ & _ & A5 & _ & _ & A8 & _ & A10 & A11 & _).
    rewrite A5, A8, A10, A11. repeat split.
  - destruct (stop_fields (set_dots ds s1))
      as (_ & _ & _ & _ & A5 & _ & _ & A8 & _ & A10 & A11 & _).
    rewrite A5, A8, A10, A11. repeat split.
Qed.

(** X6.  The settings dialog accepts every form with the lock switched
    off, and with the lock switched on every form whose PIN equals its
    confirmation and has the chosen length.  The form's values become the
    configuration, in force and in localStorage, with the timeout turned
    from minutes into ms; the lock screen gets as many empty dots as the
    PIN is long, the lock button is shown exactly when the lock is on, the
    dialog closes and 'Settings saved' is shown.  The lock state is
    untouched. *)
Theorem settings_accepted (f : form) (s : state) (radio : string) (n : Z) :
  pinLengthChecked f = Some radio -> parseInt radio = Num n ->
  0 <= n < 4294967296 ->
  settingLockEnabled f = false \/
  (settingPin f = settingPinConfirm f /\ jslen (settingPin f) = n) ->
  let s' := saveSettingsClick f s in
  config s' = {| enabled := settingLockEnabled f; pin := settingPin f;
                 length := Num n;
                 timeout := num_mul (parseInt (settingTimeout f)) 60000 |} /\
  stored s' = Some (config s') /\
  dots s' = repeat blank_dot (Z.to_nat n) /\
  lockBtnShown s' = settingLockEnabled f /\ settingsOpen s' = false /\
  toasts s' = (toasts s ++ [SettingsSaved])%list /\
  isLocked s' = isLocked s /\ inputBuffer s' = inputBuffer s.
Proof.
  intros R P Hn Ok s'. subst s'. unfold saveSettingsClick. rewrite R, P.
  cbv zeta.
  assert (G1 : settingLockEnabled f &&
               negb (settingPin f =? settingPinConfirm f)%string = false).
  { destruct Ok as [->|[E _]]; [reflexivity|].
    rewrite E, String.eqb_refl. apply andb_false_r. }
  assert (G2 : settingLockEnabled f &&
               negb (num_eq (Num (jslen (settingPin f))) (Num n)) = false).
  { destruct Ok as [->|[_ E]]; [reflexivity|].
    rewrite E. simpl. rewrite Z.eqb_refl. apply andb_false_r. }
  rewrite G1, G2.
  set (nc := {| new_enabled := Some (settingLockEnabled f);
                new_pin := Some (settingPin f);
                new_length := Some (Num n);
                new_timeout :=
                  Some (num_mul (parseInt (settingTimeout f)) 60000) |}).
  destruct (updateSettings_frame nc s) as (A1 & _ & A3 & _ & A5 & A6).
  destruct (updateSettings_dots nc s (repeat blank_dot (Z.to_nat n)))
    as (B1 & B2 & B3 & _).
  { unfold generatePinDots. simpl.
    destruct (Z.leb_spec 0 n); [|lia].
    destruct (Z.ltb_spec n 4294967296); [|lia]. reflexivity. }
  rewrite B1. proj.
  rewrite A5, A6, B2, B3, A1, A3. repeat split.
Qed.

Lemma settings_accepted_witness :
  let s' := saveSettingsClick sample_form sample_start in
  config s' = sample_config /\ settingsOpen s' = false.
Proof.
  destruct (settings_accepted sample_form sample_start "4" 4 eq_refl eq_refl
              ltac:(lia) (or_intror (conj eq_refl eq_refl)))
    as (C & _ & _ & _ & O & _).
  cbv zeta. split; [exact C | exact O].
Defined.

Lemma timers_disabled nc s :
  snd (updateSettings nc s) = true -> enabled (merge (config s) nc) = false ->
  timers (fst (updateSettings nc s)) = timers (stopActivityMonitoring s).
Proof.
  intros Ok En. unfold updateSettings in *.
  set (s1 := saveConfig (set_config (merge (config s) nc) s)) in *.
  destruct (generatePinDots s1) as [ds|]; [|discriminate].
  cbn [fst].
  change (enabled (config (set_dots ds s1)))
    with (enabled (merge (config s) nc)).
  rewrite En. unfold stopActivityMonitoring, timers. subst s1. proj.
  destruct (boundReset s); reflexivity.
Qed.

(** X7.  Removing the passcode always goes through: the lock is off,
    the PIN is '0000' with four dots, the timeout is kept, the lock button
    is hidden, the configuration is stored and the inactivity timer that
    [this.timer] held is cancelled.  It does not unlock: a locked screen
    stays locked, and opens with 0000. *)
Theorem reset_lock_defaults (s : state) :
  let s' := resetLockClick s in
  config s' = {| enabled := false; pin := "0000"; length := Num 4;
                 timeout := timeout (config s) |} /\
  stored s' = Some (config s') /\
  dots s' = repeat blank_dot 4 /\ lockBtnShown s' = false /\
  toasts s' = (toasts s ++ [PasscodeRemoved])%list /\
  isLocked s' = isLocked s /\ lockScreenActive s' = lockScreenActive s /\
  (forall t, In t (timers s') -> timer s <> Some (tid t)) /\
  isLocked (checkPin (set_inputBuffer "0000" s')) = false.
Proof.
  cbv zeta. unfold resetLockClick.
  set (nc := {| new_enabled := Some false; new_pin := Some "0000";
                new_length := Some (Num 4); new_timeout := None |}).
  destruct (updateSettings_frame nc s) as (A1 & A2 & _ & _ & A5 & A6).
  destruct (updateSettings_dots nc s (repeat blank_dot 4) eq_refl)
    as (B1 & B2 & B3 & _).
  rewrite B1. proj. rewrite A5, A6, B2, B3, A1, A2.
  split; [reflexivity|]. split; [reflexivity|]. split; [reflexivity|].
  split; [reflexivity|]. split; [reflexivity|]. split; [reflexivity|].
  split; [reflexivity|].
  split.
  { intros t Ht E.
    assert (Ht' : In t (timers (stopActivityMonitoring s))).
    { rewrite <- (timers_disabled nc s B1 eq_refl). exact Ht. }
    assert (H : In t (filter (keeps (timer s)) (pending (clk s)))).
    { unfold stopActivityMonitoring, timers in Ht'.
      destruct (boundReset s); proj; clocks;
        apply filter_In in Ht' as [Ht' _]; exact Ht'. }
    apply filter_In in H as [_ K]. rewrite E, keeps_self in K.
    discriminate. }
  unfold checkPin. proj. rewrite A5. simpl String.eqb. cbv iota.
  unfold unlock. proj. rewrite A5. reflexivity.
Qed.

(** X8.  A configuration that updateSettings accepted is the one init
    loads on the next visit, for a numeric timeout (JSON has no NaN).  The
    lock state is not stored: whether the screen was locked or not, the
    page starts unlocked, with an empty buffer and the lock screen
    hidden. *)
Theorem reload_restores_settings (nc : settings) (s : state) (t0 z : Z) :
  snd (updateSettings nc s) = true ->
  timeout (merge (config s) nc) = Num z ->
  exists s2,
    init (stored (fst (updateSettings nc s))) t0 = Some s2 /\
    config s2 = config (fst (updateSettings nc s)) /\
    dots s2 = dots (fst (updateSettings nc s)) /\
    isLocked s2 = false /\ lockScreenActive s2 = false /\
    inputBuffer s2 = "" /\ lockBtnShown s2 = enabled (config s2).
Proof.
  intros Ok _.
  destruct (updateSettings_frame nc s) as (_ & _ & _ & _ & A5 & A6).
  rewrite A6, A5.
  unfold updateSettings in Ok |- *.
  set (s1 := saveConfig (set_config (merge (config s) nc) s)) in *.
  destruct (generatePinDots s1) as [ds|] eqn:G; [|discriminate].
  assert (D : dots (fst (if enabled (config (set_dots ds s1))
                         then startActivityMonitoring (set_dots ds s1)
                         else stopActivityMonitoring (set_dots ds s1), true))
              = ds).
  { cbn [fst]. destruct (enabled (config (set_dots ds s1))).
    - destruct (start_fields (set_dots ds s1)) as (_ & _ & _ & _ & A & _).
      exact A.
    - destruct (stop_fields (set_dots ds s1)) as (_ & _ & _ & _ & A & _).
      exact A. }
  rewrite D.
  unfold init, loadConfig. simpl stored. cbv iota.
  assert (G' : generatePinDots
                 (set_config (merge (config s) nc)
                    (fresh (Some (merge (config s) nc)) t0)) = Some ds)
    by exact G.
  rewrite G'.
  eexists. split; [reflexivity|].
  set (s2 := set_boundReset true
               (set_dots ds
                  (set_config (merge (config s) nc)
                     (fresh (Some (merge (config s) nc)) t0)))).
  destruct (enabled (config s2)) eqn:En.
  - destruct (start_fields s2) as (B1 & B2 & B3 & _ & B5 & B6 & _).
    proj. rewrite B1, B2, B3, B5, B6. repeat split.
  - proj. repeat split.
Qed.

Lemma reload_restores_settings_witness :
  exists s2,
    init (stored (fst (updateSettings
                         {| new_enabled := None; new_pin := Some "4321";
                            new_length := None; new_timeout := None |}
                         (lock sample_start)))) 7 = Some s2 /\
    pin (config s2) = "4321" /\ isLocked s2 = false.
Proof.
  destruct (reload_restores_settings
              {| new_enabled := None; new_pin := Some "4321";
                 new_length := None; new_timeout := None |}
              (lock sample_start) 7 300000 eq_refl eq_refl)
    as (s2 & E & C & _ & L & _).
  exists s2. split; [exact E|]. split; [|exact L].
  rewrite C. reflexivity.
Defined.

(** *** The dots of the lock screen *)

Lemma updateDots_shows s y :
  dots y = dots s ->
  filled_count (updateDots y) =
    Nat.min (String.length (inputBuffer (updateDots y))) (List.length (dots s)) /\
  existsb error (dots (updateDots y)) = false.
Proof.
  intros E. unfold filled_count, updateDots. proj.
  rewrite filled_paint, error_paint, E, Nat.sub_0_r. auto.
Qed.

(** X9.  After a digit or a backspace the lock screen shows the buffer:
    as many dots are filled as the buffer has characters (all of them if it
    has more), and no dot carries the error class. *)
Theorem dots_show_buffer (d : digit) (s : state) :
  let entered := handleInput (digit_key d) s in
  let erased := handleInput "backspace" s in
  filled_count entered =
    Nat.min (String.length (inputBuffer entered)) (List.length (dots s)) /\
  existsb error (dots entered) = false /\
  filled_count erased =
    Nat.min (String.length (inputBuffer s) - 1) (List.length (dots s)) /\
  existsb error (dots erased) = false.
Proof.
  cbv zeta.
  assert (T : filled_count (handleInput (digit_key d) s) =
              Nat.min (String.length (inputBuffer (handleInput (digit_key d) s)))
                (List.length (dots s)) /\
              existsb error (dots (handleInput (digit_key d) s)) = false).
  { rewrite handleInput_digit.
    destruct (num_lt _ _); [|now apply updateDots_shows].
    cbv zeta. apply updateDots_shows.
    destruct (num_eq _ _); reflexivity. }
  destruct T as [T1 T2]. split; [exact T1|]. split; [exact T2|].
  unfold handleInput. simpl String.eqb. cbv iota.
  destruct (updateDots_shows s
              (set_inputBuffer (slice_0_neg1 (inputBuffer s)) s) eq_refl)
    as [E1 E2].
  split; [|exact E2]. rewrite E1.
  unfold updateDots. proj. now rewrite slice_0_neg1_length.
Qed.

(** *** A signal postpones the lock, or comes too late *)

(** X10.  On an unlocked screen with the lock enabled, the throttle idle,
    no PIN check pending and the inactivity timer due at [L], an activity
    signal that comes more than 1000 ms before [L] postpones the lock:
    1000 ms later the throttle resets the inactivity timer, so that the
    one inactivity timer pending is due one timeout after that.  A signal
    that comes later does not postpone it: the inactivity timer fires
    first and locks the screen, lock() cancels the throttle timer, no
    reset is made, and [debounceTimer] is left holding the cancelled
    id. *)
Theorem activity_postpones_lock (s : state) (z L : Z) :
  isLocked s = false -> enabled (config s) = true ->
  delay_ms (timeout (config s)) = z -> 0 < z ->
  listening s = true -> debounceTimer s = None -> clock_ok s ->
  armed L s ->
  (forall u, In u (timers s) ->
     tcb u = CbUpdateDots \/ (tcb u = CbLock /\ timer s = Some (tid u))) ->
  let s' := run [Activity; Elapse 1000] s in
  time s' = time s + 1000 /\
  (time s + 1000 < L ->
   isLocked s' = false /\ armed (time s + 1000 + z) s' /\
   (forall u, In u (lock_timers s') -> due u = time s + 1000 + z) /\
   reset_times s' = (reset_times s ++ [time s + 1000])%list /\
   debounceTimer s' = None) /\
  (L <= time s + 1000 ->
   isLocked s' = true /\ lock_timers s' = [] /\
   reset_times s' = reset_times s /\
   stuck (nextId (clk s)) s').
Proof.
  intros Lk En Dz Hz Li D K (tl & Il & Cl & Dl & Ti) A s'.
  assert (One : forall u, In u (timers s) -> tcb u = CbLock -> u = tl).
  { intros u Hu Cu. destruct (A u Hu) as [C|(_ & E)]; [congruence|].
    apply (tid_inj (timers s)); auto; [apply K | congruence]. }
  destruct (Z.lt_ge_cases (time s + 1000) L) as [Early|Late].
  - destruct (signal_resets s z)
      as (L1 & _ & _ & _ & Tm & D1 & Arm & R & A1); auto.
    { intros u Hu. destruct (A u Hu) as [C|(C & E)]; [now left|].
      right. right.
      split; [exact C|]. split; [exact E|]. rewrite (One u Hu C). lia. }
    split; [exact Tm|]. split; [|intros; lia].
    intros _. split; [exact L1|]. split; [exact Arm|].
    split; [|split; assumption].
    intros u Hu. apply filter_In in Hu as [Hu Lu].
    apply is_lock_true in Lu.
    destruct (A1 u Hu) as [C|[C|(_ & _ & Du)]];
      [congruence | congruence | exact Du].
  - destruct (signal_too_late s tl) as (L1 & _ & R & D1 & Tm & A1); auto.
    { lia. }
    { intros u Hu. destruct (A u Hu) as [C|(C & _)]; [now right|].
      left. now apply One. }
    split; [exact Tm|]. split; [intros; lia|].
    intros _. split; [exact L1|].
    split.
    { unfold lock_timers.
      destruct (filter _ (timers s')) as [|u r] eqn:F; [reflexivity|].
      assert (Hu : In u (filter (fun t => is_lock (tcb t)) (timers s')))
        by (rewrite F; now left).
      apply filter_In in Hu as [Hu Lu]. apply is_lock_true in Lu.
      rewrite (A1 u Hu) in Lu. discriminate. }
    split; [exact R|]. split; [exact D1|].
    intros u Hu. rewrite (A1 u Hu). discriminate.
Qed.

Lemma sample_start_clock : clock_ok sample_start.
Proof. apply (clock_ok_init (Some sample_config) 0). reflexivity. Qed.

Lemma sample_start_ready :
  time sample_start = 0 /\ timer sample_start = Some 1%positive /\
  timers sample_start =
    [ {| tid := 1%positive; due := 300000; tcb := CbLock |} ].
Proof. vm_compute. repeat split. Qed.

Lemma sample_late_ready :
  isLocked sample_late = false /\ enabled (config sample_late) = true /\
  delay_ms (timeout (config sample_late)) = 300000 /\
  listening sample_late = true /\ debounceTimer sample_late = None /\
  time sample_late = 299500 /\ timer sample_late = Some 1%positive /\
  timers sample_late =
    [ {| tid := 1%positive; due := 300000; tcb := CbLock |} ].
Proof. vm_compute. repeat split. Qed.

Lemma activity_postpones_lock_witness :
  armed (time sample_start + 1000 + 300000)
    (run [Activity; Elapse 1000] sample_start) /\
  isLocked (run [Activity; Elapse 1000] sample_late) = true.
Proof.
  destruct sample_start_ready as (T0 & Ti0 & Tb0).
  destruct sample_late_ready as (L1 & E1 & Z1 & Li1 & D1 & T1 & Ti1 & Tb1).
  split.
  - destruct (activity_postpones_lock sample_start 300000 300000)
      as (_ & Early & _);
      [reflexivity | reflexivity | reflexivity | lia | reflexivity
      | reflexivity | exact sample_start_clock | | |].
    + eexists. rewrite Tb0, Ti0. split; [now left|]. repeat split.
    + intros u Hu. rewrite Tb0 in Hu. destruct Hu as [<-|[]].
      right. split; [reflexivity | exact Ti0].
    + apply Early. rewrite T0. lia.
  - destruct (activity_postpones_lock sample_late 300000 300000)
      as (_ & _ & Late);
      [exact L1 | exact E1 | exact Z1 | lia | exact Li1 | exact D1
      | unfold sample_late; apply clock_ok_run, sample_start_clock | | |].
    + eexists. rewrite Tb1, Ti1. split; [now left|]. repeat split.
    + intros u Hu. rewrite Tb1 in Hu. destruct Hu as [<-|[]].
      right. split; [reflexivity | exact Ti1].
    + apply Late. rewrite T1. lia.
Defined.

(** *** Only unlock() opens the screen *)

Lemma guarded_refl s : guarded s s.
Proof. unfold guarded. auto. Qed.

Lemma guarded_trans s1 s2 s3 :
  guarded s1 s2 -> guarded s2 s3 -> guarded s1 s3.
Proof.
  intros [U1 L1] [U2 L2]. split; [lia|].
  intros H. destruct (L2 H) as [H2|H2]; [|right; lia].
  destruct (L1 H2) as [H1|H1]; [now left | right; lia].
Qed.

Lemma guarded_same s s' :
  isLocked s' = isLocked s -> trace s' = trace s -> guarded s s'.
Proof.
  intros L T. unfold guarded, unlocks. rewrite L, T. auto.
Qed.

Lemma guarded_stop s : guarded s (stopActivityMonitoring s).
Proof.
  destruct (stop_fields s) as (A1 & _ & _ & _ & _ & _ & A7 & _).
  now apply guarded_same.
Qed.

Lemma guarded_reset s : guarded s (resetActivityTimer s).
Proof.
  destruct (reset_fields s) as (A1 & _ & _ & _ & _ & _ & A7 & _).
  now apply guarded_same.
Qed.

Lemma guarded_start s : guarded s (startActivityMonitoring s).
Proof.
  destruct (start_fields s) as (A1 & _ & _ & _ & _ & _ & A7 & _).
  now apply guarded_same.
Qed.

Lemma guarded_lock s : guarded s (lock s).
Proof.
  split; [rewrite unlocks_lock; lia|].
  rewrite isLocked_lock. discriminate.
Qed.

Lemma unlocks_unlock s : unlocks (unlock s) = S (unlocks s).
Proof.
  unfold unlock. cbv zeta.
  set (s2 := observe Unlocked
               (set_lockScreenActive false
                  (set_inputBuffer "" (set_isLocked false s)))).
  assert (U2 : unlocks s2 = S (unlocks s)).
  { subst s2. rewrite unlocks_observe. unfold unlocks. proj. lia. }
  destruct (enabled (config s2)); [|exact U2].
  destruct (start_fields s2) as (_ & _ & _ & _ & _ & _ & A7 & _).
  unfold unlocks in *. now rewrite A7.
Qed.

Lemma guarded_unlock s : guarded s (unlock s).
Proof.
  split; rewrite unlocks_unlock; [lia|]. intros _. right. lia.
Qed.

Lemma guarded_showError s : guarded s (showError s).
Proof.
  split; rewrite unlocks_showError; [lia|]. intros H. left. exact H.
Qed.

Lemma guarded_checkPin s : guarded s (checkPin s).
Proof.
  unfold checkPin. destruct (inputBuffer s =? pin (config s))%string;
    [apply guarded_unlock | apply guarded_showError].
Qed.

Lemma guarded_handleInput key s : guarded s (handleInput key s).
Proof.
  unfold handleInput.
  destruct (key =? "backspace")%string; [now apply guarded_same|].
  destruct (key =? "enter")%string; [apply guarded_checkPin|].
  destruct (num_lt _ _); [|now apply guarded_same].
  cbv zeta. destruct (num_eq _ _); now apply guarded_same.
Qed.

Lemma guarded_handleActivity s : guarded s (handleActivity s).
Proof.
  unfold handleActivity. destruct (debounceTimer s); now apply guarded_same.
Qed.

Lemma guarded_activityCallback s : guarded s (activityCallback s).
Proof.
  split; [rewrite unlocks_activityCallback; lia|].
  unfold activityCallback.
  destruct (reset_fields (observe ActivityReset (set_debounceTimer None s)))
    as (A1 & _).
  rewrite A1. intros H. left. exact H.
Qed.

Lemma guarded_updateSettings nc s : guarded s (fst (updateSettings nc s)).
Proof.
  destruct (updateSettings_frame nc s) as (A1 & _ & _ & A4 & _).
  now apply guarded_same.
Qed.

Lemma guarded_saveSettingsClick f s : guarded s (saveSettingsClick f s).
Proof.
  unfold saveSettingsClick. destruct (pinLengthChecked f);
    [|apply guarded_refl].
  cbv zeta.
  destruct (settingLockEnabled f && negb (settingPin f =? settingPinConfirm f)%string);
    [now apply guarded_same|].
  destruct (settingLockEnabled f && negb (num_eq _ _));
    [now apply guarded_same|].
  destruct (snd _); apply guarded_updateSettings.
Qed.

Lemma guarded_resetLockClick s : guarded s (resetLockClick s).
Proof.
  unfold resetLockClick. cbv zeta.
  destruct (snd _); apply guarded_updateSettings.
Qed.

Lemma guarded_fire t s : guarded s (fire t s).
Proof.
  unfold fire.
  apply (guarded_trans _ (set_clk (take t (clk s)) s));
    [now apply guarded_same|].
  destruct (tcb t); simpl run_callback.
  - apply guarded_checkPin.
  - now apply guarded_same.
  - apply guarded_lock.
  - apply guarded_activityCallback.
Qed.

Lemma guarded_loop T s : guarded s (loop T s).
Proof.
  apply (loop_inv T (guarded s)); [|apply guarded_refl].
  intros a t Ha _ _. eapply guarded_trans; [exact Ha | apply guarded_fire].
Qed.

Lemma guarded_dispatch e s : guarded s (dispatch e s).
Proof.
  destruct e; simpl dispatch.
  - unfold onClick. destruct (negb (isLocked s)); [apply guarded_refl|].
    destruct keypadKey; [apply guarded_handleInput | apply guarded_refl].
  - unfold onKeydown. split_ifs;
      first [apply guarded_refl | apply guarded_handleInput].
  - destruct (listening s);
      [apply guarded_handleActivity | apply guarded_refl].
  - apply guarded_lock.
  - now apply guarded_same.
  - now apply guarded_same.
  - apply guarded_saveSettingsClick.
  - apply guarded_resetLockClick.
  - unfold elapse, advance.
    eapply guarded_trans; [apply guarded_loop | now apply guarded_same].
Qed.

Lemma guarded_run es : forall s, guarded s (run es s).
Proof.
  induction es as [|e es IH]; intros s; [apply guarded_refl|].
  simpl. eapply guarded_trans; [apply guarded_dispatch | apply IH].
Qed.

(** *** One action at a time *)

Lemma shut_refl s : shut s s.
Proof. split; auto. Qed.

Lemma shut_trans s1 s2 s3 : shut s1 s2 -> shut s2 s3 -> shut s1 s3.
Proof. intros [U1 L1] [U2 L2]. split; [congruence | auto]. Qed.

Lemma shut_same s s' :
  isLocked s' = isLocked s -> trace s' = trace s -> shut s s'.
Proof.
  intros L T. unfold shut, unlocks. rewrite L, T. auto.
Qed.

Lemma shut_lock s : shut s (lock s).
Proof.
  split; [apply unlocks_lock|]. intros _. apply isLocked_lock.
Qed.

Lemma shut_showError s : shut s (showError s).
Proof. split; [apply unlocks_showError | auto]. Qed.

Lemma shut_activityCallback s : shut s (activityCallback s).
Proof.
  split; [apply unlocks_activityCallback|].
  unfold activityCallback.
  destruct (reset_fields (observe ActivityReset (set_debounceTimer None s)))
    as (A1 & _).
  rewrite A1. auto.
Qed.

Lemma shut_handleActivity s : shut s (handleActivity s).
Proof.
  unfold handleActivity. destruct (debounceTimer s); now apply shut_same.
Qed.

Lemma shut_updateSettings nc s : shut s (fst (updateSettings nc s)).
Proof.
  destruct (updateSettings_frame nc s) as (A1 & _ & _ & A4 & _).
  now apply shut_same.
Qed.

Lemma shut_saveSettingsClick f s : shut s (saveSettingsClick f s).
Proof.
  unfold saveSettingsClick. destruct (pinLengthChecked f);
    [|apply shut_refl].
  cbv zeta.
  destruct (settingLockEnabled f && negb (settingPin f =? settingPinConfirm f)%string);
    [now apply shut_same|].
  destruct (settingLockEnabled f && negb (num_eq _ _));
    [now apply shut_same|].
  destruct (snd _); [|apply shut_updateSettings].
  eapply shut_trans; [apply shut_updateSettings | now apply shut_same].
Qed.

Lemma shut_resetLockClick s : shut s (resetLockClick s).
Proof.
  unfold resetLockClick. cbv zeta.
  destruct (snd _); [|apply shut_updateSettings].
  eapply shut_trans; [apply shut_updateSettings | now apply shut_same].
Qed.

(** Every key but enter leaves the lock as it is. *)
Lemma shut_handleInput key s :
  (key =? "enter")%string = false -> shut s (handleInput key s).
Proof.
  intros E. unfold handleInput. rewrite E.
  destruct (key =? "backspace")%string; [now apply shut_same|].
  destruct (num_lt _ _); [|now apply shut_same].
  cbv zeta. destruct (num_eq _ _); now apply shut_same.
Qed.

(** The keys the keyboard listener passes on as digits are not the
    enter key. *)
Lemma digit_not_enter key :
  ("0" <=? key)%string && (key <=? "9")%string = true ->
  (key =? "enter")%string = false.
Proof.
  intros H. destruct (String.eqb_spec key "enter") as [->|]; [|reflexivity].
  vm_compute in H. discriminate.
Qed.

Lemma isLocked_unlock s : isLocked (unlock s) = false.
Proof.
  unfold unlock. cbv zeta.
  set (s2 := observe Unlocked _).
  assert (L2 : isLocked s2 = false) by reflexivity.
  destruct (enabled (config s2)); [|exact L2].
  destruct (start_fields s2) as (A1 & _). congruence.
Qed.

(** checkPin calls unlock() on a buffer that equals the PIN, and on no
    other. *)
Lemma checkPin_cases s :
  shut s (checkPin s) \/
  (inputBuffer s = pin (config s) /\
   unlocks (checkPin s) = S (unlocks s) /\ isLocked (checkPin s) = false).
Proof.
  unfold checkPin.
  destruct (String.eqb_spec (inputBuffer s) (pin (config s))) as [E|_].
  - right. split; [exact E|].
    split; [apply unlocks_unlock | apply isLocked_unlock].
  - left. apply shut_showError.
Qed.

(** An action calls unlock() only through checkPin. *)
Lemma act_cases x a :
  shut a (act x a) \/
  (is_check x = true /\ inputBuffer a = pin (config a) /\
   unlocks (act x a) = S (unlocks a) /\ isLocked (act x a) = false).
Proof.
  destruct x as [e|t|T].
  - destruct e; cbn [act dispatch].
    + unfold onClick.
      destruct (isLocked a); simpl negb; cbv iota; [|left; apply shut_refl].
      destruct keypadKey as [key|]; [|left; apply shut_refl].
      cbn [is_check].
      destruct (String.eqb_spec key "enter") as [->|Ne].
      * change (handleInput "enter" a) with (checkPin a).
        destruct (checkPin_cases a) as [S|C]; [now left | right; auto].
      * left. apply shut_handleInput. now apply String.eqb_neq.
    + unfold onKeydown.
      destruct (isLocked a); simpl negb; cbv iota; [|left; apply shut_refl].
      destruct (("0" <=? key)%string && (key <=? "9")%string) eqn:Dg.
      { left. apply shut_handleInput. now apply digit_not_enter. }
      destruct (key =? "Backspace")%string.
      { left. now apply shut_handleInput. }
      cbn [is_check].
      destruct (key =? "Enter")%string; [|left; apply shut_refl].
      change (handleInput "enter" a) with (checkPin a).
      destruct (checkPin_cases a) as [S|C]; [now left | right; auto].
    + left. destruct (listening a);
        [apply shut_handleActivity | apply shut_refl].
    + left. apply shut_lock.
    + left. now apply shut_same.
    + left. now apply shut_same.
    + left. apply shut_saveSettingsClick.
    + left. apply shut_resetLockClick.
    + left. apply shut_refl.
  - cbn [act is_check]. unfold fire.
    set (a1 := set_clk (take t (clk a)) a).
    assert (S1 : shut a a1) by (now apply shut_same).
    destruct (tcb t); simpl run_callback.
    + destruct (checkPin_cases a1) as [S|(B & U & L)].
      * left. eapply shut_trans; [exact S1 | exact S].
      * right. split; [reflexivity|]. split; [exact B|].
        split; [exact U | exact L].
    + left. eapply shut_trans; [exact S1 | now apply shut_same].
    + left. eapply shut_trans; [exact S1 | apply shut_lock].
    + left. eapply shut_trans; [exact S1 | apply shut_activityCallback].
  - left. now apply shut_same.
Qed.

Lemma perform_app xs ys s : perform (xs ++ ys)%list s = perform ys (perform xs s).
Proof. apply fold_left_app. Qed.

(** The event loop is made of firings. *)
Lemma loop_performs T s : exists xs, loop T s = perform xs s.
Proof.
  apply (loop_inv T (fun a => exists xs, a = perform xs s)).
  - intros a t [xs ->] _ _. exists (xs ++ [Fire t])%list.
    now rewrite perform_app.
  - now exists [].
Qed.

Lemma dispatch_performs e s : exists xs, dispatch e s = perform xs s.
Proof.
  destruct e as [k|k| | | | |f| |dt];
    [ now exists [Handle (Click k)] | now exists [Handle (Keydown k)]
    | now exists [Handle Activity] | now exists [Handle LockBtn]
    | now exists [Handle OpenSettings] | now exists [Handle CloseSettings]
    | now exists [Handle (SaveSettings f)] | now exists [Handle ResetLock]
    | ].
  simpl dispatch. unfold elapse, advance.
  destruct (loop_performs (time s + Z.max 0 dt) s) as [xs E].
  exists (xs ++ [Tick (time s + Z.max 0 dt)])%list.
  rewrite perform_app, <- E. reflexivity.
Qed.

Lemma run_performs es : forall s, exists xs, run es s = perform xs s.
Proof.
  induction es as [|e es IH]; intros s; [now exists []|].
  destruct (dispatch_performs e s) as [xs E].
  destruct (IH (dispatch e s)) as [ys F].
  exists (xs ++ ys)%list. rewrite perform_app, <- E. exact F.
Qed.

(** X24.  Nothing but unlock() opens a locked screen, and unlock() is
    called by checkPin alone, on a buffer that equals the PIN.  Every run
    of the page is a sequence of actions: an event is handled, a timer
    fires, or the clock moves on.  An action that opens a locked screen, or
    in which unlock() runs at all, is a PIN check (the enter key, or the
    timer handleInput sets on a full buffer) met with a buffer that equals
    the PIN, and it unlocks once.  Changing or resetting the settings,
    activity, the lock button and the other timers never do.  So a screen
    that was locked and is open after a run was unlocked on the way. *)
Theorem only_unlock_opens :
  (forall es s, exists xs, run es s = perform xs s) /\
  (forall x a,
     (isLocked a = true /\ isLocked (act x a) = false) \/
     unlocks (act x a) <> unlocks a ->
     is_check x = true /\ inputBuffer a = pin (config a) /\
     unlocks (act x a) = S (unlocks a) /\ isLocked (act x a) = false) /\
  (forall es s,
     isLocked s = true -> isLocked (run es s) = false ->
     (unlocks s < unlocks (run es s))%nat).
Proof.
  split; [intros es s; apply run_performs|]. split.
  - intros x a H.
    destruct (act_cases x a) as [[U L]|C]; [|exact C].
    destruct H as [[La Lb]|Hu]; [|contradiction].
    rewrite (L La) in Lb. discriminate.
  - intros es s L O.
    destruct (guarded_run es s) as [_ G].
    destruct (G O) as [H|H]; [congruence | exact H].
Qed.
End LockFacts.

(** ** PostController *)

Module PostFacts.
Import Post.

Local Abbreviation load := (load weight).

Ltac proj :=
  cbn [currentPostId currentFilename currentPostCreatedAt currentIsFavorite
       isDirty posts timeout postTitle quill saveStatus clk awaiting
       nextCall log
       set_currentPostId set_currentFilename set_currentPostCreatedAt
       set_currentIsFavorite set_isDirty set_posts set_timeout_var
       set_postTitle set_quill set_saveStatus set_clk set_awaiting
       set_nextCall set_log set_timeout clear_timeout record call_backend
       fst snd] in *.

Ltac clocks :=
  cbn [setTimeout clearTimeout take set_now pending now nextId tid due tcb
       fst snd] in *.

Ltac split_ifs :=
  repeat match goal with
         | |- context [if ?c then _ else _] => destruct c
         end.

(** *** What leaves the timer table alone *)

Lemma clk_listeners e s : clk (listeners e s) = clk s.
Proof.
  destruct e; simpl; try reflexivity;
    try (destruct (postTitle s); reflexivity).
  destruct dirty; reflexivity.
Qed.

Lemma clk_emit e s : clk (emit e s) = clk s.
Proof. unfold emit. now rewrite clk_listeners. Qed.

Lemma clk_saveCurrentPost auto o s :
  clk (fst (saveCurrentPost auto o s)) = clk s.
Proof.
  unfold saveCurrentPost. split_ifs; simpl fst; proj;
    rewrite ?clk_emit; reflexivity.
Qed.

Lemma timeout_listeners e s : timeout (listeners e s) = timeout s.
Proof.
  destruct e; simpl; try reflexivity;
    try (destruct (postTitle s); reflexivity).
  destruct dirty; reflexivity.
Qed.

Lemma timeout_emit e s : timeout (emit e s) = timeout s.
Proof. unfold emit. now rewrite timeout_listeners. Qed.

Lemma clk_later s : clk (later s) = clearTimeout (timeout s) (clk s).
Proof.
  unfold later, func. destruct (isDirty _); [|reflexivity].
  now rewrite clk_saveCurrentPost.
Qed.

Lemma post_fire_load t s :
  In t (timers s) -> (load (timers (fire t s)) < load (timers s))%nat.
Proof.
  intros Hin. unfold fire, timers. destruct (tcb t) eqn:C. simpl run_callback.
  rewrite clk_later. proj.
  pose proof (load_take weight t (clk s) Hin) as Ht.
  pose proof (load_clearTimeout weight (timeout s) (take t (clk s))) as Hc.
  unfold timers in *. rewrite C in Ht. unfold weight at 2 in Ht.
  cbn [timeout set_clk] in *. lia.
Qed.

Lemma post_loop_eq T s :
  loop T s =
  match earliest (timers s) with
  | Some t => if due t <=? T then loop T (fire t s) else s
  | None => s
  end.
Proof. apply run_until_eq, post_fire_load. Qed.

Lemma post_loop_inv T (P : state -> Prop) :
  (forall s t, P s -> earliest (timers s) = Some t -> due t <= T ->
               P (fire t s)) ->
  forall s, P s -> P (loop T s).
Proof. apply run_until_inv, post_fire_load. Qed.

Lemma post_loop_idle T s :
  (forall u, In u (timers s) -> T < due u) -> loop T s = s.
Proof. apply run_until_idle, post_fire_load. Qed.


(** *** saveCurrentPost up to its first await *)

Lemma save_title_truthy o s : truthy (save_title o s) = true.
Proof. unfold save_title. now apply truthy_str_or. Qed.

Lemma saveCurrentPost_spec auto o s :
  saveCurrentPost auto o s =
  (call_backend (fun k => CallSavePost k (save_request o s))
     (AwaitSavePost auto) (if auto then emit PostSaving s else s),
   None).
Proof.
  unfold saveCurrentPost. rewrite save_title_truthy.
  rewrite andb_false_r. simpl andb. cbv iota.
  destruct auto; reflexivity.
Qed.

Lemma in_flight_call mk auto s :
  in_flight (call_backend mk (AwaitSavePost auto) s) = S (in_flight s).
Proof.
  unfold in_flight, call_backend; proj.
  rewrite filter_app, length_app. simpl. lia.
Qed.

Lemma awaiting_emit e s : awaiting (emit e s) = awaiting s.
Proof.
  unfold emit. destruct e; simpl; try reflexivity;
    try (destruct (postTitle s); reflexivity).
  destruct dirty; reflexivity.
Qed.

Lemma log_emit e s : log (emit e s) = (log s ++ [(time s, Emit e)])%list.
Proof.
  unfold emit. destruct e; simpl; try reflexivity;
    try (destruct (postTitle s); reflexivity).
  destruct dirty; reflexivity.
Qed.

Lemma time_emit e s : time (emit e s) = time s.
Proof. unfold time. now rewrite clk_emit. Qed.

Lemma nextCall_emit e s : nextCall (emit e s) = nextCall s.
Proof.
  unfold emit. destruct e; simpl; try reflexivity;
    try (destruct (postTitle s); reflexivity).
  destruct dirty; reflexivity.
Qed.

Lemma isDirty_emit e s : isDirty (emit e s) = isDirty s.
Proof.
  unfold emit. destruct e; simpl; try reflexivity;
    try (destruct (postTitle s); reflexivity).
  destruct dirty; reflexivity.
Qed.

Lemma in_flight_saveCurrentPost auto o s :
  in_flight (fst (saveCurrentPost auto o s)) = S (in_flight s).
Proof.
  rewrite saveCurrentPost_spec. simpl fst. rewrite in_flight_call.
  destruct auto; [|reflexivity].
  reflexivity.
Qed.

Lemma log_saveCurrentPost auto o s :
  log (fst (saveCurrentPost auto o s)) =
  (log s ++ (if auto then [(time s, Emit PostSaving)] else []) ++
   [(time s, CallSavePost (nextCall s) (save_request o s))])%list.
Proof.
  rewrite saveCurrentPost_spec. simpl fst. unfold call_backend; proj.
  destruct auto.
  - unfold time. simpl. rewrite <- app_assoc. reflexivity.
  - reflexivity.
Qed.

(** C1, as the code has it.  The controller keeps no guard on saves in
    flight: every call of saveCurrentPost, manual or automatic, sends its
    request to the backend at once, whatever is still unsettled, so each
    click on save and each firing of the debounced callback on a dirty
    document adds one save in flight. *)
Theorem saves_are_issued_at_once
    (s : state) (isAutoSave : bool) (titleOverride : option string) :
  let s' := fst (saveCurrentPost isAutoSave titleOverride s) in
  in_flight s' = S (in_flight s) /\
  log s' =
    (log s ++ (if isAutoSave then [(time s, Emit PostSaving)] else []) ++
     [(time s, CallSavePost (nextCall s) (save_request titleOverride s))])%list /\
  in_flight (dispatch SaveBtn s) =
    match postTitle s with
    | Some _ => S (in_flight s)
    | None => in_flight s
    end /\
  in_flight (later s) =
    (if isDirty s then S (in_flight s) else in_flight s).
Proof.
  cbv zeta.
  split; [apply in_flight_saveCurrentPost|].
  split; [apply log_saveCurrentPost|].
  split.
  - simpl dispatch. unfold handleSave.
    destruct (postTitle s); [apply in_flight_saveCurrentPost | reflexivity].
  - unfold later, func.
    change (isDirty (clear_timeout (timeout s) s)) with (isDirty s).
    destruct (isDirty s); [|reflexivity].
    rewrite in_flight_saveCurrentPost. reflexivity.
Qed.

(** C1 fails as stated: two clicks on save put two saves of the same new
    document in flight; so do an autosave and a click on save. *)
Lemma two_saves_in_flight :
  in_flight (run [SaveBtn; SaveBtn] sample_page) = 2%nat /\
  awaiting (run [SaveBtn; SaveBtn] sample_page) =
    [(0%nat, AwaitSavePost false); (1%nat, AwaitSavePost false)] /\
  in_flight (run [TitleInput "Notes"; Elapse 2000; SaveBtn] sample_page)
    = 2%nat /\
  awaiting (run [TitleInput "Notes"; Elapse 2000; SaveBtn] sample_page) =
    [(0%nat, AwaitSavePost true); (1%nat, AwaitSavePost false)].
Proof. vm_compute. repeat split. Qed.

(** C10.  saveCurrentPost never takes its 'Empty post' branch: the title
    it computes falls back to 'Untitled Post' and is never empty, so the
    call is always suspended on the backend and never settles at once.  In
    particular a manual save of a document with a blank title and no text
    is sent to the backend, under the title 'Untitled Post'. *)
Theorem empty_post_never_rejected
    (s : state) (isAutoSave : bool) (titleOverride : option string)
    (v : string) :
  postTitle s = Some v -> trim v = "" -> getPlainText s = "" ->
  truthy (save_title titleOverride s) = true /\
  snd (saveCurrentPost isAutoSave titleOverride s) = None /\
  in_flight (handleSave s) = S (in_flight s) /\
  log (handleSave s) =
    (log s ++
     [(time s,
       CallSavePost (nextCall s)
         {| id := currentPostId s; filename := None;
            title := "Untitled Post"; content := getContent s;
            plainText := ""; createdAt := currentPostCreatedAt s;
            oldFilename := currentFilename s;
            isFavorite := currentIsFavorite s |})])%list.
Proof.
  intros Ht Hv Hp.
  split; [apply save_title_truthy|].
  split; [now rewrite saveCurrentPost_spec|].
  unfold handleSave. rewrite Ht.
  split; [apply in_flight_saveCurrentPost|].
  rewrite log_saveCurrentPost. simpl app.
  unfold save_request, save_title. rewrite Hv, Hp, Ht. reflexivity.
Qed.

Lemma empty_post_never_rejected_witness :
  postTitle sample_page = Some "" /\ getPlainText sample_page = "" /\
  in_flight (handleSave sample_page) = 1%nat.
Proof.
  split; [reflexivity|]. split; [reflexivity|].
  apply (empty_post_never_rejected sample_page false None "");
    reflexivity.
Defined.

(** *** Clearing the dirty flag *)

(** The listeners only write the title input and the status line. *)
Lemma listeners_fields e s :
  exists st pt, listeners e s = set_saveStatus st (set_postTitle pt s).
Proof.
  destruct s; destruct e; simpl;
    try (destruct postTitle0); try (destruct dirty);
    do 2 eexists; reflexivity.
Qed.

Lemma emit_fields e s :
  exists st pt,
    emit e s = set_saveStatus st (set_postTitle pt (record (Emit e) s)).
Proof. unfold emit. apply listeners_fields. Qed.

Lemma clear_fields s : exists q, clear s = set_quill q s.
Proof.
  unfold clear. destruct s; destruct quill0; simpl; eexists; reflexivity.
Qed.

Lemma setContent_fields m t s : exists q, setContent m t s = set_quill q s.
Proof.
  unfold setContent. destruct s; destruct quill0; simpl;
    eexists; reflexivity.
Qed.

Ltac expose :=
  repeat match goal with
         | |- context [emit ?e ?s] =>
             let st := fresh "st" in let pt := fresh "pt" in
             let E := fresh "E" in
             destruct (emit_fields e s) as (st & pt & E); rewrite E; clear E
         | |- context [clear ?s] =>
             let q := fresh "q" in let E := fresh "E" in
             destruct (clear_fields s) as (q & E); rewrite E; clear E
         | |- context [setContent ?m ?t ?s] =>
             let q := fresh "q" in let E := fresh "E" in
             destruct (setContent_fields m t s) as (q & E); rewrite E;
             clear E
         end.

Lemma log_createNewPost silent s :
  log (createNewPost silent s) =
  (log s ++ [(time s, Emit (PostDirty false));
             (time s, Emit (PostCreated (Some (time s)) silent))])%list.
Proof.
  unfold createNewPost, setDirty. cbv zeta. expose. unfold time. proj.
  rewrite <- ?app_assoc. reflexivity.
Qed.

Lemma log_loadPost p shown s :
  log (loadPost p shown s) =
  (log s ++ [(time s, Emit (PostDirty false));
             (time s, Emit (PostLoaded p))])%list.
Proof.
  unfold loadPost, setDirty. cbv zeta. expose. unfold time. proj.
  rewrite <- ?app_assoc. reflexivity.
Qed.

Lemma log_loadPosts_resolved auto p all s :
  log (loadPosts_resolved auto p all s) =
  (log s ++ [(time s, Emit (PostDirty false));
             (time s, Emit (PostSaved p auto));
             (time s, Returned (Success p))])%list.
Proof.
  unfold loadPosts_resolved, setDirty. cbv zeta. expose. unfold time. proj.
  rewrite <- ?app_assoc. reflexivity.
Qed.

(** C8, as the code has it.  Creating a document, loading one and a
    confirmed save all clear the dirty flag through setDirty(false), which
    emits 'post:dirty' with [false] each time; what tells them apart is the
    event that follows: 'post:created', 'post:loaded' or 'post:saved'.  The
    status line ignores 'post:dirty' when the flag is false. *)
Theorem dirty_cleared_with_event
    (s : state) (silent : bool) (p : post) (shown : string)
    (isAutoSave : bool) (all : list post) :
  (isDirty (createNewPost silent s) = false /\
   log (createNewPost silent s) =
     (log s ++ [(time s, Emit (PostDirty false));
                (time s, Emit (PostCreated (Some (time s)) silent))])%list) /\
  (isDirty (loadPost p shown s) = false /\
   log (loadPost p shown s) =
     (log s ++ [(time s, Emit (PostDirty false));
                (time s, Emit (PostLoaded p))])%list) /\
  (isDirty (loadPosts_resolved isAutoSave p all s) = false /\
   log (loadPosts_resolved isAutoSave p all s) =
     (log s ++ [(time s, Emit (PostDirty false));
                (time s, Emit (PostSaved p isAutoSave));
                (time s, Returned (Success p))])%list) /\
  saveStatus (setDirty false s) = saveStatus s.
Proof.
  split; [split; [|apply log_createNewPost]|].
  { unfold createNewPost, setDirty. cbv zeta. expose. reflexivity. }
  split; [split; [|apply log_loadPost]|].
  { unfold loadPost, setDirty. cbv zeta. expose. reflexivity. }
  split; [split; [|apply log_loadPosts_resolved]|].
  { unfold loadPosts_resolved, setDirty. cbv zeta. expose. reflexivity. }
  reflexivity.
Qed.

(** C8 fails as stated: the new-post button and the opening of a post
    each emit 'post:dirty' with [false]. *)
Lemma navigation_emits_clean :
  log (dispatch NewPostBtn sample_page) =
    [(0, Emit (PostDirty false)); (0, Emit (PostCreated (Some 0) false))] /\
  log (dispatch (OpenPost sample_post "hello") sample_page) =
    [(0, Emit (PostDirty false)); (0, Emit (PostLoaded sample_post))].
Proof. split; reflexivity. Qed.

(** *** The debounce *)

Lemma untimed_refl s : untimed s s.
Proof. unfold untimed; auto. Qed.

Lemma untimed_trans s1 s2 s3 : untimed s1 s2 -> untimed s2 s3 -> untimed s1 s3.
Proof.
  intros (A1 & B1 & C1) (A2 & B2 & C2). unfold untimed.
  repeat split; congruence.
Qed.

Lemma autosaves_record o s :
  autosaves (record o s) =
  (autosaves s ++
   match o with Emit PostSaving => [time s] | _ => [] end)%list.
Proof.
  unfold autosaves, record; proj. rewrite filter_app, map_app.
  destruct o as [[]| | |]; simpl; rewrite ?app_nil_r; reflexivity.
Qed.

Lemma untimed_emit e s : e <> PostSaving -> untimed s (emit e s).
Proof.
  intros Hne. destruct (emit_fields e s) as (st & pt & ->).
  unfold untimed. split; [reflexivity|]. split; [reflexivity|].
  change (autosaves (record (Emit e) s) = autosaves s).
  rewrite autosaves_record. destruct e; try congruence; apply app_nil_r.
Qed.

Lemma untimed_call mk c s :
  (forall k, mk k <> Emit PostSaving) -> untimed s (call_backend mk c s).
Proof.
  intros Hmk. unfold untimed, call_backend.
  split; [reflexivity|]. split; [reflexivity|].
  change (autosaves (record (mk (nextCall s)) s) = autosaves s).
  rewrite autosaves_record. specialize (Hmk (nextCall s)).
  destruct (mk (nextCall s)) as [[]| | |]; try congruence; apply app_nil_r.
Qed.

Lemma untimed_record o s : o <> Emit PostSaving -> untimed s (record o s).
Proof.
  intros Hne. unfold untimed. split; [reflexivity|]. split; [reflexivity|].
  rewrite autosaves_record.
  destruct o as [[]| | |]; try congruence; apply app_nil_r.
Qed.

Lemma untimed_setDirty b s : untimed s (setDirty b s).
Proof.
  unfold setDirty.
  eapply untimed_trans; [|apply untimed_emit; discriminate].
  unfold untimed; auto.
Qed.

Lemma untimed_manual_save o s : untimed s (fst (saveCurrentPost false o s)).
Proof.
  rewrite saveCurrentPost_spec. simpl fst.
  apply untimed_call. discriminate.
Qed.

Lemma untimed_createNewPost silent s : untimed s (createNewPost silent s).
Proof.
  unfold createNewPost. cbv zeta.
  eapply untimed_trans; [|apply untimed_emit; discriminate].
  eapply untimed_trans; [|apply untimed_setDirty].
  destruct (clear_fields
              (set_currentPostCreatedAt
                 (Some (time (set_currentIsFavorite false
                                (set_currentFilename None
                                   (set_currentPostId None s)))))
                 (set_currentIsFavorite false
                    (set_currentFilename None (set_currentPostId None s)))))
    as (q & ->).
  unfold untimed; auto.
Qed.

Lemma untimed_loadPost p shown s : untimed s (loadPost p shown s).
Proof.
  unfold loadPost. cbv zeta.
  eapply untimed_trans; [|apply untimed_emit; discriminate].
  eapply untimed_trans; [|apply untimed_setDirty].
  match goal with
  | |- untimed _ (setContent ?m ?t ?x) =>
      destruct (setContent_fields m t x) as (q & ->)
  end.
  unfold untimed; auto.
Qed.

Lemma untimed_settle k s : untimed s (settle k s).
Proof. unfold untimed; auto. Qed.

Lemma untimed_savePost_resolved auto p s :
  untimed s (savePost_resolved auto p s).
Proof.
  unfold savePost_resolved. cbv zeta.
  eapply untimed_trans; [|apply untimed_call; discriminate].
  unfold untimed; auto.
Qed.

Lemma untimed_loadPosts_resolved auto p all s :
  untimed s (loadPosts_resolved auto p all s).
Proof.
  unfold loadPosts_resolved. cbv zeta.
  eapply untimed_trans; [|apply untimed_record; discriminate].
  eapply untimed_trans; [|apply untimed_emit; discriminate].
  eapply untimed_trans; [|apply untimed_setDirty].
  unfold untimed; auto.
Qed.

Lemma untimed_savePost_rejected err s : untimed s (savePost_rejected err s).
Proof.
  unfold savePost_rejected.
  eapply untimed_trans; [|apply untimed_record; discriminate].
  apply untimed_emit. discriminate.
Qed.

Lemma untimed_instant e s : instant e = true -> untimed s (dispatch e s).
Proof.
  destruct e; simpl; intros H; try discriminate.
  - destruct user; [discriminate|].
    destruct (quill s); [|apply untimed_refl]. unfold untimed; auto.
  - unfold handleSave. destruct (postTitle s); [|apply untimed_refl].
    apply untimed_manual_save.
  - apply untimed_createNewPost.
  - apply untimed_loadPost.
  - destruct (lookup_call k (awaiting s)) as [[auto|auto q]|];
      try apply untimed_refl.
    eapply untimed_trans; [apply (untimed_settle k)|].
    apply untimed_savePost_resolved.
  - destruct (lookup_call k (awaiting s)) as [[auto|auto q]|];
      try apply untimed_refl.
    eapply untimed_trans; [apply (untimed_settle k)|].
    apply untimed_savePost_rejected.
  - destruct (lookup_call k (awaiting s)) as [[auto|auto q]|];
      try apply untimed_refl.
    eapply untimed_trans; [apply (untimed_settle k)|].
    apply untimed_loadPosts_resolved.
Qed.

Lemma untimed_run es s : forallb instant es = true -> untimed s (run es s).
Proof.
  revert s; induction es as [|e es IH]; intros s H; [apply untimed_refl|].
  simpl in H. apply andb_prop in H as [He Hes]. simpl.
  eapply untimed_trans; [apply untimed_instant, He | apply IH, Hes].
Qed.

Lemma scheduled_untimed d s s' : untimed s s' -> scheduled d s -> scheduled d s'.
Proof.
  intros (C & T & _) (i & Ht & Hi). exists i.
  unfold timers in *. rewrite C, T. auto.
Qed.

Lemma filter_tracked i (l : list (jstimer callback)) :
  (forall t, In t l -> i = Some (tid t)) -> filter (keeps i) l = [].
Proof.
  induction l as [|a l IH]; intros H; [reflexivity|].
  simpl. rewrite (H a (or_introl eq_refl)). simpl.
  rewrite Pos.eqb_refl. simpl. rewrite <- (H a (or_introl eq_refl)).
  apply IH. intros t Ht. apply H. now right.
Qed.

Lemma debouncedSave_spec s :
  debounce_ok s ->
  scheduled (time s + 2000) (debouncedSave s) /\
  time (debouncedSave s) = time s /\
  isDirty (debouncedSave s) = isDirty s /\
  autosaves (debouncedSave s) = autosaves s /\
  in_flight (debouncedSave s) = in_flight s /\
  quill (debouncedSave s) = quill s /\
  postTitle (debouncedSave s) = postTitle s.
Proof.
  intros Ok. unfold debouncedSave, scheduled, timers, time. proj. clocks.
  rewrite (filter_tracked (timeout s) (pending (clk s)) Ok). simpl.
  split; [eexists; split; reflexivity|]. repeat split.
Qed.

Lemma debounce_ok_untimed s s' : untimed s s' -> debounce_ok s -> debounce_ok s'.
Proof.
  intros (C & T & _) Ok. unfold debounce_ok, timers in *. rewrite C, T. exact Ok.
Qed.

Lemma in_flight_setDirty b s : in_flight (setDirty b s) = in_flight s.
Proof.
  unfold setDirty. destruct (emit_fields (PostDirty b) (set_isDirty b s))
    as (st & pt & ->). reflexivity.
Qed.

Lemma isDirty_setDirty b s : isDirty (setDirty b s) = b.
Proof.
  unfold setDirty. destruct (emit_fields (PostDirty b) (set_isDirty b s))
    as (st & pt & ->). reflexivity.
Qed.

Lemma quill_setDirty b s : quill (setDirty b s) = quill s.
Proof.
  unfold setDirty. destruct (emit_fields (PostDirty b) (set_isDirty b s))
    as (st & pt & ->). reflexivity.
Qed.

Lemma postTitle_setDirty b s :
  postTitle s <> None -> postTitle (setDirty b s) <> None.
Proof.
  unfold setDirty, emit. intros H.
  destruct b; simpl; exact H.
Qed.

(** An edit notification: the flag is set and the save is scheduled anew,
    2000 ms from now; nothing is saved yet. *)
Lemma notifyEdited_spec s :
  debounce_ok s -> page_ready s ->
  let s' := notifyEdited s in
  scheduled (time s + 2000) s' /\ time s' = time s /\ isDirty s' = true /\
  autosaves s' = autosaves s /\ in_flight s' = in_flight s /\
  page_ready s'.
Proof.
  intros Ok [Pq Pt] s'. subst s'. unfold notifyEdited.
  pose proof (untimed_setDirty true s) as U.
  destruct U as (Uc & Ut & Ua).
  destruct (debouncedSave_spec (setDirty true s))
    as (Sc & Tm & D & A & F & Q & P).
  { eapply debounce_ok_untimed; [apply untimed_setDirty | exact Ok]. }
  unfold time in *. rewrite Uc in *.
  split; [exact Sc|]. split; [exact Tm|].
  split; [rewrite D; apply isDirty_setDirty|].
  split; [congruence|].
  split; [rewrite F; apply in_flight_setDirty|].
  split; [rewrite Q, quill_setDirty; exact Pq|].
  rewrite P. now apply postTitle_setDirty.
Qed.

Lemma scheduled_ok d s : scheduled d s -> debounce_ok s.
Proof.
  intros (i & Ht & Hi) t Hin. rewrite Ht in Hin.
  destruct Hin as [<-|[]]. exact Hi.
Qed.

Lemma edit_spec e s :
  debounce_ok s -> page_ready s ->
  let s' := dispatch (edit_event e) s in
  scheduled (time s + 2000) s' /\ time s' = time s /\ isDirty s' = true /\
  autosaves s' = autosaves s /\ in_flight s' = in_flight s /\
  page_ready s'.
Proof.
  intros Ok [Pq Pt]. destruct e as [m t|v]; simpl.
  - destruct (quill s) as [q|] eqn:Q; [|congruence].
    apply (notifyEdited_spec
             (set_quill (Some {| html := m; text := t |}) s)).
    + exact Ok.
    + split; [discriminate | exact Pt].
  - destruct (postTitle s) as [q|] eqn:P; [|congruence].
    apply (notifyEdited_spec (set_postTitle (Some v) s)).
    + exact Ok.
    + split; [exact Pq | discriminate].
Qed.

(** A pause shorter than what is left of the debounce window only moves
    the clock. *)
Lemma elapse_short g d s :
  scheduled d s -> 0 <= g -> time s + g < d ->
  elapse g s = set_clk (set_now (time s + g) (clk s)) s.
Proof.
  intros (i & Ht & Hi) Hg Hlt. unfold elapse, advance.
  replace (Z.max 0 g) with g by lia.
  rewrite post_loop_idle; [reflexivity|].
  intros u Hu. rewrite Ht in Hu. destruct Hu as [<-|[]]. simpl. lia.
Qed.

Lemma elapse_short_spec g d s :
  scheduled d s -> 0 <= g -> time s + g < d ->
  let s' := elapse g s in
  scheduled d s' /\ time s' = time s + g /\ isDirty s' = isDirty s /\
  autosaves s' = autosaves s /\ in_flight s' = in_flight s /\
  (page_ready s -> page_ready s').
Proof.
  intros Sc Hg Hlt s'. subst s'. rewrite (elapse_short g d s Sc Hg Hlt).
  destruct Sc as (i & Ht & Hi).
  unfold scheduled, timers, time in *. proj. clocks.
  split; [eauto|]. split; [lia|]. split; [reflexivity|].
  split; [reflexivity|]. split; [reflexivity|]. intros P; exact P.
Qed.

Lemma burst_rest rest : forall s,
  scheduled (time s + 2000) s -> isDirty s = true -> page_ready s ->
  Forall (fun ge : Z * edit => 0 <= fst ge < 2000) rest ->
  let s' := run (flat_map (fun ge => [Elapse (fst ge); edit_event (snd ge)])
                   rest) s in
  scheduled (time s' + 2000) s' /\ isDirty s' = true /\
  autosaves s' = autosaves s /\ in_flight s' = in_flight s /\
  page_ready s'.
Proof.
  induction rest as [|[g e] rest IH]; intros s Sc D P F; [simpl; auto|].
  inversion F as [|? ? Hg Fr]; subst. simpl in Hg.
  cbv zeta. simpl flat_map. simpl run.
  destruct (elapse_short_spec g (time s + 2000) s Sc) as (Sc1 & T1 & D1 & A1 & F1 & P1);
    [lia | lia |].
  set (s1 := elapse g s) in *.
  destruct (edit_spec e s1) as (Sc2 & T2 & D2 & A2 & F2 & P2);
    [eapply scheduled_ok; eauto | auto |].
  set (s2 := dispatch (edit_event e) s1) in *.
  destruct (IH s2) as (Sc3 & D3 & A3 & F3 & P3); auto.
  { rewrite T2. exact Sc2. }
  repeat split; try apply P3; auto; congruence.
Qed.

Lemma burst_spec first rest s :
  debounce_ok s -> page_ready s ->
  Forall (fun ge : Z * edit => 0 <= fst ge < 2000) rest ->
  let s' := run (burst first rest) s in
  scheduled (time s' + 2000) s' /\ isDirty s' = true /\
  autosaves s' = autosaves s /\ in_flight s' = in_flight s /\
  page_ready s'.
Proof.
  intros Ok P F. cbv zeta. unfold burst. simpl run.
  destruct (edit_spec first s Ok P) as (Sc1 & T1 & D1 & A1 & F1 & P1).
  set (s1 := dispatch (edit_event first) s) in *.
  destruct (burst_rest rest s1) as (Sc & D & A & Fl & Pg); auto.
  { rewrite T1. exact Sc1. }
  repeat split; try apply Pg; auto; congruence.
Qed.

(** When the window has passed, the debounced callback runs once, at the
    time it was scheduled for, and saves if the document is dirty. *)
Lemma elapse_fires d g s :
  scheduled d s -> time s <= d -> d <= time s + g ->
  let s' := elapse g s in
  autosaves s' = (autosaves s ++ if isDirty s then [d] else [])%list /\
  in_flight s' = (in_flight s + if isDirty s then 1 else 0)%nat /\
  timers s' = [] /\ time s' = time s + g.
Proof.
  intros (i & Ht & Hi) Hle Hge s'. subst s'.
  unfold elapse, advance. replace (Z.max 0 g) with g by lia.
  rewrite post_loop_eq, Ht. simpl earliest. cbn [due].
  destruct (Z.leb_spec d (time s + g)) as [_|]; [|lia].
  set (tm := {| tid := i; due := d; tcb := CbLater |}) in *.
  assert (Hf : timers (fire tm s) = [] /\ time (fire tm s) = d /\
               autosaves (fire tm s)
               = (autosaves s ++ if isDirty s then [d] else [])%list /\
               in_flight (fire tm s)
               = (in_flight s + if isDirty s then 1 else 0)%nat).
  { unfold fire. simpl run_callback. unfold later, func.
    set (s1 := clear_timeout (timeout (set_clk (take tm (clk s)) s))
                 (set_clk (take tm (clk s)) s)).
    assert (C1 : pending (clk s1) = [] /\ now (clk s1) = d).
    { subst s1. proj. clocks. unfold timers in Ht. rewrite Ht. simpl.
      rewrite Pos.eqb_refl. simpl. unfold time in *. split; [reflexivity|lia]. }
    destruct C1 as [C1 C2].
    change (isDirty s1) with (isDirty s).
    destruct (isDirty s).
    - unfold timers, time, autosaves.
      rewrite clk_saveCurrentPost, log_saveCurrentPost, in_flight_saveCurrentPost.
      rewrite C1, C2. split; [reflexivity|]. split; [reflexivity|].
      split.
      + rewrite !filter_app, !map_app. simpl. unfold time. rewrite C2.
        reflexivity.
      + change (in_flight s1) with (in_flight s). lia.
    - unfold timers, time. rewrite C1, C2.
      split; [reflexivity|]. split; [reflexivity|].
      split; [symmetry; apply app_nil_r
             | change (in_flight s1) with (in_flight s); lia]. }
  destruct Hf as (Hf1 & Hf2 & Hf3 & Hf4).
  rewrite post_loop_idle by (rewrite Hf1; intros u []).
  unfold timers, time, autosaves, in_flight in *. proj. clocks.
  split; [exact Hf3|]. split; [exact Hf4|]. split; [exact Hf1|]. lia.
Qed.

(** *** The debounce invariant holds in every reachable state *)

Lemma debounce_ok_init title ed t0 : debounce_ok (init title ed t0).
Proof. intros t []. Qed.

Lemma debounce_ok_notifyEdited s : debounce_ok s -> debounce_ok (notifyEdited s).
Proof.
  intros Ok. unfold notifyEdited.
  destruct (debouncedSave_spec (setDirty true s)) as (Sc & _).
  { eapply debounce_ok_untimed; [apply untimed_setDirty | exact Ok]. }
  eapply scheduled_ok, Sc.
Qed.

Lemma timeout_saveCurrentPost auto o s :
  timeout (fst (saveCurrentPost auto o s)) = timeout s.
Proof.
  rewrite saveCurrentPost_spec. simpl fst.
  destruct auto; reflexivity.
Qed.

Lemma timeout_later s : timeout (later s) = timeout s.
Proof.
  unfold later, func. destruct (isDirty _); [|reflexivity].
  now rewrite timeout_saveCurrentPost.
Qed.

Lemma debounce_ok_fire t s : debounce_ok s -> debounce_ok (fire t s).
Proof.
  intros Ok u Hu. unfold fire in *. destruct (tcb t). simpl run_callback in *.
  unfold timers in Hu. rewrite clk_later in Hu. rewrite timeout_later.
  apply In_clearTimeout in Hu.
  change (In u (pending (take t (clk s)))) in Hu.
  apply In_take in Hu as [Hu _].
  change (timeout s = Some (tid u)). now apply Ok.
Qed.

Lemma debounce_ok_dispatch e s : debounce_ok s -> debounce_ok (dispatch e s).
Proof.
  intros Ok.
  destruct (instant e) eqn:I.
  - eapply debounce_ok_untimed; [apply untimed_instant, I | exact Ok].
  - destruct e; try discriminate; simpl dispatch.
    + destruct user; [|discriminate].
      destruct (quill s); [|exact Ok].
      now apply debounce_ok_notifyEdited.
    + destruct (postTitle s); [|exact Ok].
      now apply debounce_ok_notifyEdited.
    + unfold elapse, advance.
      assert (H : debounce_ok (loop (time s + Z.max 0 dt) s)).
      { apply post_loop_inv; [|exact Ok].
        intros a t Ha _ _. now apply debounce_ok_fire. }
      exact H.
Qed.

Lemma debounce_ok_run es s : debounce_ok s -> debounce_ok (run es s).
Proof.
  revert s; induction es as [|e es IH]; intros s Ok; [exact Ok|].
  simpl. apply IH, debounce_ok_dispatch, Ok.
Qed.

(** C3.  In a burst of edit notifications that follow each other by
    less than 2000 ms, no save is started while the burst lasts; the
    debounced callback runs once, 2000 ms after the last notification, and
    starts a save then if, and only if, the document is still dirty.  It is
    dirty unless something else cleared the flag in between: [others] are
    events such as a manual save and its confirmation, arriving [d1] ms
    after the last notification. *)
Theorem debounce_burst_saves_once
    (s : state) (first : edit) (rest : list (Z * edit)) (d1 d2 : Z)
    (others : list event) :
  page_ready s -> debounce_ok s ->
  Forall (fun ge : Z * edit => 0 <= fst ge < 2000) rest ->
  0 <= d1 < 2000 -> 2000 <= d1 + d2 -> forallb instant others = true ->
  let s1 := run (burst first rest) s in
  let s2 := run (Elapse d1 :: others) s1 in
  let s3 := elapse d2 s2 in
  isDirty (elapse d1 s1) = true /\
  autosaves s2 = autosaves s /\
  autosaves s3 =
    (autosaves s ++ if isDirty s2 then [time s1 + 2000] else [])%list /\
  in_flight s3 = (in_flight s2 + if isDirty s2 then 1 else 0)%nat /\
  timers s3 = [].
Proof.
  intros P Ok F Hd1 Hd2 Hi s1 s2 s3.
  destruct (burst_spec first rest s Ok P F) as (Sc1 & D1 & A1 & _ & _).
  fold s1 in Sc1, D1, A1.
  destruct (elapse_short_spec d1 (time s1 + 2000) s1 Sc1)
    as (Sc2 & T2 & D2 & A2 & _); [lia | lia |].
  set (s1' := elapse d1 s1) in *.
  assert (E2 : s2 = run others s1') by reflexivity.
  pose proof (untimed_run others s1' Hi) as U. rewrite <- E2 in U.
  pose proof (scheduled_untimed _ _ _ U Sc2) as Sc3.
  destruct U as (Uc & _ & Ua).
  assert (T3 : time s2 = time s1 + d1) by (unfold time in *; congruence).
  destruct (elapse_fires (time s1 + 2000) d2 s2 Sc3) as (A3 & F3 & Tm3 & _);
    [lia | lia |].
  fold s3 in A3, F3, Tm3.
  split; [congruence|]. split; [congruence|].
  split; [rewrite A3; congruence|]. split; [exact F3 | exact Tm3].
Qed.

Lemma sample_page_ready : page_ready sample_page /\ debounce_ok sample_page.
Proof. split; [split; discriminate | intros t []]. Qed.

Lemma debounce_burst_saves_once_witness :
  let s1 := run (burst (EditTitle "N")
                   [(500, EditTitle "No"); (1999, EditText "<p>a</p>" "a");
                    (0, EditTitle "Notes")]) sample_page in
  let s3 := elapse 1 (run [Elapse 1999] s1) in
  page_ready sample_page /\ debounce_ok sample_page /\
  autosaves s3 = [4499] /\ timers s3 = [].
Proof.
  destruct sample_page_ready as [P Ok].
  destruct (debounce_burst_saves_once sample_page (EditTitle "N")
              [(500, EditTitle "No"); (1999, EditText "<p>a</p>" "a");
               (0, EditTitle "Notes")] 1999 1 [] P Ok)
    as (_ & _ & A & _ & T);
    [repeat constructor; simpl; lia | lia | lia | reflexivity |].
  cbv zeta.
  split; [exact P|]. split; [exact Ok|]. split; [|exact T].
  rewrite A. vm_compute. reflexivity.
Defined.

(** *** A failed save *)

(** C7.  When the backend rejects a save, the dirty flag is left as it
    is, 'post:saveError' is emitted with the reason, the id, filename and
    creation time of the current post are unchanged, and nothing is sent
    again: no timer is set and no backend call is made.  The next edit
    notification schedules the save anew, and it is sent 2000 ms later. *)
Theorem save_failure_keeps_dirty
    (s : state) (k : nat) (isAutoSave : bool) (error : string) (e : edit) :
  lookup_call k (awaiting s) = Some (AwaitSavePost isAutoSave) ->
  page_ready s -> debounce_ok s ->
  let s' := dispatch (SavePostRejected k error) s in
  let retried := run [edit_event e; Elapse 2000] s' in
  isDirty s' = isDirty s /\
  currentPostId s' = currentPostId s /\
  currentFilename s' = currentFilename s /\
  currentPostCreatedAt s' = currentPostCreatedAt s /\
  log s' = (log s ++ [(time s, Emit (PostSaveError error));
                      (time s, Returned (Failure error))])%list /\
  timers s' = timers s /\ nextCall s' = nextCall s /\
  awaiting s' = filter (fun c => negb (Nat.eqb (fst c) k)) (awaiting s) /\
  autosaves retried = (autosaves s ++ [time s + 2000])%list /\
  in_flight retried = S (in_flight s').
Proof.
  intros Hk P Ok s' retried.
  assert (E : s' = savePost_rejected error (settle k s)).
  { subst s'. simpl dispatch. now rewrite Hk. }
  assert (U : untimed s s').
  { rewrite E. eapply untimed_trans; [apply (untimed_settle k)|].
    apply untimed_savePost_rejected. }
  assert (Fields : isDirty s' = isDirty s /\
                   currentPostId s' = currentPostId s /\
                   currentFilename s' = currentFilename s /\
                   currentPostCreatedAt s' = currentPostCreatedAt s /\
                   log s' = (log s ++ [(time s, Emit (PostSaveError error));
                                       (time s, Returned (Failure error))])%list /\
                   nextCall s' = nextCall s /\
                   awaiting s' = filter (fun c => negb (Nat.eqb (fst c) k))
                                   (awaiting s) /\
                   quill s' = quill s /\ postTitle s' = postTitle s).
  { rewrite E. unfold savePost_rejected, emit, settle, time. simpl.
    rewrite <- ?app_assoc. repeat split. }
  destruct Fields as (F1 & F2 & F3 & F4 & F5 & F6 & F7 & F8 & F9).
  destruct U as (Uc & Ut & Ua).
  assert (Ok' : debounce_ok s').
  { unfold debounce_ok, timers in *. rewrite Uc, Ut. exact Ok. }
  assert (P' : page_ready s').
  { unfold page_ready in *. rewrite F8, F9. exact P. }
  destruct (edit_spec e s' Ok' P') as (Sc & T1 & D1 & A1 & Fl1 & _).
  set (s1 := dispatch (edit_event e) s') in *.
  destruct (elapse_fires (time s' + 2000) 2000 s1 Sc) as (A2 & Fl2 & _);
    [lia | lia |].
  assert (Er : retried = elapse 2000 s1) by reflexivity.
  rewrite <- Er in A2, Fl2. rewrite D1 in A2, Fl2.
  split; [exact F1|]. split; [exact F2|]. split; [exact F3|].
  split; [exact F4|]. split; [exact F5|].
  split; [unfold timers; now rewrite Uc|]. split; [exact F6|].
  split; [exact F7|].
  split.
  - rewrite A2, A1, Ua. unfold time. rewrite Uc. reflexivity.
  - rewrite Fl2, Fl1. lia.
Qed.

Lemma sample_saving_ready :
  page_ready sample_saving /\ debounce_ok sample_saving.
Proof.
  split; [split; discriminate|].
  intros t [<-|[]]. reflexivity.
Qed.

Lemma save_failure_keeps_dirty_witness :
  let s' := dispatch (SavePostRejected 0 "offline") sample_saving in
  isDirty sample_saving = true /\ isDirty s' = true /\
  in_flight s' = 0%nat /\
  in_flight (run [edit_event (EditTitle "Notes!"); Elapse 2000] s') = 1%nat.
Proof.
  destruct sample_saving_ready as [P Ok].
  destruct (save_failure_keeps_dirty sample_saving 0 false "offline"
              (EditTitle "Notes!") eq_refl P Ok)
    as (D & _ & _ & _ & _ & _ & _ & _ & _ & F).
  cbv zeta. split; [reflexivity|]. split; [exact D|].
  split; [reflexivity | exact F].
Defined.


(** *** A confirmed save *)

Lemma lookup_call_app k l1 l2 :
  lookup_call k (l1 ++ l2) =
  match lookup_call k l1 with
  | Some c => Some c
  | None => lookup_call k l2
  end.
Proof.
  induction l1 as [|[j c] l1 IH]; simpl; [reflexivity|].
  destruct (Nat.eqb j k); auto.
Qed.

Lemma lookup_call_fresh k l :
  Forall (fun e : nat * continuation => (fst e < k)%nat) l ->
  lookup_call k l = None.
Proof.
  induction 1 as [|[j c] l H _ IH]; simpl; [reflexivity|].
  simpl in H. destruct (Nat.eqb_spec j k); [lia | exact IH].
Qed.

Lemma calls_ok_settle k s : calls_ok s -> calls_ok (settle k s).
Proof.
  unfold calls_ok, settle; proj. rewrite !Forall_forall.
  intros H e He. apply filter_In in He as [He _]. auto.
Qed.

Lemma savePost_resolved_spec auto p s :
  let s' := savePost_resolved auto p s in
  currentPostId s' = id p /\ currentFilename s' = filename p /\
  currentIsFavorite s' = isFavorite p /\
  currentPostCreatedAt s' = createdAt p /\
  awaiting s' = (awaiting s ++ [(nextCall s, AwaitLoadPosts auto p)])%list /\
  nextCall s' = S (nextCall s) /\
  log s' = (log s ++ [(time s, CallGetAllPosts (nextCall s))])%list /\
  isDirty s' = isDirty s /\ posts s' = posts s /\ quill s' = quill s /\
  postTitle s' = postTitle s /\ saveStatus s' = saveStatus s /\
  clk s' = clk s /\ timeout s' = timeout s.
Proof. cbv zeta. unfold savePost_resolved, time. proj. repeat split. Qed.

Lemma loadPosts_resolved_spec auto p all s :
  let s' := loadPosts_resolved auto p all s in
  currentPostId s' = currentPostId s /\
  currentFilename s' = currentFilename s /\
  currentIsFavorite s' = currentIsFavorite s /\
  currentPostCreatedAt s' = currentPostCreatedAt s /\
  posts s' = filter keep_named all /\ isDirty s' = false /\
  awaiting s' = awaiting s /\ nextCall s' = nextCall s /\
  log s' = (log s ++ [(time s, Emit (PostDirty false));
                      (time s, Emit (PostSaved p auto));
                      (time s, Returned (Success p))])%list /\
  quill s' = quill s /\ postTitle s' = postTitle s /\
  saveStatus s' = (if auto then "All changes saved" else "") /\
  clk s' = clk s /\ timeout s' = timeout s.
Proof.
  cbv zeta. unfold loadPosts_resolved, setDirty, emit, time.
  cbn [listeners]. proj. rewrite <- !app_assoc. repeat split.
Qed.

Lemma dispatch_saved s k auto p :
  lookup_call k (awaiting s) = Some (AwaitSavePost auto) ->
  dispatch (SavePostResolved k p) s = savePost_resolved auto p (settle k s).
Proof. intros Hk. cbn [dispatch]. now rewrite Hk. Qed.

Lemma dispatch_loaded s k auto p all :
  lookup_call k (awaiting s) = Some (AwaitLoadPosts auto p) ->
  dispatch (GetAllPostsResolved k all) s =
  loadPosts_resolved auto p all (settle k s).
Proof. intros Hk. cbn [dispatch]. now rewrite Hk. Qed.

(** The two answers of the backend to a save, one after the other. *)
Lemma confirmed_run s k auto p all :
  lookup_call k (awaiting s) = Some (AwaitSavePost auto) -> calls_ok s ->
  run [SavePostResolved k p; GetAllPostsResolved (nextCall s) all] s =
  loadPosts_resolved auto p all
    (settle (nextCall s) (savePost_resolved auto p (settle k s))).
Proof.
  intros Hk Ok.
  change (run [SavePostResolved k p; GetAllPostsResolved (nextCall s) all] s)
    with (dispatch (GetAllPostsResolved (nextCall s) all)
            (dispatch (SavePostResolved k p) s)).
  rewrite (dispatch_saved s k auto p Hk).
  apply dispatch_loaded.
  destruct (savePost_resolved_spec auto p (settle k s))
    as (_ & _ & _ & _ & A5 & _).
  rewrite A5, lookup_call_app, lookup_call_fresh.
  - simpl. now rewrite Nat.eqb_refl.
  - apply (calls_ok_settle k s Ok).
Qed.

Lemma confirmed_spec s k auto p all :
  lookup_call k (awaiting s) = Some (AwaitSavePost auto) -> calls_ok s ->
  let s' := run [SavePostResolved k p; GetAllPostsResolved (nextCall s) all]
              s in
  currentPostId s' = id p /\ currentFilename s' = filename p /\
  currentIsFavorite s' = isFavorite p /\
  currentPostCreatedAt s' = createdAt p /\
  posts s' = filter keep_named all /\ isDirty s' = false /\
  log s' = (log s ++ [(time s, CallGetAllPosts (nextCall s));
                      (time s, Emit (PostDirty false));
                      (time s, Emit (PostSaved p auto));
                      (time s, Returned (Success p))])%list /\
  nextCall s' = S (nextCall s) /\
  quill s' = quill s /\ postTitle s' = postTitle s /\
  saveStatus s' = (if auto then "All changes saved" else "") /\
  clk s' = clk s /\ timeout s' = timeout s.
Proof.
  intros Hk Ok. cbv zeta. rewrite (confirmed_run s k auto p all Hk Ok).
  unfold loadPosts_resolved, savePost_resolved, setDirty, emit, settle, time.
  cbn [listeners]. proj. rewrite <- !app_assoc. repeat split.
Qed.

(** X11.  When the backend confirms a save and the list of posts is
    reloaded, the current post takes its id, file name, creation time and
    favourite flag from the post the backend returned; the cached list
    holds the named posts of the answer; the flag is cleared and
    'post:saved' is emitted.  The next save names that post: it carries the
    returned id, and the returned file name as [oldFilename]. *)
Theorem confirmed_save_sets_identity
    (s : state) (k : nat) (isAutoSave : bool) (p : post) (all : list post)
    (titleOverride : option string) :
  lookup_call k (awaiting s) = Some (AwaitSavePost isAutoSave) ->
  calls_ok s ->
  let s' := run [SavePostResolved k p; GetAllPostsResolved (nextCall s) all]
              s in
  currentPostId s' = id p /\ currentFilename s' = filename p /\
  currentPostCreatedAt s' = createdAt p /\
  currentIsFavorite s' = isFavorite p /\
  posts s' = filter keep_named all /\ isDirty s' = false /\
  log s' = (log s ++ [(time s, CallGetAllPosts (nextCall s));
                      (time s, Emit (PostDirty false));
                      (time s, Emit (PostSaved p isAutoSave));
                      (time s, Returned (Success p))])%list /\
  id (save_request titleOverride s') = id p /\
  oldFilename (save_request titleOverride s') = filename p /\
  createdAt (save_request titleOverride s') = createdAt p.
Proof.
  intros Hk Ok s'.
  destruct (confirmed_spec s k isAutoSave p all Hk Ok)
    as (A1 & A2 & A3 & A4 & A5 & A6 & A7 & _).
  fold s' in A1, A2, A3, A4, A5, A6, A7.
  unfold save_request. cbn [id oldFilename createdAt].
  repeat split; assumption.
Qed.

Lemma sample_saving_calls :
  lookup_call 0 (awaiting sample_saving) = Some (AwaitSavePost false) /\
  calls_ok sample_saving.
Proof.
  assert (E : awaiting sample_saving = [(0%nat, AwaitSavePost false)] /\
              nextCall sample_saving = 1%nat)
    by (vm_compute; split; reflexivity).
  destruct E as [E1 E2]. unfold calls_ok. rewrite E1, E2.
  split; [reflexivity | repeat constructor].
Qed.

Lemma confirmed_save_sets_identity_witness :
  let s' := run [SavePostResolved 0 sample_post;
                 GetAllPostsResolved (nextCall sample_saving) [sample_post]]
              sample_saving in
  currentPostId s' = Some "post_1" /\ isDirty s' = false.
Proof.
  destruct sample_saving_calls as [Hk Ok].
  destruct (confirmed_save_sets_identity sample_saving 0 false sample_post
              [sample_post] None Hk Ok) as (A & _ & _ & _ & _ & D & _).
  cbv zeta. split; [exact A | exact D].
Defined.

(** *** The cached list of posts *)

Lemma named_filter all : forallb keep_named (filter keep_named all) = true.
Proof.
  induction all as [|a l IH]; simpl; [reflexivity|].
  destruct (keep_named a) eqn:E; simpl; [now rewrite E|exact IH].
Qed.

Lemma posts_emit e s : posts (emit e s) = posts s.
Proof. destruct (emit_fields e s) as (st & pt & ->). reflexivity. Qed.

Lemma posts_saveCurrentPost auto o s :
  posts (fst (saveCurrentPost auto o s)) = posts s.
Proof.
  rewrite saveCurrentPost_spec. cbn [fst]. proj.
  destruct auto; [apply posts_emit | reflexivity].
Qed.

Lemma posts_setDirty b s : posts (setDirty b s) = posts s.
Proof. unfold setDirty. now rewrite posts_emit. Qed.

Lemma posts_notifyEdited s : posts (notifyEdited s) = posts s.
Proof.
  unfold notifyEdited, debouncedSave. proj. apply posts_setDirty.
Qed.

Lemma posts_createNewPost silent s : posts (createNewPost silent s) = posts s.
Proof.
  unfold createNewPost. cbv zeta. rewrite posts_emit, posts_setDirty.
  destruct (clear_fields
              (set_currentPostCreatedAt
                 (Some (time (set_currentIsFavorite false
                                (set_currentFilename None
                                   (set_currentPostId None s)))))
                 (set_currentIsFavorite false
                    (set_currentFilename None (set_currentPostId None s)))))
    as (q & ->).
  reflexivity.
Qed.

Lemma posts_loadPost p shown s : posts (loadPost p shown s) = posts s.
Proof.
  unfold loadPost. cbv zeta. rewrite posts_emit, posts_setDirty.
  destruct (setContent_fields (content p) shown
              (set_currentIsFavorite (isFavorite p)
                 (set_currentPostCreatedAt (createdAt p)
                    (set_currentFilename (filename p)
                       (set_currentPostId (id p) s)))))
    as (q & ->).
  reflexivity.
Qed.

Lemma posts_fire t s : posts (fire t s) = posts s.
Proof.
  unfold fire. destruct (tcb t). simpl run_callback. unfold later, func.
  destruct (isDirty _); [|reflexivity].
  now rewrite posts_saveCurrentPost.
Qed.

Lemma posts_loop T s : posts (loop T s) = posts s.
Proof.
  apply (post_loop_inv T (fun a => posts a = posts s)); [|reflexivity].
  intros a t Ha _ _. now rewrite posts_fire.
Qed.

Lemma named_dispatch e s :
  forallb keep_named (posts s) = true ->
  forallb keep_named (posts (dispatch e s)) = true.
Proof.
  intros H. destruct e; simpl dispatch.
  - destruct (quill s); [|exact H].
    destruct user; [rewrite posts_notifyEdited|]; exact H.
  - destruct (postTitle s); [|exact H]. rewrite posts_notifyEdited. exact H.
  - unfold handleSave. destruct (postTitle s); [|exact H].
    now rewrite posts_saveCurrentPost.
  - now rewrite posts_createNewPost.
  - now rewrite posts_loadPost.
  - destruct (lookup_call k (awaiting s)) as [[auto|auto q]|]; exact H.
  - destruct (lookup_call k (awaiting s)) as [[auto|auto q]|]; exact H.
  - destruct (lookup_call k (awaiting s)) as [[auto|auto q]|]; try exact H.
    destruct (loadPosts_resolved_spec auto q all (settle k s))
      as (_ & _ & _ & _ & B5 & _).
    rewrite B5. apply named_filter.
  - unfold elapse, advance. proj. rewrite posts_loop. exact H.
Qed.

(** X12.  The cached list never holds a post without a file name:
    whatever the events after init, every post of [this.posts] has a
    [filename] that is not empty. *)
Theorem posts_are_named
    (title : option string) (ed : option editor) (t0 : Z) (es : list event) :
  forallb keep_named (posts (run es (init title ed t0))) = true.
Proof.
  assert (H : forallb keep_named (posts (init title ed t0)) = true)
    by reflexivity.
  revert H. generalize (init title ed t0).
  induction es as [|e es IH]; intros s H; [exact H|].
  simpl. apply IH, named_dispatch, H.
Qed.

(** *** Edits that are never saved *)

Lemma edit_log e s :
  page_ready s ->
  log (dispatch (edit_event e) s) =
    (log s ++ [(time s, Emit (PostDirty true))])%list /\
  nextCall (dispatch (edit_event e) s) = nextCall s /\
  awaiting (dispatch (edit_event e) s) = awaiting s /\
  currentPostId (dispatch (edit_event e) s) = currentPostId s /\
  currentFilename (dispatch (edit_event e) s) = currentFilename s.
Proof.
  intros [Pq Pt]. destruct e as [m t|v]; simpl dispatch.
  - destruct (quill s) as [q|]; [|congruence].
    unfold notifyEdited, debouncedSave, setDirty, emit, time.
    cbn [listeners]. proj. repeat split.
  - destruct (postTitle s) as [q|]; [|congruence].
    unfold notifyEdited, debouncedSave, setDirty, emit, time.
    cbn [listeners]. proj. repeat split.
Qed.

(** When the window has passed on a document that is not dirty, the
    debounced callback only clears its timer. *)
Lemma elapse_clean d g s :
  scheduled d s -> isDirty s = false -> time s <= d -> d <= time s + g ->
  elapse g s =
  set_clk {| now := time s + g; nextId := nextId (clk s); pending := [] |} s.
Proof.
  intros (i & Ht & Hi) Dn Hle Hge.
  unfold elapse, advance. replace (Z.max 0 g) with g by lia.
  rewrite post_loop_eq, Ht. simpl earliest. cbn [due].
  destruct (Z.leb_spec d (time s + g)) as [_|]; [|lia].
  set (tm := {| tid := i; due := d; tcb := CbLater |}) in *.
  assert (F : fire tm s =
              set_clk {| now := d; nextId := nextId (clk s); pending := [] |}
                s).
  { unfold fire. simpl run_callback. unfold later, func.
    change (isDirty (clear_timeout (timeout (set_clk (take tm (clk s)) s))
                       (set_clk (take tm (clk s)) s)))
      with (isDirty s).
    rewrite Dn. unfold clear_timeout. proj.
    assert (C : clearTimeout (timeout s) (take tm (clk s)) =
                {| now := d; nextId := nextId (clk s); pending := [] |}).
    { unfold clearTimeout, take. clocks. unfold timers in Ht. rewrite Ht.
      subst tm. cbn [filter keeps tid]. rewrite Pos.eqb_refl.
      cbn [negb filter due]. unfold time in *.
      replace (Z.max (now (clk s)) d) with d by lia. reflexivity. }
    rewrite C. reflexivity. }
  rewrite F, post_loop_idle by (intros u []).
  unfold time in *. proj. unfold set_now. cbn [now nextId pending].
  replace (Z.max d (now (clk s) + g)) with (now (clk s) + g) by lia.
  reflexivity.
Qed.

Lemma createNewPost_spec silent s q v :
  quill s = Some q -> postTitle s = Some v ->
  let s' := createNewPost silent s in
  quill s' = Some empty_editor /\ postTitle s' = Some "" /\
  isDirty s' = false /\ nextCall s' = nextCall s /\
  awaiting s' = awaiting s /\ currentPostId s' = None /\
  currentFilename s' = None /\ currentIsFavorite s' = false /\
  currentPostCreatedAt s' = Some (time s) /\ saveStatus s' = "".
Proof.
  intros Q V. destruct s. simpl in Q, V. subst. cbv zeta.
  unfold createNewPost, setDirty, emit, clear, time. simpl. repeat split.
Qed.


(** X13.  createNewPost does not cancel the debounced save, it only
    clears the flag.  An edit followed within 2000 ms by the new-post
    button is never sent to the backend: when the debounced callback fires
    it finds the flag clear.  By then the editor and the title hold the
    empty new post. *)
Theorem new_post_drops_pending_autosave
    (s : state) (e : edit) (d1 d2 : Z) :
  page_ready s -> debounce_ok s -> 0 <= d1 < 2000 -> 2000 <= d1 + d2 ->
  let s1 := run [edit_event e; Elapse d1] s in
  let s2 := run [NewPostBtn; Elapse d2] s1 in
  isDirty s1 = true /\ scheduled (time s + 2000) s1 /\
  log s2 =
    (log s ++ [(time s, Emit (PostDirty true));
               (time s + d1, Emit (PostDirty false));
               (time s + d1,
                Emit (PostCreated (Some (time s + d1)) false))])%list /\
  nextCall s2 = nextCall s /\ awaiting s2 = awaiting s /\
  timers s2 = [] /\ isDirty s2 = false /\
  quill s2 = Some empty_editor /\ postTitle s2 = Some "".
Proof.
  intros P Ok Hd1 Hd2. cbv zeta.
  change (run [edit_event e; Elapse d1] s)
    with (elapse d1 (dispatch (edit_event e) s)).
  destruct (edit_spec e s Ok P) as (Sc0 & T0 & D0 & _ & _ & P0).
  destruct (edit_log e s P) as (L0 & N0 & W0 & _).
  set (s0 := dispatch (edit_event e) s) in *.
  destruct (elapse_short_spec d1 (time s + 2000) s0 Sc0)
    as (Sc1 & T1 & D1 & _ & _ & P1); [lia | lia |].
  assert (F1 : log (elapse d1 s0) = log s0 /\
               nextCall (elapse d1 s0) = nextCall s0 /\
               awaiting (elapse d1 s0) = awaiting s0)
    by (rewrite (elapse_short d1 (time s + 2000) s0 Sc0) by lia;
        repeat split).
  destruct F1 as (L1 & N1 & W1).
  remember (elapse d1 s0) as s1 eqn:R1.
  change (run [NewPostBtn; Elapse d2] s1)
    with (elapse d2 (createNewPost false s1)).
  destruct (P1 P0) as [Pq Pt].
  destruct (quill s1) as [q|] eqn:Q; [|congruence].
  destruct (postTitle s1) as [v|] eqn:V; [|congruence].
  destruct (createNewPost_spec false s1 q v Q V)
    as (C1 & C2 & C3 & C4 & C5 & _).
  pose proof (log_createNewPost false s1) as C6.
  pose proof (untimed_createNewPost false s1) as U.
  pose proof (scheduled_untimed _ _ _ U Sc1) as Sc2.
  destruct U as (Uc & _).
  remember (createNewPost false s1) as s1' eqn:R2.
  assert (T2 : time s1' = time s + d1) by (unfold time in *; congruence).
  rewrite (elapse_clean (time s + 2000) d2 s1' Sc2 C3) by lia.
  split; [congruence|]. split; [exact Sc1|].
  unfold timers. proj.
  rewrite C6, L1, L0, T1, C4, N1, N0, C5, W1, W0, C3, C1, C2, T0.
  rewrite <- app_assoc. repeat split.
Qed.

Lemma new_post_drops_pending_autosave_witness :
  let s1 := run [edit_event (EditText "<p>draft</p>" "draft"); Elapse 1500]
              sample_page in
  let s2 := run [NewPostBtn; Elapse 500] s1 in
  nextCall s2 = nextCall sample_page /\ timers s2 = [] /\
  quill s2 = Some empty_editor.
Proof.
  destruct sample_page_ready as [P Ok].
  destruct (new_post_drops_pending_autosave sample_page
              (EditText "<p>draft</p>" "draft") 1500 500 P Ok)
    as (_ & _ & _ & N & _ & T & _ & Q & _); [lia | lia |].
  cbv zeta. split; [exact N|]. split; [exact T | exact Q].
Defined.

(** X14.  A confirmed save clears the dirty flag also for what was
    typed after the request was sent.  An edit made while a save is in
    flight, and followed within 2000 ms by the confirmation of that save,
    is never sent: the debounced callback finds the flag clear, the only
    backend call is the reload of the list, and the status line reports
    the save while the editor holds the later text. *)
Theorem edit_during_save_is_not_saved
    (s : state) (k : nat) (isAutoSave : bool) (p : post) (all : list post)
    (e : edit) (d1 d2 : Z) :
  lookup_call k (awaiting s) = Some (AwaitSavePost isAutoSave) ->
  calls_ok s -> page_ready s -> debounce_ok s ->
  0 <= d1 < 2000 -> 2000 <= d1 + d2 ->
  let s1 := run [edit_event e; Elapse d1] s in
  let s2 := run [SavePostResolved k p; GetAllPostsResolved (nextCall s) all]
              s1 in
  let s3 := elapse d2 s2 in
  isDirty s1 = true /\ isDirty s2 = false /\
  saveStatus s3 = (if isAutoSave then "All changes saved" else "") /\
  log s3 =
    (log s ++ [(time s, Emit (PostDirty true));
               (time s + d1, CallGetAllPosts (nextCall s));
               (time s + d1, Emit (PostDirty false));
               (time s + d1, Emit (PostSaved p isAutoSave));
               (time s + d1, Returned (Success p))])%list /\
  nextCall s3 = S (nextCall s) /\ timers s3 = [] /\ isDirty s3 = false /\
  quill s3 = quill s1 /\ postTitle s3 = postTitle s1.
Proof.
  intros Hk Ok P Dk Hd1 Hd2. cbv zeta.
  change (run [edit_event e; Elapse d1] s)
    with (elapse d1 (dispatch (edit_event e) s)).
  destruct (edit_spec e s Dk P) as (Sc0 & T0 & D0 & _ & _ & P0).
  destruct (edit_log e s P) as (L0 & N0 & W0 & _).
  set (s0 := dispatch (edit_event e) s) in *.
  destruct (elapse_short_spec d1 (time s + 2000) s0 Sc0)
    as (Sc1 & T1 & D1 & _ & _ & _); [lia | lia |].
  assert (F1 : log (elapse d1 s0) = log s0 /\
               nextCall (elapse d1 s0) = nextCall s0 /\
               awaiting (elapse d1 s0) = awaiting s0)
    by (rewrite (elapse_short d1 (time s + 2000) s0 Sc0) by lia;
        repeat split).
  destruct F1 as (L1 & N1 & W1).
  remember (elapse d1 s0) as s1 eqn:R1.
  assert (Hk1 : lookup_call k (awaiting s1) = Some (AwaitSavePost isAutoSave))
    by (rewrite W1, W0; exact Hk).
  assert (Ok1 : calls_ok s1)
    by (unfold calls_ok; rewrite W1, W0, N1, N0; exact Ok).
  assert (N10 : nextCall s1 = nextCall s) by congruence.
  destruct (confirmed_spec s1 k isAutoSave p all Hk1 Ok1)
    as (_ & _ & _ & _ & _ & B6 & B7 & B8 & B9 & B10 & B11 & B12 & B13).
  rewrite N10 in B6, B7, B8, B9, B10, B11, B12, B13.
  remember (run [SavePostResolved k p;
                 GetAllPostsResolved (nextCall s) all] s1) as s2 eqn:R2.
  assert (Sc2 : scheduled (time s + 2000) s2).
  { destruct Sc1 as (i & Ht & Hi). exists i.
    unfold timers in *. rewrite B12, B13. auto. }
  assert (T2 : time s2 = time s + d1) by (unfold time in *; congruence).
  rewrite (elapse_clean (time s + 2000) d2 s2 Sc2 B6) by lia.
  split; [congruence|]. split; [exact B6|].
  unfold timers. proj.
  rewrite B11, B7, L1, L0, T1, T0, B8, B6, B9, B10.
  rewrite <- app_assoc. repeat split.
Qed.

Lemma sample_saving_ok :
  lookup_call 0 (awaiting sample_saving) = Some (AwaitSavePost false) /\
  calls_ok sample_saving /\ page_ready sample_saving /\
  debounce_ok sample_saving.
Proof.
  destruct sample_saving_calls as [Hk Ok].
  destruct sample_saving_ready as [P Dk]. auto.
Qed.

Lemma edit_during_save_is_not_saved_witness :
  let s1 := run [edit_event (EditTitle "Notes, again"); Elapse 300]
              sample_saving in
  let s2 := run [SavePostResolved 0 sample_post;
                 GetAllPostsResolved (nextCall sample_saving) [sample_post]]
              s1 in
  let s3 := elapse 1700 s2 in
  postTitle s3 = Some "Notes, again" /\ isDirty s3 = false /\
  timers s3 = [] /\ nextCall s3 = S (nextCall sample_saving).
Proof.
  destruct sample_saving_ok as (Hk & Ok & P & Dk).
  destruct (edit_during_save_is_not_saved sample_saving 0 false sample_post
              [sample_post] (EditTitle "Notes, again") 300 1700 Hk Ok P Dk)
    as (_ & _ & _ & _ & N & T & D & _ & V); [lia | lia |].
  cbv zeta. split; [|split; [exact D | split; [exact T | exact N]]].
  rewrite V. vm_compute. reflexivity.
Defined.

(** *** What a save says about the current post *)

Lemma handleSave_log s v :
  postTitle s = Some v ->
  log (handleSave s) =
    (log s ++ [(time s,
                CallSavePost (nextCall s)
                  (save_request (Some (str_or (trim v) "Untitled Post"))
                     s))])%list /\
  in_flight (handleSave s) = S (in_flight s).
Proof.
  intros V. unfold handleSave. rewrite V.
  rewrite log_saveCurrentPost, in_flight_saveCurrentPost. auto.
Qed.







(** X16.  A new post saved by hand is sent as a new document: no id,
    no old file name, the creation time of the click on 'new', and, the
    title input being empty, the title 'Untitled Post'; the editor's empty
    document counts as no text.  The save is sent all the same. *)
Theorem new_post_is_saved_as_new (s : state) :
  page_ready s ->
  let s' := run [NewPostBtn; SaveBtn] s in
  log s' =
    (log s ++
     [(time s, Emit (PostDirty false));
      (time s, Emit (PostCreated (Some (time s)) false));
      (time s,
       CallSavePost (nextCall s)
         {| id := None; filename := None; title := "Untitled Post";
            content := "<p><br></p>"; plainText := "";
            createdAt := Some (time s); oldFilename := None;
            isFavorite := false |})])%list /\
  in_flight s' = S (in_flight s).
Proof.
  intros [Pq Pt] s'.
  destruct (quill s) as [q|] eqn:Q; [|congruence].
  destruct (postTitle s) as [v|] eqn:V; [|congruence].
  destruct (createNewPost_spec false s q v Q V)
    as (C1 & C2 & C3 & C4 & C5 & C6 & C7 & C8 & C9 & _).
  pose proof (log_createNewPost false s) as C10.
  pose proof (untimed_createNewPost false s) as (Uc & _).
  assert (E : s' = handleSave (createNewPost false s)) by reflexivity.
  set (s1 := createNewPost false s) in *.
  destruct (handleSave_log s1 "" C2) as [HL HF].
  rewrite <- E in HL, HF.
  split.
  - assert (Ts : time s1 = time s) by (unfold time; now rewrite Uc).
    rewrite HL, C10, C4, Ts.
    unfold save_request, save_title, getContent, getPlainText.
    rewrite C1, C2, C6, C7, C8, C9. simpl.
    rewrite <- app_assoc. reflexivity.
  - rewrite HF. unfold in_flight. now rewrite C5.
Qed.

Lemma new_post_is_saved_as_new_witness :
  in_flight (run [NewPostBtn; SaveBtn] sample_page) = 1%nat.
Proof.
  destruct sample_page_ready as [P _].
  exact (proj2 (new_post_is_saved_as_new sample_page P)).
Defined.
End PostFacts.

(** ** Utils.getPreview *)

Module UtilsFacts.
Import Utils.

Lemma substring_0_all (n : nat) (s : string) :
  (String.length s <= n)%nat -> substring 0 n s = s.
Proof.
  revert n; induction s as [|c s IH]; intros [|n] H; simpl in *;
    try reflexivity; try lia.
  rewrite IH by lia. reflexivity.
Qed.

(** X17.  getPreview on a text that is not empty: a text no longer than
    [length] comes back as it is; a longer one is cut to its first
    [length] characters (none if [length] is negative) followed by three
    dots, so the preview is never longer than [length + 3]. *)
Theorem getPreview_truncates (text : string) (length : Z) :
  truthy text = true ->
  let p := getPreview text length in
  (if length <? jslen text
   then p = (substring 0 (Z.to_nat length) text ++ "...")%string /\
        jslen p = Z.max 0 length + 3
   else p = text) /\
  jslen p <= Z.max 0 length + 3.
Proof.
  intros Ht p. subst p. unfold getPreview. rewrite Ht. cbn [negb].
  unfold jslen.
  destruct (Z.ltb_spec length (Z.of_nat (String.length text))) as [L|L].
  - rewrite length_append, substring_0_length. simpl String.length.
    split; [split; [reflexivity|]|]; lia.
  - rewrite substring_0_all by lia. rewrite LockFacts.append_empty_r.
    split; [reflexivity | lia].
Qed.

Lemma getPreview_truncates_witness :
  getPreview "a long day at sea" 6 = "a long..." /\
  getPreview "short" 80 = "short".
Proof.
  split.
  - destruct (getPreview_truncates "a long day at sea" 6 eq_refl)
      as [[E _] _]. exact E.
  - destruct (getPreview_truncates "short" 80 eq_refl) as [E _]. exact E.
Defined.

End UtilsFacts.

(** ** FiltersManager *)

Module FiltersFacts.
Import FiltersManager.

Lemma is_space_lower c : is_space (lower c) = is_space c.
Proof. destruct c as [[] [] [] [] [] [] [] []]; reflexivity. Qed.

Lemma lower_idem c : lower (lower c) = lower c.
Proof. destruct c as [[] [] [] [] [] [] [] []]; reflexivity. Qed.

Lemma toLowerCase_idem s : toLowerCase (toLowerCase s) = toLowerCase s.
Proof.
  induction s as [|c s IH]; simpl; [reflexivity|].
  now rewrite lower_idem, IH.
Qed.

Lemma truthy_toLowerCase s : truthy (toLowerCase s) = truthy s.
Proof. destruct s; reflexivity. Qed.

Lemma trim_start_lower s :
  trim_start (toLowerCase s) = toLowerCase (trim_start s).
Proof.
  induction s as [|c s IH]; simpl; [reflexivity|].
  rewrite is_space_lower. destruct (is_space c); [exact IH | reflexivity].
Qed.

Lemma trim_end_lower s :
  trim_end (toLowerCase s) = toLowerCase (trim_end s).
Proof.
  induction s as [|c s IH]; simpl; [reflexivity|].
  rewrite IH, is_space_lower.
  destruct (trim_end s); simpl; [destruct (is_space c)|]; reflexivity.
Qed.

Lemma trim_lower s : trim (toLowerCase s) = toLowerCase (trim s).
Proof. unfold trim. now rewrite trim_start_lower, trim_end_lower. Qed.

Lemma trim_end_idem s : trim_end (trim_end s) = trim_end s.
Proof.
  induction s as [|c s IH]; simpl; [reflexivity|].
  destruct (trim_end s) as [|d t] eqn:E.
  - destruct (is_space c) eqn:Sp; simpl; [reflexivity|]. now rewrite Sp.
  - change (trim_end (String c (String d t)))
      with (match trim_end (String d t) with
            | EmptyString =>
                if is_space c then EmptyString else String c EmptyString
            | r' => String c r'
            end).
    rewrite IH. reflexivity.
Qed.

Lemma headed_trim_start s : headed (trim_start s) = true.
Proof.
  induction s as [|c s IH]; simpl; [reflexivity|].
  destruct (is_space c) eqn:Sp; [exact IH|]. simpl. now rewrite Sp.
Qed.

Lemma headed_trim_end s : headed s = true -> headed (trim_end s) = true.
Proof.
  destruct s as [|c s]; simpl; [reflexivity|]. intros H.
  destruct (trim_end s); [|exact H].
  apply negb_true_iff in H. rewrite H. simpl. now rewrite H.
Qed.

Lemma trim_start_headed s : headed s = true -> trim_start s = s.
Proof.
  destruct s as [|c s]; simpl; [reflexivity|]. intros H.
  apply negb_true_iff in H. now rewrite H.
Qed.

Lemma trim_idem s : trim (trim s) = trim s.
Proof.
  unfold trim.
  rewrite (trim_start_headed (trim_end (trim_start s)))
    by apply headed_trim_end, headed_trim_start.
  apply trim_end_idem.
Qed.

Lemma truthy_trim s : truthy (trim s) = true -> truthy s = true.
Proof. destruct s; [discriminate | reflexivity]. Qed.

Lemma blank_trim q : blank q = negb (truthy (trim q)).
Proof.
  unfold blank. destruct (truthy (trim q)) eqn:E.
  - now rewrite (truthy_trim q E).
  - apply orb_true_r.
Qed.

(** What both filters make of the query. *)
Lemma query_normal q :
  blank (toLowerCase (trim q)) = blank q /\
  trim (toLowerCase (toLowerCase (trim q))) = trim (toLowerCase q).
Proof.
  split.
  - rewrite !blank_trim, trim_lower, trim_idem, truthy_toLowerCase.
    reflexivity.
  - rewrite toLowerCase_idem, !trim_lower, trim_idem. reflexivity.
Qed.

Lemma filter_length_le {A} (f : A -> bool) (l : list A) :
  (List.length (filter f l) <= List.length l)%nat.
Proof. induction l as [|a l IH]; simpl; [lia|]. destruct (f a); simpl; lia. Qed.

(** X18.  filterByName and filterByContent see the query only through
    its trimmed, lower-case form: case and surrounding white space of the
    query make no difference.  An empty query gives every post back, and
    a filter never returns more posts than it was given. *)
Theorem filters_normalise_query (posts : list Post.post) (query : string) :
  filterByName posts query =
    filterByName posts (toLowerCase (trim query)) /\
  filterByContent posts query =
    filterByContent posts (toLowerCase (trim query)) /\
  filterByName posts "" = posts /\ filterByContent posts "" = posts /\
  (List.length (filterByName posts query) <= List.length posts)%nat /\
  (List.length (filterByContent posts query) <= List.length posts)%nat.
Proof.
  destruct (query_normal query) as [B L].
  unfold filterByName, filterByContent. rewrite B. cbv zeta. rewrite L.
  split; [reflexivity|]. split; [reflexivity|].
  split; [reflexivity|]. split; [reflexivity|].
  destruct (blank query); auto using filter_length_le.
Qed.

Lemma includes_nil_prefix s : includes s "" = true.
Proof. destruct s; reflexivity. Qed.

(** X19.  A query of white space only gives every post back, in the
    order given; with any other query filterByContent returns no post
    whose plain text is empty, and every post it returns is one of those it
    was given. *)
Theorem filters_blank_query (posts : list Post.post) (query : string)
    (p : Post.post) :
  trim query = "" ->
  filterByName posts query = posts /\
  filterByContent posts query = posts /\
  forall q, In p (filterByContent posts q) ->
            In p posts /\ (blank q = false -> Post.plainText p <> "").
Proof.
  intros E. unfold filterByName, filterByContent.
  rewrite blank_trim, E. simpl.
  split; [reflexivity|]. split; [reflexivity|].
  intros q. destruct (blank q); [intros H; split; [exact H | discriminate]|].
  intros H. apply filter_In in H as [H1 H2]. split; [exact H1|].
  intros _ Hp. rewrite Hp in H2. discriminate.
Qed.

Lemma filters_blank_query_witness :
  filterByName [Post.sample_post] "   " = [Post.sample_post].
Proof.
  exact (proj1 (filters_blank_query [Post.sample_post] "   "
                  Post.sample_post eq_refl)).
Defined.

End FiltersFacts.

(** ** The file names of the server *)

Module ServerFacts.
Import Server.

Lemma alnum_not_dash c : is_alnum c = true -> (c =? "-")%char = false.
Proof.
  destruct c as [[] [] [] [] [] [] [] []]; intros H;
    first [reflexivity | vm_compute in H; discriminate H].
Qed.

Lemma strip_first_cons c r :
  strip_first (String c r) = if (c =? "-")%char then r else String c r.
Proof. destruct c as [[] [] [] [] [] [] [] []]; reflexivity. Qed.

Lemma clean_dashes b s : clean (dashes b s) = true.
Proof.
  unfold clean. revert b; induction s as [|c s IH]; intros b; simpl;
    [reflexivity|].
  destruct (is_alnum c) eqn:A.
  - simpl. unfold name_char at 1. rewrite A. simpl. apply IH.
  - destruct b; [apply IH|]. simpl. apply IH.
Qed.

Lemma head_dashes s : starts_dash (dashes true s) = false.
Proof.
  induction s as [|c s IH]; simpl; [reflexivity|].
  destruct (is_alnum c) eqn:A; [|exact IH].
  simpl. now apply alnum_not_dash.
Qed.

Lemma head_strip_first s : starts_dash (strip_first (dashes false s)) = false.
Proof.
  destruct s as [|c s]; simpl; [reflexivity|].
  destruct (is_alnum c) eqn:A.
  - rewrite strip_first_cons, (alnum_not_dash c A). simpl.
    now apply alnum_not_dash.
  - rewrite strip_first_cons. simpl. apply head_dashes.
Qed.

Lemma clean_strip_first s : clean s = true -> clean (strip_first s) = true.
Proof.
  destruct s as [|c s]; [auto|]. rewrite strip_first_cons.
  destruct (c =? "-")%char; [|auto].
  unfold clean; simpl. intros H. apply andb_prop in H. apply H.
Qed.

Lemma clean_strip_last s : clean s = true -> clean (strip_last s) = true.
Proof.
  unfold clean. induction s as [|c s IH]; [auto|].
  intros H. simpl in H. apply andb_prop in H as [Hc Hs].
  destruct s as [|d s'].
  - simpl. destruct (c =? "-")%char; simpl; [reflexivity|]. now rewrite Hc.
  - change (strip_last (String c (String d s')))
      with (String c (strip_last (String d s'))).
    simpl list_ascii_of_string. simpl forallb. rewrite Hc. simpl.
    apply IH, Hs.
Qed.

Lemma head_strip_last s :
  starts_dash s = false -> starts_dash (strip_last s) = false.
Proof.
  destruct s as [|c s]; [auto|]. intros H. simpl in H.
  destruct s as [|d s'].
  - simpl. now rewrite H.
  - exact H.
Qed.

Lemma clean_substring n s : clean s = true -> clean (substring 0 n s) = true.
Proof.
  unfold clean. revert n; induction s as [|c s IH]; intros [|n] H; simpl;
    try reflexivity.
  simpl in H. apply andb_prop in H as [Hc Hs]. rewrite Hc. simpl. auto.
Qed.

Lemma head_substring n s :
  starts_dash s = false -> starts_dash (substring 0 n s) = false.
Proof. destruct s as [|c s], n; simpl; auto. Qed.

(** X20.  Whatever the title, the part of a file name made from it holds
    letters, digits and dashes only, is at most 50 characters long and
    does not start with a dash: no title puts a dot or a path separator
    into the name.  When nothing is left of the title the name falls back
    to 'untitled', so it is never empty. *)
Theorem sanitize_safe (title : string) :
  clean (sanitize title) = true /\
  (String.length (sanitize title) <= 50)%nat /\
  starts_dash (sanitize title) = false /\
  clean (str_or (sanitize title) "untitled") = true /\
  truthy (str_or (sanitize title) "untitled") = true.
Proof.
  assert (C : clean (sanitize title) = true).
  { unfold sanitize.
    apply clean_substring, clean_strip_last, clean_strip_first, clean_dashes. }
  split; [exact C|].
  split; [unfold sanitize; rewrite substring_0_length; lia|].
  split.
  { unfold sanitize. apply head_substring, head_strip_last, head_strip_first. }
  split.
  - unfold str_or. destruct (truthy (sanitize title)); [exact C | reflexivity].
  - now apply truthy_str_or.
Qed.

Lemma matches_length p s :
  matches p s = true -> String.length s = List.length p.
Proof.
  revert s; induction p as [|[x|] p IH]; intros [|c s] H; simpl in *;
    try discriminate; try reflexivity;
    apply andb_prop in H as [_ H]; now rewrite (IH s H).
Qed.

Lemma matches_app p1 p2 a b :
  matches p1 a = true -> matches (p1 ++ p2) (a ++ b) = matches p2 b.
Proof.
  revert a; induction p1 as [|[x|] p1 IH]; intros [|c a] H; simpl in *;
    try discriminate; try reflexivity;
    apply andb_prop in H as [Hc H]; rewrite Hc; simpl; now apply IH.
Qed.

Lemma matches_front p1 p2 s :
  matches (p1 ++ p2) s = true ->
  matches p1 (substring 0 (List.length p1) s) = true.
Proof.
  revert s; induction p1 as [|[x|] p1 IH]; intros s H.
  - destruct s; reflexivity.
  - destruct s as [|c s]; simpl in *; [discriminate|].
    apply andb_prop in H as [Hc H]. rewrite Hc. simpl. now apply IH.
  - destruct s as [|c s]; simpl in *; [discriminate|].
    apply andb_prop in H as [Hc H]. rewrite Hc. simpl. now apply IH.
Qed.

Lemma substring_0_app n a b :
  substring 0 (String.length a + n) (a ++ b) = (a ++ substring 0 n b)%string.
Proof. induction a as [|c a IH]; simpl; [reflexivity | now rewrite IH]. Qed.

Lemma substring_0_0 s : substring 0 0 s = "".
Proof. destruct s; reflexivity. Qed.

Lemma substring_0_twice n m s :
  (n <= m)%nat -> substring 0 n (substring 0 m s) = substring 0 n s.
Proof.
  revert n m; induction s as [|c s IH]; intros [|n] [|m] H; simpl;
    try reflexivity; try lia.
  rewrite IH by lia. reflexivity.
Qed.

Lemma truthy_stamp ts : is_stamp ts = true -> truthy ts = true.
Proof. destruct ts; [discriminate | reflexivity]. Qed.

(** The stamp is read back from a name that starts with it. *)
Lemma stamp_of_named ts rest :
  is_stamp ts = true -> stamp_of (ts ++ "_" ++ rest) = Some ts.
Proof.
  intros H. unfold stamp_of.
  pose proof (matches_length _ _ H) as Hl. simpl List.length in Hl.
  change 16%nat with (15 + 1)%nat. rewrite <- Hl.
  rewrite substring_0_app. simpl substring at 1.
  rewrite substring_0_0.
  unfold is_stamp in H. rewrite (matches_app _ _ _ _ H). simpl.
  replace (String.length ts) with (String.length ts + 0)%nat by lia.
  rewrite substring_0_app, substring_0_0, LockFacts.append_empty_r. reflexivity.
Qed.

Lemma stamp_of_is_stamp f ts : stamp_of f = Some ts -> is_stamp ts = true.
Proof.
  unfold stamp_of.
  destruct (matches _ _) eqn:M; [|discriminate].
  intros E. inversion E; subst; clear E.
  apply matches_front in M. simpl List.length in M.
  rewrite substring_0_twice in M by lia. exact M.
Qed.

(** X21.  The timestamp of a file name survives: from a name that
    generateFilename built on a well-formed timestamp, api.savePost reads
    the same timestamp back, whatever the title. *)
Theorem stamp_round_trip (stamp_now title ts : string) :
  is_stamp ts = true ->
  stamp_of (generateFilename stamp_now title (Some ts)) = Some ts.
Proof.
  intros H. unfold generateFilename. rewrite (truthy_stamp ts H).
  now apply stamp_of_named.
Qed.

Lemma stamp_round_trip_witness :
  stamp_of (generateFilename "2026-02-01_0900" "Hello, World!"
              (Some "2026-01-20_2345")) = Some "2026-01-20_2345".
Proof.
  exact (stamp_round_trip "2026-02-01_0900" "Hello, World!"
           "2026-01-20_2345" eq_refl).
Defined.

(** The name api.savePost writes starts with a well-formed timestamp. *)
Lemma savePost_filename_shape stamp_now p :
  is_stamp stamp_now = true ->
  exists ts, is_stamp ts = true /\
    savePost_filename stamp_now p =
    (ts ++ "_" ++ str_or (sanitize (str_or (Post.title p) "untitled"))
                    "untitled" ++ ".json")%string.
Proof.
  intros H. unfold savePost_filename, generateFilename.
  destruct (Post.oldFilename p) as [old|]; [|eauto].
  destruct (truthy old); [|eauto].
  destruct (stamp_of old) as [ts|] eqn:E; [|eauto].
  pose proof (stamp_of_is_stamp _ _ E) as Hs.
  rewrite (truthy_stamp ts Hs). eauto.
Qed.

(** X22.  Saving again what the server answered, under the same title,
    changes nothing on disk: api.savePost computes the same file name,
    whatever the time of the second save, and removes no file. *)
Theorem resave_keeps_filename (stamp_now stamp_later : string)
    (p : Post.post) :
  is_stamp stamp_now = true ->
  let file := savePost_filename stamp_now p in
  savePost_filename stamp_later (resend file p) = file /\
  savePost_removes stamp_later (resend file p) = None.
Proof.
  intros H file.
  destruct (savePost_filename_shape stamp_now p H) as (ts & Hs & E).
  assert (F : savePost_filename stamp_later (resend file p) = file).
  { unfold savePost_filename at 1. cbn [resend Post.oldFilename Post.title].
    subst file. rewrite E.
    assert (T : truthy (ts ++ "_" ++
                        str_or (sanitize (str_or (Post.title p) "untitled"))
                          "untitled" ++ ".json") = true).
    { pose proof (truthy_stamp ts Hs). destruct ts; [discriminate|].
      reflexivity. }
    rewrite T, (stamp_of_named ts _ Hs).
    unfold generateFilename. now rewrite (truthy_stamp ts Hs). }
  split; [exact F|].
  unfold savePost_removes. cbn [resend Post.oldFilename].
  change (savePost_filename stamp_later
            {| Post.id := Post.id p; Post.filename := Post.filename p;
               Post.title := Post.title p; Post.content := Post.content p;
               Post.plainText := Post.plainText p;
               Post.createdAt := Post.createdAt p;
               Post.oldFilename := Some file;
               Post.isFavorite := Post.isFavorite p |})
    with (savePost_filename stamp_later (resend file p)).
  rewrite F, String.eqb_refl, andb_false_r. reflexivity.
Qed.

Lemma resave_keeps_filename_witness :
  let file := savePost_filename "2026-01-20_2345" Post.sample_post in
  file = "2026-01-20_2345_Notes.json" /\
  savePost_filename "2026-03-05_0815" (resend file Post.sample_post) = file.
Proof.
  cbv zeta. split; [reflexivity|].
  exact (proj1 (resave_keeps_filename "2026-01-20_2345" "2026-03-05_0815"
                  Post.sample_post eq_refl)).
Defined.

End ServerFacts.

(** ** ThemeManager *)

Module ThemeFacts.
Import ThemeManager.

Lemma has_saved_setTheme t s :
  truthy t = true -> has_saved (setTheme t s) = true.
Proof. intros H. exact H. Qed.

Lemma has_saved_init d s : has_saved (init d s) = true.
Proof.
  unfold init. destruct (has_saved s) eqn:H.
  - unfold has_saved in H. destruct (saved_theme s); [exact H | discriminate].
  - destruct d; reflexivity.
Qed.

Lemma has_saved_dispatch e s :
  has_saved s = true -> has_saved (dispatch e s) = true.
Proof.
  intros H. destruct e; simpl.
  - unfold toggle. destruct (getTheme s =? "light")%string; reflexivity.
  - unfold onSystemChange. now rewrite H.
Qed.

Lemma run_saved es : forall s,
  has_saved s = true -> run es s = run (filter is_toggle es) s.
Proof.
  induction es as [|e es IH]; intros s H; [reflexivity|].
  destruct e; simpl.
  - apply IH. apply (has_saved_dispatch Toggle s H).
  - unfold onSystemChange. rewrite H. now apply IH.
Qed.

(** X23.  init always writes the theme to localStorage, and so does
    every toggle: once init has run, the listener for changes of the system
    colour scheme finds a saved theme and does nothing.  The page ends
    where the toggles alone would have taken it; two toggles in a row come
    back to 'light' from 'light' and end on 'dark' from anything else. *)
Theorem system_change_ignored (prefersDark : bool) (s : page)
    (es : list event) :
  run es (init prefersDark s) = run (filter is_toggle es) (init prefersDark s) /\
  has_saved (run es (init prefersDark s)) = true /\
  getTheme (toggle (toggle s)) =
    (if (getTheme s =? "light")%string then "light" else "dark").
Proof.
  split; [apply run_saved, has_saved_init|].
  split.
  - generalize (has_saved_init prefersDark s).
    generalize (init prefersDark s). induction es as [|e es IH]; intros a H;
      [exact H|].
    simpl. apply IH, has_saved_dispatch, H.
  - unfold toggle at 1. unfold getTheme at 1. unfold toggle.
    destruct (getTheme s =? "light")%string; reflexivity.
Qed.

End ThemeFacts.
